(** * NSW property data: the batch pipeline and the query layer of [server.js]

    A shallow embedding of the class [NSWPropertyAPI]:
    - the record parser ([parsePropertyLine], [determinePropertyType],
      [formatDate]),
    - the archive scanner ([findDATFilesRecursively]),
    - the chunk writer ([createOptimizedChunks], [createAddressFiles],
      [compressProperty], [hashAddress]),
    - the index builder ([createOptimizedIndices]),
    - the read side ([fetchGitHubFile], [loadPropertiesForAddressYear],
      [searchAddressFromGitHub] and its siblings, [decompressProperty]).

    Conventions of the embedding.
    - A JavaScript string is a [string]; the data files are ASCII text, and
      the case maps and [trim] act on the ASCII letters and blanks.
    - A JavaScript number is an IEEE 754 binary64 value, [spec_float] of the
      standard library with [prec = 53] and [emax = 1024].
    - An object used as a record with a fixed shape is a [Record]; an object
      whose shape is probed at run time (a chunk entry, which may be in the
      compact or in the expanded shape) is a finite map from property names
      to values; an object whose keys are enumerated ([Object.keys]) is an
      association list in insertion order, together with the enumeration
      order of the language.
    - A plain object, [{}] or what [JSON.parse] makes, answers to the
      property names of [Object.prototype] as well as to its own keys.
      Where the code uses such an object as a map from addresses, the
      lookup goes through [inherit]; the counters that the code puts on
      the objects it reaches that way outlive the call, and are the
      [realm] of the process.
    - An [async] method is the function from the answers of its environment
      (remote files, file system) to the value its promise settles with;
      an exception is an explicit outcome. *)

From Stdlib Require Import ZArith String Ascii List Lia Bool.
From Stdlib Require Import Floats.SpecFloat.
From Stdlib Require Import Sorting.Permutation Sorting.Sorted.
From stdpp Require Import gmap strings list fin_maps pretty.

Local Open Scope Z_scope.

(** ** Part I. Definitions *)

(** *** Strings of the language *)

Definition is_upper (c : ascii) : bool :=
  (65 <=? nat_of_ascii c)%nat && (nat_of_ascii c <=? 90)%nat.

Definition is_lower (c : ascii) : bool :=
  (97 <=? nat_of_ascii c)%nat && (nat_of_ascii c <=? 122)%nat.

Definition upper_char (c : ascii) : ascii :=
  if is_lower c then ascii_of_nat (nat_of_ascii c - 32) else c.

Definition lower_char (c : ascii) : ascii :=
  if is_upper c then ascii_of_nat (nat_of_ascii c + 32) else c.

Fixpoint map_string (f : ascii -> ascii) (s : string) : string :=
  match s with
  | EmptyString => EmptyString
  | String c s' => String (f c) (map_string f s')
  end.

(** [s.toUpperCase()] and [s.toLowerCase()]. *)
Definition toUpperCase : string -> string := map_string upper_char.
Definition toLowerCase : string -> string := map_string lower_char.

(** [s.trim()]: the blanks of the language below code 128. *)
Fixpoint trimStart (s : string) : string :=
  match s with
  | EmptyString => EmptyString
  | String c s' => if Ascii.is_space c then trimStart s' else s
  end.

Fixpoint trimEnd (s : string) : string :=
  match s with
  | EmptyString => EmptyString
  | String c s' =>
      match trimEnd s' with
      | EmptyString => if Ascii.is_space c then EmptyString else String c EmptyString
      | t => String c t
      end
  end.

Definition trim (s : string) : string := trimEnd (trimStart s).

(** [s.split(sep)] for a one-character separator: never the empty list. *)
Fixpoint split (sep : ascii) (s : string) : list string :=
  match s with
  | EmptyString => [EmptyString]
  | String c s' =>
      if Ascii.eqb c sep then EmptyString :: split sep s'
      else match split sep s' with
           | [] => [String c EmptyString]
           | w :: ws => String c w :: ws
           end
  end.

(** [s.startsWith(p)], [s.includes(p)], [s.endsWith(p)]. *)
Definition startsWith (s p : string) : bool := String.prefix p s.

Fixpoint includes (s p : string) : bool :=
  String.prefix p s ||
  match s with
  | EmptyString => false
  | String _ s' => includes s' p
  end.

Definition endsWith (s p : string) : bool :=
  String.prefix (String.rev p) (String.rev s).

(** [s.substring(i, j)] for [i <= j]. *)
Definition substring_js (i j : nat) (s : string) : string :=
  String.substring i (j - i) s.

(** A string is truthy when it is not empty. *)
Definition nonempty (s : string) : bool :=
  match s with EmptyString => false | _ => true end.

(** *** Numbers of the language *)

Definition number : Type := spec_float.

Definition prec : Z := 53.
Definition emax : Z := 1024.

(** The number an integer literal or an integer-valued result denotes. *)
Definition num_of_Z (z : Z) : number := binary_normalize prec emax z 0 false.

Definition js_lt (a b : number) : bool := SFltb a b.
Definition js_gt (a b : number) : bool := SFltb b a.
Definition js_le (a b : number) : bool := SFleb a b.
Definition js_ge (a b : number) : bool := SFleb b a.

(** A number is truthy unless it is a zero or NaN. *)
Definition truthy_num (x : number) : bool :=
  match x with
  | S754_zero _ | S754_nan => false
  | _ => true
  end.

(** [x || 0] on a number. *)
Definition or_zero (x : number) : number :=
  if truthy_num x then x else S754_zero false.

(** **** [parseFloat] *)

Definition is_digit (c : ascii) : bool :=
  (48 <=? nat_of_ascii c)%nat && (nat_of_ascii c <=? 57)%nat.

Definition digit_val (c : ascii) : Z := Z.of_nat (nat_of_ascii c) - 48.

(** The longest prefix of decimal digits and what follows it. *)
Fixpoint span_digits (s : string) : string * string :=
  match s with
  | EmptyString => (EmptyString, EmptyString)
  | String c s' =>
      if is_digit c
      then let '(d, r) := span_digits s' in (String c d, r)
      else (EmptyString, s)
  end.

Fixpoint digits_value (acc : Z) (ds : string) : Z :=
  match ds with
  | EmptyString => acc
  | String c ds' => digits_value (10 * acc + digit_val c) ds'
  end.

Definition read_sign (s : string) : bool * string :=
  match s with
  | String "-"%char r => (true, r)
  | String "+"%char r => (false, r)
  | _ => (false, s)
  end.

(** The binary64 value nearest to [m * 10 ^ e], ties to even, for a
    mantissa [m >= 0]. *)
Definition decimal_to_number (neg : bool) (m e : Z) : number :=
  match m with
  | Z0 => S754_zero neg
  | Zpos p =>
      if 0 <=? e
      then binary_round prec emax neg (p * Z.to_pos (10 ^ e)) 0
      else let '(q, e', l) := SFdiv_core_binary prec emax m 0 (10 ^ (- e)) 0 in
           binary_round_aux prec emax neg q e' l
  | Zneg _ => S754_nan
  end.

(** The exponent part [e±ddd], read only when it is complete. *)
Definition read_exponent (s : string) : Z :=
  match s with
  | String c r =>
      if Ascii.eqb c "e"%char || Ascii.eqb c "E"%char
      then let '(eneg, r1) := read_sign r in
           let '(ed, _) := span_digits r1 in
           match ed with
           | EmptyString => 0
           | _ => if eneg then - digits_value 0 ed else digits_value 0 ed
           end
      else 0
  | EmptyString => 0
  end.

(** [parseFloat(s)]: the longest prefix of the trimmed input that is a
    decimal literal; NaN when there is none. *)
Definition parseFloat (input : string) : number :=
  let '(neg, s1) := read_sign (trimStart input) in
  if String.prefix "Infinity" s1 then S754_infinity neg
  else
    let '(ip, s2) := span_digits s1 in
    let '(fp, s3) :=
      match s2 with
      | String "."%char r => span_digits r
      | _ => (EmptyString, s2)
      end in
    if nonempty ip || nonempty fp
    then decimal_to_number neg (digits_value 0 (ip +:+ fp))
                           (read_exponent s3 - Z.of_nat (String.length fp))
    else S754_nan.

(** *** Values of the language that the artifacts hold *)

Inductive value : Type :=
| VUndef
| VNull
| VNum (x : number)
| VStr (s : string).

Definition truthy (v : value) : bool :=
  match v with
  | VUndef | VNull => false
  | VNum x => truthy_num x
  | VStr s => nonempty s
  end.

(** [a || b]. *)
Definition js_or (a b : value) : value := if truthy a then a else b.

(** A property read [o.k] of an object probed at run time. *)
Definition prop_get (o : gmap string value) (k : string) : value :=
  default VUndef (o !! k).

(** *** RecordParser *)

(** The object that [parsePropertyLine] builds: one field per key of the
    object literal, then the four derived keys. [saleDate] is a string or
    [null]. *)
Record property : Type := {
  recordType : string;
  districtCode : string;
  propertyId : string;
  saleCounter : string;
  downloadDateTime : string;
  propertyName : string;
  unitNumber : string;
  houseNumber : string;
  streetName : string;
  locality : string;
  postcode : string;
  area : number;
  areaType : string;
  contractDate : string;
  settlementDate : string;
  salePrice : number;
  zoning : string;
  natureOfProperty : string;
  primaryPurpose : string;
  strataLot : string;
  year : number;
  address : string;
  suburb : string;
  propertyType : string;
  saleDate : option string
}.

(** [fields[i]] once [fields.length >= 20] has been checked and [i < 20];
    with or without [|| ''] the result is the string at that index. *)
Definition field (fields : list string) (i : nat) : string :=
  default EmptyString (fields !! i).

(** [parseInt(year)] on the year of the enclosing archive, which
    [extractYear] hands over as an integer. *)
Definition parseInt_year (y : Z) : number := num_of_Z y.

Definition determinePropertyType (nature purpose : string) : string :=
  if String.eqb nature "V" then "Vacant Land"
  else if String.eqb nature "R" then "Residence"
  else if nonempty purpose && includes purpose "RESIDENCE" then "House"
  else if nonempty purpose && includes purpose "UNIT" then "Unit"
  else if nonempty purpose && includes purpose "TOWNHOUSE" then "Townhouse"
  else if String.eqb nature "3" && nonempty purpose then purpose
  else "Property".

Definition formatDate (dateStr : string) : option string :=
  if negb (nonempty dateStr) || negb (String.length dateStr =? 8)%nat then None
  else
    let year := substring_js 0 4 dateStr in
    let month := substring_js 4 6 dateStr in
    let day := substring_js 6 8 dateStr in
    Some (year +:+ "-" +:+ month +:+ "-" +:+ day).

(** The full address: unit, house number and street, as the three
    conditional appends build it. *)
Definition fullAddress (unit house street : string) : string :=
  let a0 := EmptyString in
  let a1 := if nonempty unit then a0 +:+ unit +:+ "/" else a0 in
  let a2 := if nonempty house then a1 +:+ house +:+ " " else a1 in
  if nonempty street then a2 +:+ street else a2.

(** The validity test at the end of [parsePropertyLine]. *)
Definition valid_price (p : number) : bool :=
  js_gt p (num_of_Z 1000) && js_lt p (num_of_Z 50000000).

Definition parsePropertyLine (line : string) (yr : Z) : option property :=
  let fields := split ";" line in
  if (length fields <? 20)%nat then None
  else
    let unit := field fields 6 in
    let house := field fields 7 in
    let street := field fields 8 in
    let loc := field fields 9 in
    let nature := field fields 17 in
    let purpose := field fields 18 in
    let settlement := field fields 14 in
    let p := {|
      recordType := field fields 0;
      districtCode := field fields 1;
      propertyId := field fields 2;
      saleCounter := field fields 3;
      downloadDateTime := field fields 4;
      propertyName := field fields 5;
      unitNumber := unit;
      houseNumber := house;
      streetName := street;
      locality := loc;
      postcode := field fields 10;
      area := or_zero (parseFloat (field fields 11));
      areaType := field fields 12;
      contractDate := field fields 13;
      settlementDate := settlement;
      salePrice := or_zero (parseFloat (field fields 15));
      zoning := field fields 16;
      natureOfProperty := nature;
      primaryPurpose := purpose;
      strataLot := field fields 19;
      year := parseInt_year yr;
      address := toUpperCase (trim (fullAddress unit house street));
      suburb := toUpperCase loc;
      propertyType := determinePropertyType nature purpose;
      saleDate := formatDate settlement
    |} in
    if nonempty (address p) && nonempty (suburb p) && valid_price (salePrice p)
    then Some p
    else None.

(** [parseDATContentOptimized]: the lines of a file that are not blank,
    of which those starting with [B;] go through the parser; a parsed
    record is kept when its address is not empty and its price is
    positive. *)
Definition keep_parsed (o : option property) : list property :=
  match o with
  | Some p =>
      if nonempty (address p) && js_gt (salePrice p) (S754_zero false)
      then [p] else []
  | None => []
  end.

Definition parseDATContentOptimized (content : string) (yr : Z) : list property :=
  let lines := filter (fun l => nonempty (trim l) = true) (split "010" content) in
  flat_map (fun line =>
              if startsWith line "B;" then keep_parsed (parsePropertyLine line yr)
              else [])
           lines.

(** *** The compact encoding of chunk entries *)

Definition date_value (d : option string) : value :=
  match d with
  | Some s => VStr s
  | None => VNull
  end.

Definition compressProperty (prop : property) : gmap string value :=
  list_to_map [
    ("a", VStr (address prop));
    ("s", VStr (suburb prop));
    ("p", VStr (postcode prop));
    ("t", VStr (propertyType prop));
    ("$", VNum (salePrice prop));
    ("d", date_value (saleDate prop));
    ("l", VStr (districtCode prop));
    ("m", VNum (area prop));
    ("y", VNum (year prop));
    ("z", VStr (zoning prop));
    ("n", VStr (natureOfProperty prop))
  ].

Definition decompressProperty (comp : gmap string value) : gmap string value :=
  let zero := VNum (S754_zero false) in
  let empty := VStr EmptyString in
  list_to_map [
    ("address", js_or (js_or (prop_get comp "a") (prop_get comp "address")) empty);
    ("suburb", js_or (js_or (prop_get comp "s") (prop_get comp "suburb")) empty);
    ("postcode", js_or (js_or (prop_get comp "p") (prop_get comp "postcode")) empty);
    ("propertyType", js_or (js_or (prop_get comp "t") (prop_get comp "propertyType")) empty);
    ("salePrice", js_or (js_or (prop_get comp "$") (prop_get comp "salePrice")) zero);
    ("saleDate", js_or (js_or (prop_get comp "d") (prop_get comp "saleDate")) empty);
    ("districtCode", js_or (js_or (prop_get comp "l") (prop_get comp "districtCode")) empty);
    ("area", js_or (js_or (prop_get comp "m") (prop_get comp "area")) zero);
    ("year", js_or (js_or (prop_get comp "y") (prop_get comp "year")) zero);
    ("zoning", js_or (js_or (prop_get comp "z") (prop_get comp "zoning")) empty);
    ("natureOfProperty", js_or (js_or (prop_get comp "n") (prop_get comp "natureOfProperty")) empty)
  ].

(** The value each of the eleven keys of the expanded shape has in a
    parsed record. *)
Definition expanded (prop : property) : gmap string value :=
  list_to_map [
    ("address", VStr (address prop));
    ("suburb", VStr (suburb prop));
    ("postcode", VStr (postcode prop));
    ("propertyType", VStr (propertyType prop));
    ("salePrice", VNum (salePrice prop));
    ("saleDate", date_value (saleDate prop));
    ("districtCode", VStr (districtCode prop));
    ("area", VNum (area prop));
    ("year", VNum (year prop));
    ("zoning", VStr (zoning prop));
    ("natureOfProperty", VStr (natureOfProperty prop))
  ].

(** *** ArchiveScanner *)

(** An opened archive is the list of its entries. An entry has its name,
    its directory flag, its bytes, and what [new AdmZip(entry.getData())]
    gives on those bytes: an archive, or [None] when the constructor
    throws. Nesting is a finite tree. *)
Inductive archive : Type :=
| Archive (entries : list entry)
with entry : Type :=
| Entry (entryName : string) (isDirectory : bool) (data : string)
        (opened : option archive).


Definition entryName (e : entry) : string :=
  match e with Entry n _ _ _ => n end.

Definition isDirectory (e : entry) : bool :=
  match e with Entry _ d _ _ => d end.

Definition getData (e : entry) : string :=
  match e with Entry _ _ d _ => d end.

Definition opened (e : entry) : option archive :=
  match e with Entry _ _ _ o => o end.



(** [findDATFilesRecursively]: [datFiles] is threaded through the
    [forEach]; a nested archive that does not open leaves it as it is. *)
Fixpoint findDATFilesRecursively (zip : archive) : list entry :=
  match zip with
  | Archive entries =>
      fold_left
        (fun datFiles e =>
           match e with
           | Entry name dir _ nested =>
               let entryName := toLowerCase name in
               let datFiles1 :=
                 if negb dir && endsWith entryName ".dat"
                 then datFiles ++ [e] else datFiles in
               if negb dir && endsWith entryName ".zip"
               then match nested with
                    | Some nestedZip =>
                        datFiles1 ++ findDATFilesRecursively nestedZip
                    | None => datFiles1
                    end
               else datFiles1
           end)
        entries []
  end.




(** *** Objects whose keys are enumerated *)

(** The own properties of an object in creation order; keys are distinct. *)
Definition jsobject (V : Type) : Type := list (string * V).

Fixpoint obj_get {V : Type} (o : jsobject V) (k : string) : option V :=
  match o with
  | [] => None
  | (k', v) :: o' => if String.eqb k' k then Some v else obj_get o' k
  end.

(** [o[k] = v]: an existing key keeps its place, a new one goes last. *)
Fixpoint obj_set {V : Type} (o : jsobject V) (k : string) (v : V) : jsobject V :=
  match o with
  | [] => [(k, v)]
  | (k', v') :: o' =>
      if String.eqb k' k then (k', v) :: o' else (k', v') :: obj_set o' k v
  end.

Fixpoint all_digits (s : string) : bool :=
  match s with
  | EmptyString => true
  | String c s' => is_digit c && all_digits s'
  end.

(** A key that is an array index: the canonical decimal form of an
    integer below [2^32 - 1]. *)
Definition array_index (k : string) : option N :=
  if nonempty k && all_digits k
  then let n := Z.to_N (digits_value 0 k) in
       if (n <? 4294967295)%N && String.eqb (pretty n) k then Some n else None
  else None.

(** *** [Array.prototype.sort]: the stable sort *)

Section StableSort.
Context {A : Type}.
(** [lt a b]: the comparator puts [a] strictly before [b]. *)
Variable lt : A -> A -> bool.

Fixpoint insert_sorted (x : A) (l : list A) : list A :=
  match l with
  | [] => [x]
  | y :: l' => if lt y x then y :: insert_sorted x l' else x :: y :: l'
  end.

Fixpoint sort_stable (l : list A) : list A :=
  match l with
  | [] => []
  | x :: l' => insert_sorted x (sort_stable l')
  end.
End StableSort.

(** [arr.sort(cmp)] for a comparator whose result is an integer. For a
    consistent comparator the language fixes the result, which is the
    stable sort computed here. For a comparator that is not consistent
    the language leaves the order to the engine; nothing below states an
    order in that case beyond its being a rearrangement. *)
Definition Array_sort {A : Type} (cmp : A -> A -> Z) (l : list A) : list A :=
  sort_stable (fun a b => cmp a b <? 0) l.

(** [Object.entries(o)] and [Object.keys(o)]: the array indices in
    ascending order, then the other keys in creation order. *)
Definition index_entries {V : Type} (o : jsobject V) : list (N * (string * V)) :=
  omap (fun kv => (fun n => (n, kv)) <$> array_index (fst kv)) o.

Definition Object_entries {V : Type} (o : jsobject V) : jsobject V :=
  map snd (sort_stable (fun a b => (fst a <? fst b)%N) (index_entries o))
  ++ filter (fun kv => array_index (fst kv) = None) o.

Definition Object_keys {V : Type} (o : jsobject V) : list string :=
  map fst (Object_entries o).

(** [arr.slice(i, j)] for [0 <= i <= j]. *)
Definition slice {A : Type} (i j : nat) (l : list A) : list A :=
  firstn (j - i) (skipn i l).

(** *** What a plain object inherits *)

(** The property names of [Object.prototype]. A plain object answers to
    each of them although it is no key of its own, and the value is
    truthy: a function, and under [__proto__] the prototype itself. *)
Definition Object_prototype_names : list string :=
  ["constructor"; "__defineGetter__"; "__defineSetter__"; "hasOwnProperty";
   "__lookupGetter__"; "__lookupSetter__"; "isPrototypeOf";
   "propertyIsEnumerable"; "toString"; "valueOf"; "__proto__";
   "toLocaleString"].

Definition inherited_name (k : string) : bool :=
  existsb (String.eqb k) Object_prototype_names.

(** The counters that the program itself has put on these objects, which
    last as long as the process: by the name under which a plain object
    reaches the object ([__proto__] for the prototype, [constructor] for
    the function [Object], and so on), the year counters that are the
    object's own. They are its only enumerable keys. *)
Definition realm : Type := jsobject (jsobject nat).

(** The counters on [Object.prototype], which every object inherits. *)
Definition on_prototype (r : realm) : jsobject nat :=
  default [] (obj_get r "__proto__").

(** What [o[k]] is for a plain object [o] that has no key [k] of its own:
    a member of the prototype, a counter put on the prototype, or
    [undefined]. *)
Inductive inherited_value : Type :=
| IMember (name : string)
| ICounter (n : nat).

Definition inherit (r : realm) (k : string) : option inherited_value :=
  if inherited_name k then Some (IMember k)
  else ICounter <$> obj_get (on_prototype r) k.

Definition truthy_inherited (r : realm) (k : string) : bool :=
  match inherit r k with
  | Some (IMember _) => true
  | Some (ICounter n) => negb (n =? 0)%nat
  | None => false
  end.

(** What a call settles with: a value, or an exception. *)
Inductive outcome (A : Type) : Type :=
| Return (a : A)
| Throw (msg : string).
Arguments Return {A} a.
Arguments Throw {A} msg.

(** *** Configuration *)

Record user_config : Type := {
  cfg_githubUser : option string;
  cfg_githubRepo : option string;
  cfg_githubBranch : option string;
  cfg_outputPath : option string;
  cfg_recordsPerChunk : option nat
}.

Record config : Type := {
  githubUser : string;
  githubRepo : string;
  githubBranch : string;
  outputPath : string;
  recordsPerChunk : nat
}.

(** [x || d] on an optional string and on an optional count. *)
Definition or_string (x : option string) (d : string) : string :=
  match x with
  | Some s => if nonempty s then s else d
  | None => d
  end.

Definition or_nat (x : option nat) (d : nat) : nat :=
  match x with
  | Some O | None => d
  | Some n => n
  end.

(** The settings that [constructor(config = {})] computes. *)
Definition make_config (c : user_config) : config := {|
  githubUser := or_string (cfg_githubUser c) "your-username";
  githubRepo := or_string (cfg_githubRepo c) "nsw-property-data";
  githubBranch := or_string (cfg_githubBranch c) "main";
  outputPath := or_string (cfg_outputPath c) "./processed-data";
  recordsPerChunk := or_nat (cfg_recordsPerChunk c) 5000
|}.

(** *** Artifacts *)

Record chunkData : Type := {
  chunk_year : number;
  chunk_chunkId : string;
  chunk_count : nat;
  chunk_properties : list (gmap string value)
}.

Record chunkInfo : Type := {
  info_filename : string;
  info_count : nat;
  info_size : nat
}.

Record manifest : Type := {
  manifest_year : number;
  manifest_totalProperties : nat;
  manifest_chunks : list chunkInfo;
  manifest_created : string
}.

Record addressFile : Type := {
  file_address : string;
  file_count : nat;
  file_properties : list (gmap string value)
}.

(** The master index: lowercased address, then year, then count. *)
Definition MasterIndex : Type := jsobject (jsobject nat).

(** What a file holds once it is read back and parsed. [AFalsy] is a
    document that parses to a falsy value ([null], [false], [0], [""]). *)
Inductive artifact : Type :=
| AChunk (c : chunkData)
| AManifest (m : manifest)
| AAddressFile (a : addressFile)
| AIndex (idx : MasterIndex)
| AFalsy.

(** What [JSON.parse(JSON.stringify(v))] makes of a property value: a
    number that is not finite becomes [null], the sign of a zero is lost,
    an undefined property is dropped. *)
Definition json_value (v : value) : option value :=
  match v with
  | VUndef => None
  | VNull => Some VNull
  | VStr s => Some (VStr s)
  | VNum (S754_finite s m e) => Some (VNum (S754_finite s m e))
  | VNum (S754_zero _) => Some (VNum (S754_zero false))
  | VNum _ => Some VNull
  end.

Definition json_object (o : gmap string value) : gmap string value :=
  omap json_value o.

(** The counters of [this.stats]. *)
Record stats : Type := {
  totalProperties : nat;
  yearsProcessed : list Z;
  githubFiles : nat;
  dataSize : nat
}.

(** The state of the batch process: the files below [outputPath], by
    their path relative to it, the counters, and the counters on the
    objects that plain objects inherit from. *)
Record world : Type := {
  files : gmap string artifact;
  counters : stats;
  prototypes : realm
}.

Definition writeFile (path : string) (a : artifact) (w : world) : world :=
  {| files := <[path := a]> (files w); counters := counters w;
     prototypes := prototypes w |}.

Definition path_join (a b : string) : string := a +:+ "/" +:+ b.

(** *** The address hash *)

Definition b64_alphabet : string :=
  "ABCDEFGHIJKLMNOPQRSTUVWXYZabcdefghijklmnopqrstuvwxyz0123456789+/".

Definition b64_char (n : N) : ascii :=
  default "="%char (String.get (N.to_nat n) b64_alphabet).

(** [buf.toString('base64')]. *)
Fixpoint base64 (bytes : list N) : string :=
  match bytes with
  | [] => EmptyString
  | [a] =>
      String (b64_char (N.shiftr a 2))
        (String (b64_char (N.shiftl (N.land a 3) 4)) "==")
  | [a; b] =>
      String (b64_char (N.shiftr a 2))
        (String (b64_char (N.lor (N.shiftl (N.land a 3) 4) (N.shiftr b 4)))
           (String (b64_char (N.shiftl (N.land b 15) 2)) "="))
  | a :: b :: c :: rest =>
      String (b64_char (N.shiftr a 2))
        (String (b64_char (N.lor (N.shiftl (N.land a 3) 4) (N.shiftr b 4)))
           (String (b64_char (N.lor (N.shiftl (N.land b 15) 2) (N.shiftr c 6)))
              (String (b64_char (N.land c 63)) (base64 rest))))
  end.

(** [Buffer.from(s)] on ASCII text: one byte per character. *)
Fixpoint Buffer_from (s : string) : list N :=
  match s with
  | EmptyString => []
  | String c s' => N_of_ascii c :: Buffer_from s'
  end.

(** [s.replace(/[/+=]/g, '')]. *)
Fixpoint strip_b64 (s : string) : string :=
  match s with
  | EmptyString => EmptyString
  | String c s' =>
      if Ascii.eqb c "/" || Ascii.eqb c "+" || Ascii.eqb c "="
      then strip_b64 s' else String c (strip_b64 s')
  end.

Definition hashAddress (address : string) : string :=
  String.substring 0 12 (strip_b64 (base64 (Buffer_from address))).

(** *** ChunkWriter *)

(** [s.padStart(3, '0')]. *)
Definition padStart3 (s : string) : string :=
  match String.length s with
  | 0%nat => "000"
  | 1%nat => "00" +:+ s
  | 2%nat => "0" +:+ s
  | _ => s
  end.

Section ChunkWriter.
(** [a.localeCompare(b)]: the collation of the host, as an integer. *)
Variable localeCompare : string -> string -> Z.
(** The size in bytes of the file a chunk is written to. *)
Variable byteSize : chunkData -> nat.
(** [new Date().toISOString()] when the manifest is made. *)
Variable now : string.
Variable cfg : config.

(** [properties.sort((a, b) => a.address.localeCompare(b.address))]. *)
Definition sort_by_address (properties : list property) : list property :=
  Array_sort (fun a b => localeCompare (address a) (address b)) properties.

Definition chunk_filename (yr : Z) (chunkId : string) : string :=
  "properties-" +:+ pretty yr +:+ "-" +:+ chunkId +:+ ".json".

(** The body of the loop for one page: the document of the page, its
    line in the manifest, and the state after the write. *)
Definition chunk_id (i chunkSize : nat) : string :=
  padStart3 (pretty (Z.of_nat (i / chunkSize))).

Definition make_chunk (yr : Z) (chunkId : string)
    (chunkProperties : list property) : chunkData := {|
  chunk_year := parseInt_year yr;
  chunk_chunkId := chunkId;
  chunk_count := length chunkProperties;
  chunk_properties :=
    map (fun p => json_object (compressProperty p)) chunkProperties
|}.

Definition chunk_info (yr : Z) (chunkId : string)
    (chunkProperties : list property) : chunkInfo := {|
  info_filename := chunk_filename yr chunkId;
  info_count := length chunkProperties;
  info_size := byteSize (make_chunk yr chunkId chunkProperties)
|}.

Definition write_chunk (yr : Z) (chunkId : string)
    (chunkProperties : list property) (w : world) : world :=
  let chunkData := make_chunk yr chunkId chunkProperties in
  let w1 := writeFile (path_join (pretty yr) (chunk_filename yr chunkId))
                      (AChunk chunkData) w in
  {| files := files w1;
     counters := {|
       totalProperties := totalProperties (counters w1);
       yearsProcessed := yearsProcessed (counters w1);
       githubFiles := S (githubFiles (counters w1));
       dataSize := (dataSize (counters w1) + byteSize chunkData)%nat
     |};
     prototypes := prototypes w1
  |}.

(** The [for (let i = 0; i < properties.length; i += chunkSize)] loop;
    [None] when the fuel runs out before the loop ends. *)
Fixpoint chunk_loop (fuel : nat) (yr : Z) (properties : list property)
    (chunkSize i : nat) (chunks : list chunkInfo) (w : world)
    : option (list chunkInfo * world) :=
  match fuel with
  | O => None
  | S fuel' =>
      if (i <? length properties)%nat then
        let chunkProperties := slice i (i + chunkSize) properties in
        let chunkId := chunk_id i chunkSize in
        let w' := write_chunk yr chunkId chunkProperties w in
        chunk_loop fuel' yr properties chunkSize (i + chunkSize)%nat
                   (chunks ++ [chunk_info yr chunkId chunkProperties]) w'
      else Some (chunks, w)
  end.

(** [createAddressFiles]: group by lowercased address, then one file
    for each group of more than one record.

    The body of the [forEach]. [addressGroups] is a plain object: for a
    key that is not its own, [addressGroups[addr]] is what it inherits,
    and when that is truthy no array is made and [push], which such a
    value does not have, is called: the TypeError is [None]. *)
Definition group_address (r : realm) (addressGroups : jsobject (list property))
    (prop : property) : option (jsobject (list property)) :=
  let addr := toLowerCase (address prop) in
  match obj_get addressGroups addr with
  | Some group => Some (obj_set addressGroups addr (group ++ [prop]))
  | None =>
      if truthy_inherited r addr then None
      else Some (obj_set addressGroups addr [prop])
  end.

Definition group_by_address (r : realm) (properties : list property)
    : option (jsobject (list property)) :=
  fold_left
    (fun addressGroups prop =>
       match addressGroups with
       | Some groups => group_address r groups prop
       | None => None
       end)
    properties (Some []).

Definition address_path (yr : string) (address : string) : string :=
  path_join (path_join yr "addresses") (hashAddress address +:+ ".json").

(** The loop over [Object.entries(addressGroups)]. *)
Definition write_address_files (yr : Z) (addressGroups : jsobject (list property))
    (w : world) : world :=
  fold_left
    (fun w' '(addressKey, addressProps) =>
       if (1 <? length addressProps)%nat then
         writeFile (address_path (pretty yr) addressKey)
           (AAddressFile {|
              file_address :=
                match addressProps with
                | p :: _ => address p
                | [] => EmptyString
                end;
              file_count := length addressProps;
              file_properties :=
                map (fun p => json_object (compressProperty p)) addressProps
            |})
           w'
       else w')
    (Object_entries addressGroups) w.

(** The grouping comes first: when it throws, no address file of the year
    is written. *)
Definition createAddressFiles (yr : Z) (properties : list property)
    (w : world) : outcome unit * world :=
  match group_by_address (prototypes w) properties with
  | Some addressGroups => (Return tt, write_address_files yr addressGroups w)
  | None => (Throw "TypeError", w)
  end.

(** The manifest of a year. *)
Definition make_manifest (yr : Z) (properties : list property)
    (chunks : list chunkInfo) : manifest := {|
  manifest_year := parseInt_year yr;
  manifest_totalProperties := length properties;
  manifest_chunks := chunks;
  manifest_created := now
|}.

(** [createOptimizedChunks]: sort, write the pages, the manifest and the
    address files. The result is what the promise settles with and the
    new state: the promise is rejected when [createAddressFiles] throws,
    which is after the pages and the manifest are written; when it is
    fulfilled the result is the array of the caller, sorted in place.
    [None] is a loop over the pages that does not end. *)
Definition createOptimizedChunks (yr : Z) (properties : list property)
    (w : world) : option (outcome (list property) * world) :=
  let sorted := sort_by_address properties in
  let chunkSize := recordsPerChunk cfg in
  match chunk_loop (S (length sorted)) yr sorted chunkSize 0 [] w with
  | None => None
  | Some (chunks, w1) =>
      let manifest := make_manifest yr sorted chunks in
      let w2 := writeFile (path_join (pretty yr) "manifest.json")
                          (AManifest manifest) w1 in
      match createAddressFiles yr sorted w2 with
      | (Return _, w3) => Some (Return sorted, w3)
      | (Throw msg, w3) => Some (Throw msg, w3)
      end
  end.
End ChunkWriter.

(** The pages a list is cut into, as the contract of the chunk writer
    words it: consecutive pages of up to [size] records, numbered from 0. *)
Definition page_count (n size : nat) : nat := ((n + size - 1) / size)%nat.

Definition spec_pages {A : Type} (size : nat) (l : list A) : list (nat * list A) :=
  map (fun k => (k, slice (k * size) (k * size + size) l))
      (seq 0 (page_count (length l) size)).

(** *** IndexBuilder *)

(** [(prop.a || prop.address || '').toLowerCase()]; [None] when the value
    is not a string and the method call throws. *)
Definition entry_address (prop : gmap string value) : option string :=
  match js_or (js_or (prop_get prop "a") (prop_get prop "address")) (VStr EmptyString) with
  | VStr s => Some (toLowerCase s)
  | _ => None
  end.

(** [if (!o[year]) o[year] = 0; o[year]++] on an object [o]: the counter
    that is [o]'s own afterwards, from its own counter before and from
    what it inherits under that key. A year key is a numeral, so that no
    name of a prototype comes into it. *)
Definition bump (own above : option nat) : nat :=
  match own, above with
  | Some n, _ => S n
  | None, Some m => S m
  | None, None => 1
  end.

(** The body of the [forEach] over the entries of a chunk, in strict mode
    as all code of a class is. [masterIndex] is a plain object. For an
    address that is a key of its own the count goes to its entry. For
    another address, [masterIndex[addr]] is what the index inherits: a
    member of the prototype is truthy, so that no entry is made and the
    count goes to that member, an object shared by the whole process; a
    counter put on the prototype is a number, on which no property can
    be written, and the TypeError is [None]; otherwise the entry is made.
    A new entry is a plain object in turn and inherits the counters on
    the prototype. *)
Definition count_entry (yr : Z) (masterIndex : MasterIndex) (r : realm)
    (addr : string) : option (MasterIndex * realm) :=
  if negb (nonempty addr) then Some (masterIndex, r)
  else
    let key := pretty yr in
    let above := obj_get (on_prototype r) key in
    match obj_get masterIndex addr with
    | Some byYear =>
        Some (obj_set masterIndex addr
                (obj_set byYear key (bump (obj_get byYear key) above)), r)
    | None =>
        match inherit r addr with
        | Some (IMember name) =>
            let member := default [] (obj_get r name) in
            let above' := if String.eqb name "__proto__" then None else above in
            Some (masterIndex,
                  obj_set r name
                    (obj_set member key (bump (obj_get member key) above')))
        | Some (ICounter (S _)) => None
        | Some (ICounter O) | None =>
            Some (obj_set masterIndex addr (obj_set [] key (bump None above)), r)
        end
    end.

(** The entries of one chunk; the flag tells whether an entry threw, in
    which case the counts made so far stay. *)
Fixpoint count_entries (yr : Z) (props : list (gmap string value))
    (masterIndex : MasterIndex) (r : realm) : MasterIndex * realm * bool :=
  match props with
  | [] => (masterIndex, r, true)
  | prop :: props' =>
      match entry_address prop with
      | Some addr =>
          match count_entry yr masterIndex r addr with
          | Some (masterIndex', r') => count_entries yr props' masterIndex' r'
          | None => (masterIndex, r, false)
          end
      | None => (masterIndex, r, false)
      end
  end.

(** The chunks of one manifest; a chunk that cannot be read throws. *)
Fixpoint count_chunks (fs : gmap string artifact) (yr : Z)
    (chunks : list chunkInfo) (masterIndex : MasterIndex) (r : realm)
    : MasterIndex * realm * bool :=
  match chunks with
  | [] => (masterIndex, r, true)
  | chunk :: chunks' =>
      match fs !! path_join (pretty yr) (info_filename chunk) with
      | Some (AChunk chunkData) =>
          let '(masterIndex', r', ok) :=
            count_entries yr (chunk_properties chunkData) masterIndex r in
          if ok then count_chunks fs yr chunks' masterIndex' r'
          else (masterIndex', r', false)
      | _ => (masterIndex, r, false)
      end
  end.

(** One turn of the loop over the years, with its [try]/[catch]. *)
Definition count_year (fs : gmap string artifact) (st : MasterIndex * realm)
    (yr : Z) : MasterIndex * realm :=
  match fs !! path_join (pretty yr) "manifest.json" with
  | Some (AManifest manifest) =>
      fst (count_chunks fs yr (manifest_chunks manifest) (fst st) (snd st))
  | _ => st
  end.

Definition build_index (fs : gmap string artifact) (years : list Z) (r : realm)
    : MasterIndex * realm :=
  fold_left (count_year fs) years ([], r).

Definition createOptimizedIndices (w : world) : world :=
  let built := build_index (files w) (yearsProcessed (counters w)) (prototypes w) in
  {| files := <["master-address-index.json" := AIndex (fst built)]> (files w);
     counters := counters w;
     prototypes := snd built |}.


(** What the index is meant to hold. The entries of a year are those of
    the chunks that its manifest lists; a year is readable when its
    manifest and the chunks it lists can be read and the address of every
    entry is a string. *)
Definition chunk_entries (fs : gmap string artifact) (yr : Z) (chunk : chunkInfo)
    : list (gmap string value) :=
  match fs !! path_join (pretty yr) (info_filename chunk) with
  | Some (AChunk chunkData) => chunk_properties chunkData
  | _ => []
  end.

Definition year_entries (fs : gmap string artifact) (yr : Z)
    : list (gmap string value) :=
  match fs !! path_join (pretty yr) "manifest.json" with
  | Some (AManifest manifest) =>
      flat_map (chunk_entries fs yr) (manifest_chunks manifest)
  | _ => []
  end.

Definition readable_chunk (fs : gmap string artifact) (yr : Z) (chunk : chunkInfo)
    : Prop :=
  exists chunkData,
    fs !! path_join (pretty yr) (info_filename chunk) = Some (AChunk chunkData)
    /\ Forall (fun prop => is_Some (entry_address prop)) (chunk_properties chunkData).

Definition readable_year (fs : gmap string artifact) (yr : Z) : Prop :=
  exists manifest,
    fs !! path_join (pretty yr) "manifest.json" = Some (AManifest manifest)
    /\ Forall (readable_chunk fs yr) (manifest_chunks manifest).

(** The number of entries whose lowercased address is [addr]. *)
Definition count_address (addr : string) (entries : list (gmap string value)) : nat :=
  length (filter (fun prop => entry_address prop = Some addr) entries).

(** [masterIndex[addr][yr]], when both keys exist. *)
Definition index_count (masterIndex : MasterIndex) (addr : string) (yr : Z)
    : option nat :=
  obj_get masterIndex addr ≫= fun byYear => obj_get byYear (pretty yr).

(** The count that the index holds, zero when a key is missing. *)
Definition stored (idx : MasterIndex) (a : string) (y : Z) : nat :=
  default 0%nat (index_count idx a y).

(** No key of the index holds a zero. *)
Definition no_zero (idx : MasterIndex) : Prop :=
  forall a y, index_count idx a y <> Some 0%nat.

(** No key of the index is a name of the prototype. *)
Definition plain_keys (idx : MasterIndex) : Prop :=
  forall k, inherited_name k = true -> obj_get idx k = None.

(** An entry that the builder counts without writing on the prototype:
    its address is a string other than [__proto__]. *)
Definition countable (prop : gmap string value) : Prop :=
  exists a, entry_address prop = Some a /\ a <> "__proto__".

(** A chunk that can be read and whose entries are all of that kind. *)
Definition countable_chunk (fs : gmap string artifact) (yr : Z) (chunk : chunkInfo)
    : Prop :=
  exists chunkData,
    fs !! path_join (pretty yr) (info_filename chunk) = Some (AChunk chunkData)
    /\ Forall countable (chunk_properties chunkData).

(** *** Names of the address files *)

(** The characters of a string. *)
Fixpoint string_chars (s : string) : list ascii :=
  match s with
  | EmptyString => []
  | String c s' => c :: string_chars s'
  end.

Definition stripped (c : ascii) : Prop :=
  c = "/"%char \/ c = "+"%char \/ c = "="%char.

(** The groups of [createAddressFiles] when every lowercased address is a
    key of the object's own: the records of each address, in their order,
    under the addresses in the order in which they first occur. *)
Definition own_groups (properties : list property) : jsobject (list property) :=
  fold_left
    (fun addressGroups prop =>
       let addr := toLowerCase (address prop) in
       let group := default [] (obj_get addressGroups addr) in
       obj_set addressGroups addr (group ++ [prop]))
    properties [].

(** No record has an address for which a plain object inherits a truthy
    value. *)
Definition plain_addresses (r : realm) (properties : list property) : Prop :=
  Forall (fun p => truthy_inherited r (toLowerCase (address p)) = false) properties.

(** The file that the group of an address is written to. *)
Definition address_file (addressProps : list property) : addressFile := {|
  file_address := match addressProps with p :: _ => address p | [] => "" end;
  file_count := length addressProps;
  file_properties := map (fun p => json_object (compressProperty p)) addressProps
|}.

(** *** QueryService *)

(** The in-process cache. The one [Map] of the class holds four kinds of
    entries, told apart by the prefix of their key ([github_], [search_],
    [property_], [price_]); here each kind is a map of its own, keyed by
    what follows the prefix. *)
Record cache : Type := {
  github_ : gmap string artifact;
  search_ : gmap string (list (gmap string value));
  property_ : gmap string (list (gmap string value));
  price_ : gmap string (list (gmap string value))
}.

Definition empty_cache : cache :=
  {| github_ := ∅; search_ := ∅; property_ := ∅; price_ := ∅ |}.

(** A method of the read side: from the cache to an outcome and the cache
    it leaves. *)
Definition M (A : Type) : Type := cache -> outcome A * cache.

Definition ret {A : Type} (a : A) : M A := fun c => (Return a, c).

Definition throw {A : Type} (msg : string) : M A := fun c => (Throw msg, c).

Definition bind {A B : Type} (m : M A) (k : A -> M B) : M B :=
  fun c =>
    match m c with
    | (Return a, c') => k a c'
    | (Throw msg, c') => (Throw msg, c')
    end.

(** [try { m } catch (error) { h }]. *)
Definition try_catch {A : Type} (m : M A) (h : M A) : M A :=
  fun c =>
    match m c with
    | (Return a, c') => (Return a, c')
    | (Throw _, c') => h c'
    end.

Notation "'let*' x ':=' m 'in' k" := (bind m (fun x => k))
  (at level 10, x pattern, m at level 100, k at level 200).

(** What [https.get] reports for one URL. *)
Inductive http_outcome : Type :=
| NetworkError
| Response (statusCode : nat) (body : string).

(** A parsed document or [null] is truthy unless it is [null] or a falsy
    document. *)
Definition truthy_artifact (a : option artifact) : bool :=
  match a with
  | None | Some AFalsy => false
  | Some _ => true
  end.

(** [(p.a || p.address || '').toLowerCase() === address.toLowerCase()];
    the method call throws on a value that is not a string. *)
Definition same_address (address : string) (p : gmap string value) : M bool :=
  match entry_address p with
  | Some a => ret (String.eqb a (toLowerCase address))
  | None => throw "TypeError"
  end.

(** [arr.filter(f)] for a callback that may throw. *)
Fixpoint filterM {A : Type} (f : A -> M bool) (l : list A) : M (list A) :=
  match l with
  | [] => ret []
  | x :: l' =>
      let* b := f x in
      let* r := filterM f l' in
      ret (if b then x :: r else r)
  end.

(** [doc.properties] as an array, and [doc.chunks] as an array; reading
    them off a document of another shape makes the caller throw. *)
Definition properties_of (a : option artifact) : M (list (gmap string value)) :=
  match a with
  | Some (AChunk c) => ret (chunk_properties c)
  | Some (AAddressFile f) => ret (file_properties f)
  | _ => throw "TypeError"
  end.

Definition chunks_of (a : option artifact) : M (list chunkInfo) :=
  match a with
  | Some (AManifest m) => ret (manifest_chunks m)
  | _ => throw "TypeError"
  end.

(** The value of the longest prefix of hexadecimal digits; [None] when
    there is no digit. *)
Definition hex_digit (c : ascii) : option Z :=
  let n := Z.of_nat (nat_of_ascii c) in
  if (48 <=? n) && (n <=? 57) then Some (n - 48)
  else if (97 <=? n) && (n <=? 102) then Some (n - 87)
  else if (65 <=? n) && (n <=? 70) then Some (n - 55)
  else None.

Fixpoint hex_value (acc : option Z) (s : string) : option Z :=
  match s with
  | EmptyString => acc
  | String c s' =>
      match hex_digit c with
      | Some d => hex_value (Some (16 * default 0 acc + d)) s'
      | None => acc
      end
  end.

Section QueryService.
Variable cfg : config.
(** The remote store: what a GET of a URL reports. *)
Variable https_get : string -> http_outcome.
(** [JSON.parse]: [None] when it throws. *)
Variable JSON_parse : string -> option artifact.
(** The time value of [new Date(v)]; [None] for an invalid date. *)
Variable Date_time : value -> option Z.
(** The number a string converts to in a comparison or a difference. *)
Variable StringToNumber : string -> number.

Definition raw_url (filepath : string) : string :=
  "https://raw.githubusercontent.com/" +:+ githubUser cfg +:+ "/"
    +:+ githubRepo cfg +:+ "/" +:+ githubBranch cfg +:+ "/" +:+ filepath.

(** [fetchGitHubFile]: the promise resolves in every branch. *)
Definition fetchGitHubFile (filepath : string) : M (option artifact) :=
  fun c =>
    match github_ c !! filepath with
    | Some cached => (Return (Some cached), c)
    | None =>
        match https_get (raw_url filepath) with
        | NetworkError => (Return None, c)
        | Response statusCode body =>
            if negb (statusCode =? 200)%nat then (Return None, c)
            else match JSON_parse body with
                 | Some parsed =>
                     (Return (Some parsed),
                      {| github_ := <[filepath := parsed]> (github_ c);
                         search_ := search_ c;
                         property_ := property_ c;
                         price_ := price_ c |})
                 | None => (Return None, c)
                 end
        end
    end.

(** The fallback of [loadPropertiesForAddressYear]: the first chunks of
    the manifest, up to the first one with a match. *)
Fixpoint scan_chunks (yr address : string) (chunks : list chunkInfo)
    : M (list (gmap string value)) :=
  match chunks with
  | [] => ret []
  | chunk :: chunks' =>
      let* chunkData := fetchGitHubFile (path_join yr (info_filename chunk)) in
      if negb (truthy_artifact chunkData) then scan_chunks yr address chunks'
      else
        let* properties := properties_of chunkData in
        let* matches := filterM (same_address address) properties in
        if (0 <? length matches)%nat then ret (map decompressProperty matches)
        else scan_chunks yr address chunks'
  end.

Definition loadPropertiesForAddressYear (address yr : string)
    : M (list (gmap string value)) :=
  try_catch
    (let addressFile := address_path yr address in
     let* addressData := fetchGitHubFile addressFile in
     if truthy_artifact addressData then
       let* properties := properties_of addressData in
       let* matches := filterM (same_address address) properties in
       ret (map decompressProperty matches)
     else
       let* manifest := fetchGitHubFile (path_join yr "manifest.json") in
       if negb (truthy_artifact manifest) then ret []
       else
         let* chunks := chunks_of manifest in
         scan_chunks yr address (slice 0 3 chunks))
    (ret []).

(** [new Date(b.saleDate) - new Date(a.saleDate)]; the sort takes a NaN
    as a zero. *)
Definition by_date_desc (a b : gmap string value) : Z :=
  match Date_time (prop_get b "saleDate"), Date_time (prop_get a "saleDate") with
  | Some tb, Some ta => tb - ta
  | _, _ => 0
  end.

(** The loop over the years of one address, with its [break]. *)
Fixpoint search_years (address : string) (years : list string) (limit : nat)
    (results : list (gmap string value)) : M (list (gmap string value)) :=
  match years with
  | [] => ret results
  | yr :: years' =>
      let* step :=
        try_catch
          (let* properties := loadPropertiesForAddressYear address yr in
           ret (Some (results ++ properties)))
          (ret None) in
      match step with
      | Some results' =>
          if (limit * 2 <=? length results')%nat then ret results'
          else search_years address years' limit results'
      | None => search_years address years' limit results
      end
  end.

(** The loop over the matching addresses. *)
Fixpoint search_addresses (masterIndex : MasterIndex)
    (matchingAddresses : list string) (limit : nat)
    (results : list (gmap string value)) : M (list (gmap string value)) :=
  match matchingAddresses with
  | [] => ret results
  | address :: rest =>
      let years := Object_keys (default [] (obj_get masterIndex address)) in
      let* results' := search_years address (slice 0 3 years) limit results in
      if (limit * 2 <=? length results')%nat then ret results'
      else search_addresses masterIndex rest limit results'
  end.

Definition matching_addresses (masterIndex : MasterIndex) (searchTerm : string)
    : list string :=
  slice 0 20
    (filter (fun addr => includes addr searchTerm = true) (Object_keys masterIndex)).

Definition set_search (k : string) (v : list (gmap string value)) : M unit :=
  fun c =>
    (Return tt,
     {| github_ := github_ c; search_ := <[k := v]> (search_ c);
        property_ := property_ c; price_ := price_ c |}).

Definition searchAddressFromGitHub (query : string) (limit : nat)
    : M (list (gmap string value)) :=
  fun c =>
    let cacheKey := toLowerCase query in
    match search_ c !! cacheKey with
    | Some cached => (Return (slice 0 limit cached), c)
    | None =>
        try_catch
          (let* masterIndex := fetchGitHubFile "master-address-index.json" in
           if negb (truthy_artifact masterIndex)
           then throw "Master index not found on GitHub"
           else
             match masterIndex with
             | Some (AIndex idx) =>
                 let searchTerm := toLowerCase query in
                 let matchingAddresses := matching_addresses idx searchTerm in
                 let* results := search_addresses idx matchingAddresses limit [] in
                 let sortedResults :=
                   slice 0 limit (Array_sort by_date_desc results) in
                 let* _ := set_search cacheKey sortedResults in
                 ret sortedResults
             | _ => throw "TypeError"
             end)
          (ret []) c
    end.

(** [getPropertyFromGitHub]. *)

(** The counters on the shared objects when the method is called. *)
Variable inherits : realm.
(** Whether a call with that many arguments goes through: the engine
    passes the elements of a spread as arguments and throws a RangeError
    when they are too many. *)
Variable spreads : nat -> bool.

(** The loop over the years, with [results.push(...properties)]. *)
Fixpoint load_years (address : string) (years : list string)
    (results : list (gmap string value)) : M (list (gmap string value)) :=
  match years with
  | [] => ret results
  | yr :: years' =>
      let* properties := loadPropertiesForAddressYear address yr in
      if spreads (length properties)
      then load_years address years' (results ++ properties)
      else throw "RangeError"
  end.

(** [Object.keys(masterIndex[k])] when [masterIndex[k]] is truthy. The
    index is a plain object: for a key that is not its own the value is
    what it inherits, a member of the prototype, whose keys are the
    counters put on it, or a counter, which has no key. *)
Definition held_years (idx : MasterIndex) (k : string) : option (list string) :=
  match obj_get idx k with
  | Some byYear => Some (Object_keys byYear)
  | None =>
      match inherit inherits k with
      | Some (IMember name) =>
          Some (Object_keys (default [] (obj_get inherits name)))
      | Some (ICounter (S _)) => Some []
      | Some (ICounter O) | None => None
      end
  end.

Definition set_property (k : string) (v : list (gmap string value)) : M unit :=
  fun c =>
    (Return tt,
     {| github_ := github_ c; search_ := search_ c;
        property_ := <[k := v]> (property_ c); price_ := price_ c |}).

Definition getPropertyFromGitHub (address : string)
    : M (list (gmap string value)) :=
  fun c =>
    let cacheKey := toLowerCase address in
    match property_ c !! cacheKey with
    | Some cached => (Return cached, c)
    | None =>
        try_catch
          (let* masterIndex := fetchGitHubFile "master-address-index.json" in
           let normalizedAddress := toLowerCase address in
           match masterIndex with
           | None => throw "TypeError"
           | Some (AIndex idx) =>
               match held_years idx normalizedAddress with
               | None => ret []
               | Some years =>
                   let* results := load_years normalizedAddress years [] in
                   let* _ := set_property cacheKey results in
                   ret results
               end
           | Some _ => ret []
           end)
          (ret []) c
    end.

(** [getAvailableYearsFromGitHub]: the keys of the inner objects, read
    as integers, without repeats, in descending order. A key that is
    not a number reads as NaN, here [None]. *)
Definition parseInt_key (k : string) : option Z :=
  let '(neg, s) := read_sign (trimStart k) in
  let v :=
    if String.prefix "0x" s || String.prefix "0X" s
    then hex_value None (String.substring 2 (String.length s - 2) s)
    else match fst (span_digits s) with
         | EmptyString => None
         | ds => Some (digits_value 0 ds)
         end in
  (fun n => if neg then - n else n) <$> v.

Definition set_add (y : option Z) (years : list (option Z)) : list (option Z) :=
  if bool_decide (y ∈ years) then years else years ++ [y].

Definition year_desc (a b : option Z) : Z :=
  match b, a with
  | Some vb, Some va => vb - va
  | _, _ => 0
  end.

Definition index_years (idx : MasterIndex) : list (option Z) :=
  fold_left
    (fun years addressData =>
       fold_left (fun ys k => set_add (parseInt_key k) ys)
                 (Object_keys (snd addressData)) years)
    (Object_entries idx) [].

Definition getAvailableYearsFromGitHub : M (list (option Z)) :=
  try_catch
    (let* masterIndex := fetchGitHubFile "master-address-index.json" in
     if negb (truthy_artifact masterIndex) then ret []
     else
       match masterIndex with
       | Some (AIndex idx) => ret (Array_sort year_desc (index_years idx))
       | _ => throw "TypeError"
       end)
    (ret []).

(** [searchYearByPrice] and [searchPriceFromGitHub]. *)
Definition ToNumber (v : value) : number :=
  match v with
  | VUndef => S754_nan
  | VNull => S754_zero false
  | VNum x => x
  | VStr s => StringToNumber s
  end.

Definition year_string (y : option Z) : string :=
  match y with
  | Some v => pretty v
  | None => "NaN"
  end.

Definition price_match (minPrice maxPrice : Z) (suburb : option string)
    (p : gmap string value) : M bool :=
  let price :=
    js_or (js_or (prop_get p "$") (prop_get p "salePrice")) (VNum (S754_zero false)) in
  let propSuburb :=
    js_or (js_or (prop_get p "s") (prop_get p "suburb")) (VStr EmptyString) in
  let matched :=
    js_ge (ToNumber price) (num_of_Z minPrice)
    && js_le (ToNumber price) (num_of_Z maxPrice) in
  if nonempty (default EmptyString suburb) && matched then
    match propSuburb with
    | VStr s =>
        ret (includes (toLowerCase s) (toLowerCase (default EmptyString suburb)))
    | _ => throw "TypeError"
    end
  else ret matched.

Fixpoint price_chunks (yr : string) (minPrice maxPrice : Z)
    (suburb : option string) (limit : nat) (chunks : list chunkInfo)
    (results : list (gmap string value)) : M (list (gmap string value)) :=
  match chunks with
  | [] => ret results
  | chunk :: chunks' =>
      let* chunkData := fetchGitHubFile (path_join yr (info_filename chunk)) in
      if negb (truthy_artifact chunkData)
      then price_chunks yr minPrice maxPrice suburb limit chunks' results
      else
        let* properties := properties_of chunkData in
        let* matches := filterM (price_match minPrice maxPrice suburb) properties in
        let results' := results ++ map decompressProperty matches in
        if (limit <=? length results')%nat then ret results'
        else price_chunks yr minPrice maxPrice suburb limit chunks' results'
  end.

Definition searchYearByPrice (yr : string) (minPrice maxPrice : Z)
    (suburb : option string) (limit : nat) : M (list (gmap string value)) :=
  try_catch
    (let* manifest := fetchGitHubFile (path_join yr "manifest.json") in
     if negb (truthy_artifact manifest) then ret []
     else
       let* chunks := chunks_of manifest in
       price_chunks yr minPrice maxPrice suburb limit (slice 0 5 chunks) [])
    (ret []).

Fixpoint price_years (years : list string) (minPrice maxPrice : Z)
    (suburb : option string) (limit : nat)
    (results : list (gmap string value)) : M (list (gmap string value)) :=
  match years with
  | [] => ret results
  | searchYear :: years' =>
      let* yearResults :=
        searchYearByPrice searchYear minPrice maxPrice suburb (limit * 2) in
      let results' := results ++ yearResults in
      if (limit * 2 <=? length results')%nat then ret results'
      else price_years years' minPrice maxPrice suburb limit results'
  end.

(** [b.salePrice - a.salePrice] is negative. *)
Definition price_before (a b : gmap string value) : bool :=
  js_lt (SFsub prec emax (ToNumber (prop_get b "salePrice"))
                         (ToNumber (prop_get a "salePrice")))
        (S754_zero false).

Definition set_price (k : string) (v : list (gmap string value)) : M unit :=
  fun c =>
    (Return tt,
     {| github_ := github_ c; search_ := search_ c;
        property_ := property_ c; price_ := <[k := v]> (price_ c) |}).

Definition price_key (minPrice maxPrice : Z) (suburb : option string)
    (yr : option Z) : string :=
  pretty minPrice +:+ "_" +:+ pretty maxPrice +:+ "_"
    +:+ or_string suburb "all" +:+ "_"
    +:+ match yr with
        | Some 0 | None => "all"
        | Some y => pretty y
        end.

Definition searchPriceFromGitHub (minPrice maxPrice : Z)
    (suburb : option string) (yr : option Z) (limit : nat)
    : M (list (gmap string value)) :=
  fun c =>
    let cacheKey := price_key minPrice maxPrice suburb yr in
    match price_ c !! cacheKey with
    | Some cached => (Return (slice 0 limit cached), c)
    | None =>
        try_catch
          (let* years :=
             match yr with
             | Some 0 | None =>
                 let* ys := getAvailableYearsFromGitHub in
                 ret (map year_string ys)
             | Some y => ret [pretty y]
             end in
           let* results :=
             price_years (slice 0 3 years) minPrice maxPrice suburb limit [] in
           let sortedResults :=
             slice 0 limit (sort_stable price_before results) in
           let* _ := set_price cacheKey sortedResults in
           ret sortedResults)
          (ret []) c
    end.
End QueryService.

(** *** The read side as a function of what the fetches resolve with *)

Section Served.
Variable cfg : config.
Variable https_get : string -> http_outcome.
Variable JSON_parse : string -> option artifact.

(** What a fetch of [filepath] resolves with from cache [c]: the cached
    document, or the parsed body of a 200 response, or [null]. *)
Definition served (c : cache) (filepath : string) : option artifact :=
  match github_ c !! filepath with
  | Some cached => Some cached
  | None =>
      match https_get (raw_url cfg filepath) with
      | NetworkError => None
      | Response statusCode body =>
          if (statusCode =? 200)%nat then JSON_parse body else None
      end
  end.

(** The three ways a fetch fails. *)
Definition fetch_fails (filepath : string) : Prop :=
  https_get (raw_url cfg filepath) = NetworkError
  \/ (exists statusCode body,
        https_get (raw_url cfg filepath) = Response statusCode body
        /\ statusCode <> 200%nat)
  \/ (exists body,
        https_get (raw_url cfg filepath) = Response 200 body
        /\ JSON_parse body = None).
End Served.

(** Two caches that hold the same search results and make every fetch
    resolve alike. *)
Definition coherent (cfg : config) (https_get : string -> http_outcome)
    (JSON_parse : string -> option artifact) (c c' : cache) : Prop :=
  (forall filepath,
      served cfg https_get JSON_parse c' filepath
      = served cfg https_get JSON_parse c filepath)
  /\ search_ c' = search_ c /\ property_ c' = property_ c /\ price_ c' = price_ c.

Section Lookup.
(** The fetch capability of the design: a name resolves to a parsed
    document or to not-found. *)
Variable fetched : string -> option artifact.

Definition entries_of (doc : option artifact) : option (list (gmap string value)) :=
  match doc with
  | Some (AChunk c) => Some (chunk_properties c)
  | Some (AAddressFile f) => Some (file_properties f)
  | _ => None
  end.

(** The address-exact matches among the entries of a document; [None]
    when the address of an entry is not a string. *)
Definition address_matches (address : string) (entries : list (gmap string value))
    : option (list (gmap string value)) :=
  if forallb (fun p => bool_decide (is_Some (entry_address p))) entries
  then Some (filter (fun p => entry_address p = Some (toLowerCase address)) entries)
  else None.

(** The fallback: the matches of the first chunk that has some. *)
Fixpoint lookup_chunks (yr address : string) (chunks : list chunkInfo)
    : option (list (gmap string value)) :=
  match chunks with
  | [] => Some []
  | chunk :: chunks' =>
      let doc := fetched (path_join yr (info_filename chunk)) in
      if negb (truthy_artifact doc) then lookup_chunks yr address chunks'
      else
        match entries_of doc ≫= address_matches address with
        | Some matches =>
            if (0 <? length matches)%nat
            then Some (map decompressProperty matches)
            else lookup_chunks yr address chunks'
        | None => None
        end
  end.

(** One (address, year): the address file first, then the first three
    chunks of the manifest; nothing when a document is malformed. *)
Definition lookup_address_year (address yr : string) : list (gmap string value) :=
  default []
    (let doc := fetched (address_path yr address) in
     if truthy_artifact doc
     then map decompressProperty <$> (entries_of doc ≫= address_matches address)
     else
       let manifest := fetched (path_join yr "manifest.json") in
       if negb (truthy_artifact manifest) then Some []
       else match manifest with
            | Some (AManifest m) =>
                lookup_chunks yr address (slice 0 3 (manifest_chunks m))
            | _ => None
            end).
End Lookup.

(** Accumulate batches until twice the limit is reached. *)
Fixpoint accumulate {A : Type} (limit : nat) (batches : list (list A))
    (results : list A) : list A :=
  match batches with
  | [] => results
  | batch :: batches' =>
      let results' := results ++ batch in
      if (limit * 2 <=? length results')%nat then results'
      else accumulate limit batches' results'
  end.




(** The keys of one address of the index as years, most recent first. *)
Definition year_of_key (k : string) : Z :=
  digits_value 0 (fst (span_digits k)).

Definition most_recent_first (byYear : jsobject nat) : list string :=
  Array_sort (fun a b => year_of_key b - year_of_key a) (map fst byYear).

Section SearchSpec.
Variable fetched : string -> option artifact.
Variable Date_time : value -> option Z.
(** The years of one address, in the order in which they are taken. *)
Variable years_of : jsobject nat -> list string.

(** The (address, year) pairs to examine: up to 20 addresses that
    contain the term, up to 3 years of each. *)
Definition candidate_pairs (masterIndex : MasterIndex) (searchTerm : string)
    : list (string * string) :=
  flat_map
    (fun address =>
       map (fun yr => (address, yr))
           (slice 0 3 (years_of (default [] (obj_get masterIndex address)))))
    (matching_addresses masterIndex searchTerm).

(** The address search as the design words it. *)
Definition spec_searchByAddress (masterIndex : MasterIndex) (query : string)
    (limit : nat) : list (gmap string value) :=
  slice 0 limit
    (Array_sort (by_date_desc Date_time)
       (accumulate limit
          (map (fun pair => lookup_address_year fetched (fst pair) (snd pair))
               (candidate_pairs masterIndex (toLowerCase query)))
          [])).
End SearchSpec.

(** *** Fixtures *)

(** The sample line of the format note in [parsePropertyLine]. *)
Definition sample_line : string :=
  "B;001;1667;1;20200106 01:00;;;103;RAWSON ST;ABERDARE;2325;1011.83;M;20191116;20191230;260000;R2;R;RESIDENCE;;AAD;;0;AP807655;".

(** The same sale at a price of 1001. *)
Definition line_1001 : string :=
  "B;001;1667;1;20200106 01:00;;;103;RAWSON ST;ABERDARE;2325;1011.83;M;20191116;20191230;1001;R2;R;RESIDENCE;;AAD;;0;AP807655;".




(** A collation to run the chunk writer with: the order of the character
    codes. *)
Definition codeunit_compare (a b : string) : Z :=
  match String.compare a b with
  | Lt => -1
  | Eq => 0
  | Gt => 1
  end.

(** Three sales, two of them at one address. *)
Definition sale (house street price : string) : string :=
  "B;001;1;1;20200106 01:00;;;" +:+ house +:+ ";" +:+ street
    +:+ ";ABERDARE;2325;500;M;20191116;20191230;" +:+ price
    +:+ ";R2;R;RESIDENCE;;AAD;;0;AP1;".

Definition three_sales : list property :=
  parseDATContentOptimized
    (sale "7" "ELM ST" "300000" +:+ "
" +:+ sale "103" "RAWSON ST" "260000" +:+ "
" +:+ sale "7" "ELM ST" "310000" +:+ "
") 2020.

(** The record of the sample line. *)
Definition sample_record : property :=
  default
    {| recordType := ""; districtCode := ""; propertyId := ""; saleCounter := "";
       downloadDateTime := ""; propertyName := ""; unitNumber := "";
       houseNumber := ""; streetName := ""; locality := ""; postcode := "";
       area := S754_zero false; areaType := ""; contractDate := "";
       settlementDate := ""; salePrice := S754_zero false; zoning := "";
       natureOfProperty := ""; primaryPurpose := ""; strataLot := "";
       year := S754_zero false; address := ""; suburb := "";
       propertyType := ""; saleDate := None |}
    (parsePropertyLine sample_line 2020).

(** The constructor called without settings, and the state before any
    file is written. *)
Definition no_settings : user_config :=
  {| cfg_githubUser := None; cfg_githubRepo := None; cfg_githubBranch := None;
     cfg_outputPath := None; cfg_recordsPerChunk := None |}.

Definition empty_world : world :=
  {| files := ∅;
     counters := {| totalProperties := 0; yearsProcessed := [];
                    githubFiles := 0; dataSize := 0 |};
     prototypes := [] |}.

(** The files of two years: the three sales in 2020, and in 2021 one more
    sale at the address sold twice in 2020. *)
Definition one_sale : list property :=
  parseDATContentOptimized (sale "7" "ELM ST" "350000") 2021.

Definition write_year (yr : Z) (properties : list property) (w : world) : world :=
  match createOptimizedChunks codeunit_compare (fun _ => 0%nat) "2025-08-22T11:24:45.195Z"
          (make_config no_settings) yr properties w with
  | Some (_, w') => w'
  | None => w
  end.

Definition two_years : world := Eval vm_compute in
  let w := write_year 2021 one_sale (write_year 2020 three_sales empty_world) in
  {| files := files w;
     counters := {| totalProperties := 4; yearsProcessed := [2020; 2021];
                    githubFiles := githubFiles (counters w);
                    dataSize := dataSize (counters w) |};
     prototypes := prototypes w |}.

(** The time value of an ISO date [YYYY-MM-DD], in milliseconds since the
    epoch; [None] for any other string. *)
Definition days_from_civil (y m d : Z) : Z :=
  let y' := if m <=? 2 then y - 1 else y in
  let era := y' / 400 in
  let yoe := y' - era * 400 in
  let doy := (153 * (if 2 <? m then m - 3 else m + 9) + 2) / 5 + d - 1 in
  let doe := yoe * 365 + yoe / 4 - yoe / 100 + doy in
  era * 146097 + doe - 719468.

Definition iso_date_ms (s : string) : option Z :=
  let y := substring_js 0 4 s in
  let m := substring_js 5 7 s in
  let d := substring_js 8 10 s in
  if (String.length s =? 10)%nat && all_digits y && all_digits m && all_digits d
     && String.eqb (substring_js 4 5 s) "-" && String.eqb (substring_js 7 8 s) "-"
     && (1 <=? digits_value 0 m) && (digits_value 0 m <=? 12)
     && (1 <=? digits_value 0 d) && (digits_value 0 d <=? 31)
  then Some (86400000 * days_from_civil (digits_value 0 y) (digits_value 0 m)
                                        (digits_value 0 d))
  else None.

Definition fixture_Date_time (v : value) : option Z :=
  match v with
  | VStr s => iso_date_ms s
  | _ => None
  end.

(** A remote store with one address sold once in each of four years. A
    file is served under its path with a body that names it, and parsing
    the body gives the document. *)
Definition rawson_sale (yr : Z) (date : string) : gmap string value :=
  list_to_map [
    ("a", VStr "1 RAWSON ST"); ("s", VStr "ABERDARE"); ("p", VStr "2325");
    ("t", VStr "Residence"); ("$", VNum (num_of_Z 260000)); ("d", VStr date);
    ("l", VStr "001"); ("m", VNum (num_of_Z 500)); ("y", VNum (num_of_Z yr));
    ("z", VStr "R2"); ("n", VStr "R")
  ].

Definition rawson_year (yr : Z) (date : string) : list (string * artifact) :=
  [ (pretty yr +:+ "/manifest.json",
     AManifest {| manifest_year := num_of_Z yr; manifest_totalProperties := 1;
                  manifest_chunks :=
                    [{| info_filename := "properties-" +:+ pretty yr +:+ "-000.json";
                        info_count := 1; info_size := 200 |}];
                  manifest_created := "2025-08-22T11:24:45.195Z" |});
    (pretty yr +:+ "/properties-" +:+ pretty yr +:+ "-000.json",
     AChunk {| chunk_year := num_of_Z yr; chunk_chunkId := "000"; chunk_count := 1;
               chunk_properties := [rawson_sale yr date] |}) ].

Definition rawson_index : MasterIndex :=
  [("1 rawson st", [("2018", 1); ("2019", 1); ("2020", 1); ("2021", 1)]%nat)].

Definition rawson_store : gmap string artifact :=
  list_to_map
    (("master-address-index.json", AIndex rawson_index)
     :: rawson_year 2018 "2018-03-01" ++ rawson_year 2019 "2019-12-30"
     ++ rawson_year 2020 "2020-06-15" ++ rawson_year 2021 "2021-09-09").

Definition rawson_cfg : config := make_config no_settings.

Definition rawson_https_get (url : string) : http_outcome :=
  let root := "https://raw.githubusercontent.com/your-username/nsw-property-data/main/" in
  if String.prefix root url
  then let path := String.substring (String.length root)
                                    (String.length url - String.length root) url in
       match rawson_store !! path with
       | Some _ => Response 200 path
       | None => Response 404 "404: Not Found"
       end
  else NetworkError.

Definition rawson_JSON_parse (body : string) : option artifact :=
  rawson_store !! body.

(** The sale dates of a result. *)
Definition sale_dates (o : outcome (list (gmap string value))) : list value :=
  match o with
  | Return l => map (fun r => prop_get r "saleDate") l
  | Throw _ => []
  end.


(** The files written for the two years, served as the remote store. *)
Definition written_https_get (url : string) : http_outcome :=
  let root := "https://raw.githubusercontent.com/your-username/nsw-property-data/main/" in
  if String.prefix root url
  then let path := String.substring (String.length root)
                                    (String.length url - String.length root) url in
       match files two_years !! path with
       | Some _ => Response 200 path
       | None => Response 404 "404: Not Found"
       end
  else NetworkError.

Definition written_JSON_parse (body : string) : option artifact :=
  files two_years !! body.

(** The address file of the address sold twice in 2020. *)
Definition elm_file : addressFile :=
  address_file (filter (fun p => address p = "7 ELM ST") three_sales).

(** *** Utility methods *)

(** [fileName.match(/(\d{4})/)]: the leftmost four consecutive digits. *)
Fixpoint match_four_digits (s : string) : option string :=
  match s with
  | EmptyString => None
  | String _ s' =>
      let m := String.substring 0 4 s in
      if (String.length m =? 4)%nat && all_digits m then Some m
      else match_four_digits s'
  end.

(** The head test of the search for four digits. *)
Definition four_digits_here (s : string) : bool :=
  (String.length (String.substring 0 4 s) =? 4)%nat
  && all_digits (String.substring 0 4 s).

(** [extractYear]; [thisYear] is [new Date().getFullYear()]. *)
Definition extractYear (thisYear : Z) (fileName : string) : Z :=
  match match_four_digits fileName with
  | Some m => digits_value 0 m
  | None => thisYear
  end.

(** [s.replace(/\s+/g, ' ')]: every maximal run of blanks becomes one
    space. *)
Fixpoint collapse_blanks (s : string) : string :=
  match s with
  | EmptyString => EmptyString
  | String c s' =>
      if Ascii.is_space c then
        match s' with
        | String c' _ =>
            if Ascii.is_space c' then collapse_blanks s'
            else String " " (collapse_blanks s')
        | EmptyString => " "
        end
      else String c (collapse_blanks s')
  end.

Definition cleanText (text : string) : string := collapse_blanks (trim text).

Definition cleanAddress (address : string) : string :=
  toUpperCase (collapse_blanks (trim address)).

(** [s.replace(/[^0-9.]/g, '')]. *)
Fixpoint keep_numeric (s : string) : string :=
  match s with
  | EmptyString => EmptyString
  | String c s' =>
      if is_digit c || Ascii.eqb c "."
      then String c (keep_numeric s') else keep_numeric s'
  end.

Definition parseArea (areaStr : string) : number :=
  or_zero (parseFloat (keep_numeric areaStr)).

(** *** The batch pipeline *)

(** [set.add(y)] on a set kept in insertion order. *)
Definition add_year (y : Z) (years : list Z) : list Z :=
  if bool_decide (y ∈ years) then years else years ++ [y].

Section Pipeline.
Variable localeCompare : string -> string -> Z.
Variable byteSize : chunkData -> nat.
Variable now : string.
Variable cfg : config.
(** [new Date().getFullYear()]. *)
Variable thisYear : Z.
(** [new AdmZip(path.join(dataSourcePath, name))]: the archive of a file
    of the source directory, [None] when the constructor throws. *)
Variable AdmZip : string -> option archive.
(** Whether a call with that many arguments goes through: the engine
    passes the elements of a spread as arguments and throws a RangeError
    when they are too many. *)
Variable spreads : nat -> bool.

(** The loop over the raw-data files of one archive. The records of a file
    are added by [allProperties.push(...properties)]; when that throws,
    the [catch] of the loop logs the file and its records are left out. *)
Definition parse_files (yr : Z) (datFiles : list entry) : list property :=
  fold_left
    (fun allProperties datFile =>
       let properties := parseDATContentOptimized (getData datFile) yr in
       if spreads (length properties) then allProperties ++ properties
       else allProperties)
    datFiles [].

(** [processYearlyZipOptimized]: an archive that does not open is logged
    and leaves the state as it is; so is a chunk writer that throws, which
    leaves what it wrote and skips the two updates of the counters that
    follow it. [None] is the loop of the chunk writer running out of
    fuel. *)
Definition processYearlyZipOptimized (zipFileName : string) (w : world)
    : option world :=
  let yr := extractYear thisYear zipFileName in
  match AdmZip zipFileName with
  | None => Some w
  | Some zip =>
      let datFiles := findDATFilesRecursively zip in
      let allProperties := parse_files yr datFiles in
      match createOptimizedChunks localeCompare byteSize now cfg yr allProperties w with
      | None => None
      | Some (Throw _, w') => Some w'
      | Some (Return _, w') =>
          Some {| files := files w';
                  counters := {|
                    totalProperties :=
                      (totalProperties (counters w') + length allProperties)%nat;
                    yearsProcessed := add_year yr (yearsProcessed (counters w'));
                    githubFiles := githubFiles (counters w');
                    dataSize := dataSize (counters w')
                  |};
                  prototypes := prototypes w' |}
      end
  end.

(** The loop of [processDataForGitHub] over the archives. *)
Fixpoint process_zips (zipFiles : list string) (w : world) : option world :=
  match zipFiles with
  | [] => Some w
  | zipFile :: rest =>
      match processYearlyZipOptimized zipFile w with
      | Some w' => process_zips rest w'
      | None => None
      end
  end.

(** [processDataForGitHub] on the listing [files] of the source
    directory: the archives in turn, then the index. The directories
    and the README that it also makes hold no artifact and are not
    part of the state. *)
Definition processDataForGitHub (listing : list string) (w : world)
    : option world :=
  let zipFiles := filter (fun f => endsWith (toLowerCase f) ".zip" = true) listing in
  match process_zips zipFiles w with
  | Some w' => Some (createOptimizedIndices w')
  | None => None
  end.
End Pipeline.

(** The state that a process starts from, over the files already below
    [outputPath]: the counters of the constructor, and nothing put on the
    shared objects yet. *)
Definition initial_world (fs : gmap string artifact) : world :=
  {| files := fs;
     counters := {| totalProperties := 0; yearsProcessed := [];
                    githubFiles := 0; dataSize := 0 |};
     prototypes := [] |}.

(** *** Paths of the files of a year *)

(** No numeral holds a slash. *)
Fixpoint no_slash (s : string) : bool :=
  match s with
  | EmptyString => true
  | String c s' => negb (Ascii.eqb c "/") && no_slash s'
  end.

(** The id of a page, and the path of its chunk. *)
Definition page_chunk_id (pg : nat * list property) : string :=
  padStart3 (pretty (Z.of_nat (fst pg))).

Definition chunk_path (yr : Z) (chunkId : string) : string :=
  path_join (pretty yr) ("properties-" +:+ pretty yr +:+ "-" +:+ chunkId +:+ ".json").

(** The records of one archive of the source directory: those of its
    raw-data files that the loop takes, in the order of the scan; none
    when the archive does not open. *)
Definition archive_records (thisYear : Z) (AdmZip : string -> option archive)
    (spreads : nat -> bool) (zipFileName : string) : list property :=
  match AdmZip zipFileName with
  | Some zip =>
      parse_files spreads (extractYear thisYear zipFileName)
                  (findDATFilesRecursively zip)
  | None => []
  end.

(** Whether no record has an address that lower-cases to a property name
    of [Object.prototype]. *)
Definition plain_records (properties : list property) : bool :=
  forallb (fun p => negb (inherited_name (toLowerCase (address p)))) properties.

(** The archives of a listing: the names that end in [.zip], case aside. *)
Definition zip_files (listing : list string) : list string :=
  filter (fun f => endsWith (toLowerCase f) ".zip" = true) listing.



(** A remote that serves the files [fs] as they are: the body of a file
    stands for its text, and parsing it gives the document. *)
Definition published_get (cfg : config) (fs : gmap string artifact) (url : string)
    : http_outcome :=
  let root := raw_url cfg EmptyString in
  if String.prefix root url
  then let path := String.substring (String.length root)
                                    (String.length url - String.length root) url in
       match fs !! path with
       | Some _ => Response 200 path
       | None => Response 404 "404: Not Found"
       end
  else NetworkError.

Definition published_parse (fs : gmap string artifact) (body : string)
    : option artifact :=
  fs !! body.

(** The records of an address, case aside. *)
Definition records_at (addr : string) (properties : list property) : list property :=
  filter (fun p => toLowerCase (address p) = addr) properties.

(** A text in which every blank is one space between two other
    characters. *)
Fixpoint single_spaced (s : string) : bool :=
  match s with
  | EmptyString => true
  | String c s' =>
      if Ascii.is_space c
      then Ascii.eqb c " "
           && match s' with
              | String c' _ => negb (Ascii.is_space c')
              | EmptyString => false
              end
           && single_spaced s'
      else single_spaced s'
  end.

Definition starts_nonblank (s : string) : bool :=
  match s with
  | String c _ => negb (Ascii.is_space c)
  | EmptyString => true
  end.

Definition clean (s : string) : bool := starts_nonblank s && single_spaced s.

(** A number that is neither NaN nor negative: its sign bit is clear. *)
Definition nonneg_number (x : number) : Prop :=
  match x with
  | S754_zero s | S754_infinity s | S754_finite s _ _ => s = false
  | S754_nan => False
  end.

(** *** Fixtures of the pipeline and of the read side *)

Definition line_feed : string := String "010" EmptyString.

(** The raw data of two years. *)
Definition sales_2020 : string :=
  sale "7" "ELM ST" "300000" +:+ line_feed
    +:+ sale "103" "RAWSON ST" "260000" +:+ line_feed
    +:+ sale "7" "ELM ST" "310000" +:+ line_feed.

Definition sales_2021 : string := sale "7" "ELM ST" "350000".

(** A source directory: the archive of 2020, a file that is no archive,
    an archive of 2021 whose raw data sits in a nested archive, and an
    archive that does not open. *)
Definition source_listing : list string :=
  ["2020.zip"; "README.txt"; "sales-2021.ZIP"; "2019-broken.zip"].

Definition source_AdmZip (name : string) : option archive :=
  if String.eqb name "2020.zip"
  then Some (Archive [Entry "001_SALES_DATA_NNME_06012020.DAT" false sales_2020 None])
  else if String.eqb name "sales-2021.ZIP"
  then Some (Archive [Entry "week1.zip" false "PK"
                        (Some (Archive [Entry "002.dat" false sales_2021 None]))])
  else None.

(** A year whose manifest lists three chunks of which the second is
    missing. *)
Definition chunk_of (date : string) : artifact :=
  AChunk {| chunk_year := num_of_Z 2020; chunk_chunkId := "000"; chunk_count := 1;
            chunk_properties := [rawson_sale 2020 date] |}.

Definition listed (name : string) : chunkInfo :=
  {| info_filename := name; info_count := 1; info_size := 200 |}.

Definition half_manifest : manifest :=
  {| manifest_year := num_of_Z 2020; manifest_totalProperties := 3;
     manifest_chunks := [listed "a.json"; listed "b.json"; listed "c.json"];
     manifest_created := "2025-08-22T11:24:45.195Z" |}.

Definition half_year : gmap string artifact :=
  list_to_map [("2020/manifest.json", AManifest half_manifest);
               ("2020/a.json", chunk_of "2020-01-01");
               ("2020/c.json", chunk_of "2020-03-03")].

(** Two addresses that begin with the same nine characters, sold twice
    each. *)
Definition rawson_twins : list property :=
  parseDATContentOptimized
    (sale "103" "RAWSON ST" "260000" +:+ line_feed
       +:+ sale "103" "RAWSON RD" "270000" +:+ line_feed
       +:+ sale "103" "RAWSON ST" "280000" +:+ line_feed
       +:+ sale "103" "RAWSON RD" "290000") 2020.

(** Three sales, two of them in a street named [CONSTRUCTOR] at no house
    number, so that the full address is that word. *)
Definition sales_constructor : string :=
  sale "" "CONSTRUCTOR" "300000" +:+ line_feed
    +:+ sale "7" "ELM ST" "260000" +:+ line_feed
    +:+ sale "" "CONSTRUCTOR" "310000".

Definition constructor_sales : list property :=
  parseDATContentOptimized sales_constructor 2020.

(** A source directory with two weekly archives of the year 2020, the
    second of which holds the sales above. *)
Definition weekly_listing : list string := ["20200106.zip"; "20200113.zip"].

Definition weekly_AdmZip (name : string) : option archive :=
  if String.eqb name "20200106.zip"
  then Some (Archive [Entry "001_SALES_DATA_NNME_06012020.DAT" false sales_2020 None])
  else if String.eqb name "20200113.zip"
  then Some (Archive [Entry "001_SALES_DATA_NNME_13012020.DAT" false
                        sales_constructor None])
  else None.

(** Four sales in four streets, and a writer that puts one record in a
    chunk. *)
Definition four_streets : list property :=
  parseDATContentOptimized
    (sale "1" "ASH ST" "300000" +:+ line_feed
       +:+ sale "2" "BEECH ST" "310000" +:+ line_feed
       +:+ sale "3" "CEDAR ST" "320000" +:+ line_feed
       +:+ sale "4" "DOVE ST" "330000") 2020.

Definition one_per_chunk : config :=
  make_config {| cfg_githubUser := None; cfg_githubRepo := None;
                 cfg_githubBranch := None; cfg_outputPath := None;
                 cfg_recordsPerChunk := Some 1%nat |}.



(** ** Part II. Properties *)

(** *** Numbers *)

Lemma digits2_pos_size (p : positive) : digits2_pos p = Pos.size p.
Proof. induction p; simpl; congruence. Qed.

Lemma Zdigits2_log2 (p : positive) :
  Zdigits2 (Z.pos p) = Z.log2 (Z.pos p) + 1.
Proof.
  simpl. rewrite digits2_pos_size.
  destruct p; simpl; lia.
Qed.

Lemma digits2_pos_iter_xO (m d : positive) :
  Z.pos (digits2_pos (Pos.iter xO m d)) = Z.pos (digits2_pos m) + Z.pos d.
Proof.
  induction d using Pos.peano_ind.
  - simpl. lia.
  - rewrite Pos.iter_succ. simpl. lia.
Qed.

Lemma shr_1_m (mrs : shr_record) :
  0 <= shr_m mrs -> shr_m (shr_1 mrs) = Z.shiftr (shr_m mrs) 1.
Proof.
  destruct mrs as [m r s]. intros Hm. cbn [shr_m] in *.
  rewrite Z.shiftr_div_pow2 by lia. change (2 ^ 1) with 2.
  destruct m as [|[p|p|]|p]; cbn [shr_1 shr_m]; try lia.
  - done.
  - rewrite Pos2Z.inj_xI. apply Z.div_unique with (r := 1); lia.
  - rewrite Pos2Z.inj_xO. apply Z.div_unique with (r := 0); lia.
  - done.
Qed.

Lemma iter_shr_1_m (p : positive) (mrs : shr_record) :
  0 <= shr_m mrs ->
  shr_m (SpecFloat.iter_pos shr_1 p mrs) = Z.shiftr (shr_m mrs) (Z.pos p).
Proof.
  revert mrs. induction p as [p IH|p IH|]; intros mrs Hm; simpl.
  - assert (H1 : 0 <= shr_m (shr_1 mrs)).
    { rewrite shr_1_m by done. apply Z.shiftr_nonneg. done. }
    assert (H2 : 0 <= shr_m (SpecFloat.iter_pos shr_1 p (shr_1 mrs))).
    { rewrite IH by done. apply Z.shiftr_nonneg. done. }
    rewrite IH, IH, shr_1_m by done.
    rewrite !Z.shiftr_shiftr by lia. f_equal. lia.
  - assert (H2 : 0 <= shr_m (SpecFloat.iter_pos shr_1 p mrs)).
    { rewrite IH by done. apply Z.shiftr_nonneg. done. }
    rewrite IH, IH by done.
    rewrite !Z.shiftr_shiftr by lia. f_equal. lia.
  - apply shr_1_m. done.
Qed.

(** Truncating a positive mantissa to the precision of its binade leaves
    a positive mantissa in the same binade. *)
Lemma shr_fexp_pos (m e : Z) (l : location) :
  0 < m -> -1074 < Zdigits2 m + e ->
  0 < shr_m (fst (shr_fexp prec emax m e l)) /\
  Zdigits2 (shr_m (fst (shr_fexp prec emax m e l))) + snd (shr_fexp prec emax m e l)
  = Zdigits2 m + e.
Proof.
  intros Hm Hd. destruct m as [|p|p]; try lia.
  assert (Hm0 : shr_m (shr_record_of_loc (Z.pos p) l) = Z.pos p)
    by (destruct l as [|[]]; done).
  unfold shr_fexp, shr, fexp, emin, prec, emax.
  rewrite Zdigits2_log2 in *.
  pose proof (Z.log2_nonneg (Z.pos p)) as Hlog.
  destruct (Z.max (Z.log2 (Z.pos p) + 1 + e - 53) (3 - 1024 - 53) - e) as [|n|n] eqn:Hn;
    cbn [fst snd].
  - rewrite Hm0, Zdigits2_log2. lia.
  - rewrite iter_shr_1_m by (rewrite Hm0; lia).
    rewrite Hm0.
    assert (Hlt : Z.pos n <= Z.log2 (Z.pos p)) by lia.
    assert (Hpos : 0 < Z.shiftr (Z.pos p) (Z.pos n)).
    { rewrite Z.shiftr_div_pow2 by lia.
      apply Z.div_str_pos. split; [lia|].
      transitivity (2 ^ Z.log2 (Z.pos p)).
      - apply Z.pow_le_mono_r; lia.
      - apply Z.log2_spec. lia. }
    split; [done|].
    destruct (Z.shiftr (Z.pos p) (Z.pos n)) as [|q|q] eqn:Hq; try lia.
    rewrite Zdigits2_log2, <- Hq.
    rewrite Z.log2_shiftr by lia. lia.
  - rewrite Hm0, Zdigits2_log2. lia.
Qed.

Lemma round_nearest_even_ge (m : Z) (l : location) :
  m <= round_nearest_even m l.
Proof. destruct l as [|[]]; simpl; try destruct (Z.even m); lia. Qed.

(** Rounding a positive mantissa above the underflow threshold gives a
    finite number that is not a zero, or an infinity. *)
Lemma binary_round_aux_truthy (s : bool) (m e : Z) (l : location) :
  0 < m -> -1074 < Zdigits2 m + e ->
  truthy_num (binary_round_aux prec emax s m e l) = true.
Proof.
  intros Hm Hd. unfold binary_round_aux.
  destruct (shr_fexp_pos m e l Hm Hd) as [H1 H2].
  destruct (shr_fexp prec emax m e l) as [mrs' e'] eqn:E1. cbn [fst snd] in *.
  set (m' := round_nearest_even (shr_m mrs') (loc_of_shr_record mrs')).
  assert (Hm' : 0 < m').
  { pose proof (round_nearest_even_ge (shr_m mrs') (loc_of_shr_record mrs')).
    unfold m'. lia. }
  assert (Hd' : -1074 < Zdigits2 m' + e').
  { pose proof (round_nearest_even_ge (shr_m mrs') (loc_of_shr_record mrs')) as Hge.
    fold m' in Hge.
    destruct m' as [|q|q]; try lia.
    destruct (shr_m mrs') as [|q0|q0]; try lia.
    rewrite Zdigits2_log2 in *.
    pose proof (Z.log2_le_mono _ _ Hge). lia. }
  destruct (shr_fexp_pos m' e' loc_Exact Hm' Hd') as [H3 _].
  destruct (shr_fexp prec emax m' e' loc_Exact) as [mrs'' e''].
  cbn [fst] in H3.
  destruct (shr_m mrs'') as [|q|q]; try lia.
  destruct (e'' <=? emax - prec); done.
Qed.

Lemma binary_round_truthy (s : bool) (m : positive) :
  truthy_num (binary_round prec emax s m 0) = true.
Proof.
  unfold binary_round.
  destruct (shl_align m 0 (fexp prec emax (Z.pos (digits2_pos m) + 0)))
    as [mz ez] eqn:E.
  apply binary_round_aux_truthy; [lia|].
  unfold shl_align, fexp, emin, prec, emax in E.
  pose proof (Pos2Z.is_pos (digits2_pos m)).
  destruct (Z.max (Z.pos (digits2_pos m) + 0 - 53) (3 - 1024 - 53) - 0)
    as [|d|d] eqn:Hd; inversion E; subst; simpl Zdigits2.
  - lia.
  - lia.
  - rewrite digits2_pos_iter_xO. lia.
Qed.

(** An integer is a zero only when it is 0, and is never NaN. *)
Lemma num_of_Z_truthy (z : Z) : z <> 0 -> truthy_num (num_of_Z z) = true.
Proof.
  intros Hz. unfold num_of_Z, binary_normalize.
  destruct z; [done | apply binary_round_truthy ..].
Qed.

Lemma or_zero_num_of_Z (z : Z) : or_zero (num_of_Z z) = num_of_Z z.
Proof.
  destruct (Z.eq_dec z 0) as [->|Hz]; [done|].
  unfold or_zero. by rewrite num_of_Z_truthy.
Qed.

(** A number above 1000 is truthy. *)
Lemma gt_1000_truthy (x : number) :
  js_gt x (num_of_Z 1000) = true -> truthy_num x = true.
Proof. by destruct x as [| | |[]]. Qed.

(** [x || 0] is a fixed point of [_ || 0]. *)
Lemma or_zero_idem (x : number) : or_zero (or_zero x) = or_zero x.
Proof. by destruct x. Qed.

(** *** RecordParser *)

Lemma toUpperCase_empty (s : string) : nonempty (toUpperCase s) = nonempty s.
Proof. by destruct s. Qed.

Lemma nonempty_false (s : string) : nonempty s = false <-> s = "".
Proof. by destruct s. Qed.

Lemma nonempty_true (s : string) : nonempty s = true <-> s <> "".
Proof. by destruct s. Qed.

(** The shape of an accepted record: every key of the object literal in
    terms of the fields of the line. *)
Lemma parsePropertyLine_Some (line : string) (yr : Z) (p : property) :
  parsePropertyLine line yr = Some p ->
  let fields := split ";" line in
  (20 <= length fields)%nat /\
  nonempty (address p) = true /\ nonempty (suburb p) = true /\
  valid_price (salePrice p) = true /\
  address p = toUpperCase (trim (fullAddress (field fields 6) (field fields 7) (field fields 8))) /\
  suburb p = toUpperCase (field fields 9) /\
  salePrice p = or_zero (parseFloat (field fields 15)) /\
  area p = or_zero (parseFloat (field fields 11)) /\
  year p = parseInt_year yr /\
  settlementDate p = field fields 14 /\
  saleDate p = formatDate (field fields 14) /\
  propertyType p = determinePropertyType (field fields 17) (field fields 18).
Proof.
  unfold parsePropertyLine. intros H.
  destruct (length (split ";" line) <? 20)%nat eqn:Hlen; [done|].
  apply Nat.ltb_ge in Hlen.
  cbn [address suburb salePrice] in H.
  destruct (nonempty (toUpperCase (trim _))) eqn:Ha; [|done].
  destruct (nonempty (toUpperCase (field _ 9))) eqn:Hs; [|done].
  destruct (valid_price _) eqn:Hp; [|done].
  cbn [andb] in H. injection H as <-. cbn.
  repeat split; done.
Qed.

(** C1. [parsePropertyLine] is a total function whose result is [None]
    (the null result; there is no exception to model, every step of the
    body being defined on every line) exactly when the line has fewer than
    20 fields, or the composed full address or the suburb is empty, or the
    price is not strictly between 1000 and 50,000,000. A line whose price
    field is [1000] is rejected; a line with 20 fields, an address and a
    suburb whose price field is [1001] is accepted with that price. *)
Theorem parsePropertyLine_null_iff (line : string) (yr : Z) :
  let fields := split ";" line in
  let composed :=
    toUpperCase (trim (fullAddress (field fields 6) (field fields 7) (field fields 8))) in
  let price := or_zero (parseFloat (field fields 15)) in
  (parsePropertyLine line yr = None <->
     (length fields < 20)%nat
     \/ composed = ""
     \/ toUpperCase (field fields 9) = ""
     \/ ~ (js_gt price (num_of_Z 1000) = true
           /\ js_lt price (num_of_Z 50000000) = true))
  /\ (field fields 15 = "1000" -> parsePropertyLine line yr = None)
  /\ ((20 <= length fields)%nat -> composed <> "" -> field fields 9 <> "" ->
      field fields 15 = "1001" ->
      exists p, parsePropertyLine line yr = Some p
                /\ salePrice p = num_of_Z 1001).
Proof.
  intros fields composed price.
  assert (Hiff : parsePropertyLine line yr = None <->
     (length fields < 20)%nat
     \/ composed = ""
     \/ toUpperCase (field fields 9) = ""
     \/ ~ (js_gt price (num_of_Z 1000) = true
           /\ js_lt price (num_of_Z 50000000) = true)).
  { unfold parsePropertyLine. fold fields.
    destruct (length fields <? 20)%nat eqn:Hlen.
    - apply Nat.ltb_lt in Hlen. split; [by left | done].
    - apply Nat.ltb_ge in Hlen. cbn [address suburb salePrice].
      fold composed price. unfold valid_price.
      destruct (nonempty composed) eqn:Ha.
      + destruct (nonempty (toUpperCase (field fields 9))) eqn:Hs.
        * apply nonempty_true in Ha, Hs.
          destruct (js_gt price (num_of_Z 1000)) eqn:Hgt;
            destruct (js_lt price (num_of_Z 50000000)) eqn:Hlt; cbn [andb].
          -- split; [done|].
             intros [?|[?|[?|Hn]]]; first [lia | done | by destruct Hn].
          -- split; [|done]. intros _. do 3 right. intros [_ ?]. done.
          -- split; [|done]. intros _. do 3 right. intros [? _]. done.
          -- split; [|done]. intros _. do 3 right. intros [? _]. done.
        * apply nonempty_false in Hs. cbn [andb]. split; [|done].
          intros _. right. right. by left.
      + apply nonempty_false in Ha. cbn [andb]. split; [|done].
        intros _. right. by left. }
  split; [exact Hiff|]. split.
  - intros H15. apply Hiff. do 3 right. unfold price. rewrite H15.
    intros [Hgt _]. vm_compute in Hgt. done.
  - intros Hlen Ha Hs H15.
    destruct (parsePropertyLine line yr) as [p|] eqn:Hp.
    + exists p. split; [done|].
      apply parsePropertyLine_Some in Hp.
      destruct Hp as (_ & _ & _ & _ & _ & _ & -> & _).
      fold fields. rewrite H15. by vm_compute.
    + exfalso.
      destruct (proj1 Hiff eq_refl) as [?|[?|[Hs'|Hn]]]; try lia; try done.
      * apply Hs. apply nonempty_false. rewrite <- toUpperCase_empty.
        by apply nonempty_false.
      * apply Hn. unfold price. rewrite H15. by vm_compute.
Qed.

Lemma parsePropertyLine_null_iff_witness :
  exists p, parsePropertyLine line_1001 2020 = Some p
            /\ salePrice p = num_of_Z 1001.
Proof.
  apply (proj2 (proj2 (parsePropertyLine_null_iff line_1001 2020))).
  - vm_compute. lia.
  - vm_compute. discriminate.
  - vm_compute. discriminate.
  - vm_compute. reflexivity.
Defined.

(** C2. On the sample line and the year 2020 the parser gives a record
    with address "103 RAWSON ST", suburb "ABERDARE", price 260000, sale
    date "2019-12-30", which is the settlement date of field 14
    reformatted, and property type "Residence", from the nature flag R of
    field 17. *)
Theorem parsePropertyLine_sample :
  exists p,
    parsePropertyLine sample_line 2020 = Some p
    /\ address p = "103 RAWSON ST"
    /\ suburb p = "ABERDARE"
    /\ salePrice p = num_of_Z 260000
    /\ saleDate p = Some "2019-12-30"
    /\ field (split ";" sample_line) 14 = "20191230"
    /\ saleDate p = formatDate (field (split ";" sample_line) 14)
    /\ field (split ";" sample_line) 13 = "20191116"
    /\ propertyType p = "Residence"
    /\ natureOfProperty p = "R"
    /\ field (split ";" sample_line) 17 = "R".
Proof.
  destruct (parsePropertyLine sample_line 2020) as [p|] eqn:Hp;
    [|by vm_compute in Hp].
  exists p. split; [done|].
  vm_compute in Hp. injection Hp as <-. vm_compute. repeat split.
Qed.
(** *** The compact encoding *)

Lemma js_or_str (s : string) :
  js_or (js_or (VStr s) VUndef) (VStr "") = VStr s.
Proof. by destruct s. Qed.

Lemma js_or_num (x : number) :
  or_zero x = x ->
  js_or (js_or (VNum x) VUndef) (VNum (S754_zero false)) = VNum x.
Proof.
  unfold or_zero, js_or. cbn [truthy].
  destruct (truthy_num x) eqn:Hx; cbn [truthy]; rewrite ?Hx; congruence.
Qed.

Lemma formatDate_8 (s : string) :
  String.length s = 8%nat ->
  exists d, formatDate s = Some d /\ nonempty d = true.
Proof.
  intros Hlen. unfold formatDate.
  assert (Hs : nonempty s = true) by by destruct s.
  rewrite Hs, Hlen. cbn [negb orb Nat.eqb].
  eexists. split; [reflexivity|].
  destruct s as [|c0 [|c1 [|c2 [|c3 s]]]]; done.
Qed.

(** C10. A record that the parser accepts and whose settlement date has
    eight characters comes back from [decompressProperty] after
    [compressProperty] with the value it had under each of the eleven keys
    address, suburb, postcode, propertyType, salePrice, saleDate,
    districtCode, area, year, zoning and natureOfProperty. *)
Theorem decompress_compress_roundtrip (line : string) (yr : Z) (r : property) :
  parsePropertyLine line yr = Some r ->
  String.length (settlementDate r) = 8%nat ->
  decompressProperty (compressProperty r) = expanded r.
Proof.
  intros Hp Hlen.
  apply parsePropertyLine_Some in Hp.
  destruct Hp as (_ & _ & _ & Hv & _ & _ & Hprice & Harea & Hyear & Hset & Hdate & _).
  destruct (formatDate_8 _ Hlen) as (d & Hd & Hne).
  rewrite Hset in Hd. rewrite Hd in Hdate.
  unfold decompressProperty, expanded.
  change (prop_get (compressProperty r) "a") with (VStr (address r)).
  change (prop_get (compressProperty r) "address") with VUndef.
  change (prop_get (compressProperty r) "s") with (VStr (suburb r)).
  change (prop_get (compressProperty r) "suburb") with VUndef.
  change (prop_get (compressProperty r) "p") with (VStr (postcode r)).
  change (prop_get (compressProperty r) "postcode") with VUndef.
  change (prop_get (compressProperty r) "t") with (VStr (propertyType r)).
  change (prop_get (compressProperty r) "propertyType") with VUndef.
  change (prop_get (compressProperty r) "$") with (VNum (salePrice r)).
  change (prop_get (compressProperty r) "salePrice") with VUndef.
  change (prop_get (compressProperty r) "d") with (date_value (saleDate r)).
  change (prop_get (compressProperty r) "saleDate") with VUndef.
  change (prop_get (compressProperty r) "l") with (VStr (districtCode r)).
  change (prop_get (compressProperty r) "districtCode") with VUndef.
  change (prop_get (compressProperty r) "m") with (VNum (area r)).
  change (prop_get (compressProperty r) "area") with VUndef.
  change (prop_get (compressProperty r) "y") with (VNum (year r)).
  change (prop_get (compressProperty r) "year") with VUndef.
  change (prop_get (compressProperty r) "z") with (VStr (zoning r)).
  change (prop_get (compressProperty r) "zoning") with VUndef.
  change (prop_get (compressProperty r) "n") with (VStr (natureOfProperty r)).
  change (prop_get (compressProperty r) "natureOfProperty") with VUndef.
  rewrite !js_or_str.
  rewrite (js_or_num (salePrice r)) by (rewrite Hprice; apply or_zero_idem).
  rewrite (js_or_num (area r)) by (rewrite Harea; apply or_zero_idem).
  rewrite (js_or_num (year r)) by (rewrite Hyear; apply or_zero_num_of_Z).
  rewrite Hdate. cbn [date_value]. rewrite js_or_str.
  reflexivity.
Qed.

Lemma decompress_compress_roundtrip_witness :
  exists r, parsePropertyLine sample_line 2020 = Some r
            /\ decompressProperty (compressProperty r) = expanded r.
Proof.
  destruct (parsePropertyLine sample_line 2020) as [r|] eqn:Hp.
  - exists r. split; [reflexivity|].
    apply (decompress_compress_roundtrip sample_line 2020 r Hp).
    vm_compute in Hp. injection Hp as <-. reflexivity.
  - vm_compute in Hp. discriminate.
Defined.
(** *** ArchiveScanner *)







(** *** The stable sort *)

Section StableSortFacts.
Context {A : Type}.
Variable cmp : A -> A -> Z.

Lemma insert_sorted_perm (lt : A -> A -> bool) (x : A) (l : list A) :
  Permutation (x :: l) (insert_sorted lt x l).
Proof.
  induction l as [|y l IH]; simpl; [done|].
  destruct (lt y x); [|done].
  rewrite perm_swap. by constructor.
Qed.

Lemma sort_stable_perm (lt : A -> A -> bool) (l : list A) :
  Permutation l (sort_stable lt l).
Proof.
  induction l as [|x l IH]; simpl; [done|].
  rewrite <- insert_sorted_perm. by constructor.
Qed.

Lemma Array_sort_perm (l : list A) : Permutation l (Array_sort cmp l).
Proof. apply sort_stable_perm. Qed.

Lemma Array_sort_length (l : list A) : length (Array_sort cmp l) = length l.
Proof. symmetry. apply Permutation_length, Array_sort_perm. Qed.

End StableSortFacts.

Section SortByKey.
Context {A K : Type}.
Variable key : A -> K.
Variable cmp : K -> K -> Z.

(** A consistent comparator: the sign of [cmp b a] is the opposite of
    the sign of [cmp a b], and "not after" is transitive. *)
Hypothesis cmp_antisym : forall a b, cmp a b < 0 <-> 0 < cmp b a.
Hypothesis cmp_trans : forall a b c, cmp a b <= 0 -> cmp b c <= 0 -> cmp a c <= 0.

Let by_key (a b : A) : Z := cmp (key a) (key b).

Lemma cmp_not_lt (a b : K) : ~ cmp b a < 0 -> cmp a b <= 0.
Proof.
  intros Hn. destruct (Z.le_gt_cases (cmp a b) 0) as [|Hgt]; [done|].
  apply cmp_antisym in Hgt. lia.
Qed.

Lemma insert_sorted_sorted (x : A) (l : list A) :
  StronglySorted (fun a b => by_key a b <= 0) l ->
  StronglySorted (fun a b => by_key a b <= 0)
                 (insert_sorted (fun a b => by_key a b <? 0) x l).
Proof.
  induction 1 as [|y l Hs IH Hy]; simpl.
  - repeat constructor.
  - destruct (by_key y x <? 0) eqn:Hlt.
    + apply Z.ltb_lt in Hlt. constructor; [done|].
      rewrite <- insert_sorted_perm. constructor; [lia | done].
    + apply Z.ltb_ge in Hlt.
      assert (Hxy : by_key x y <= 0) by (apply cmp_not_lt; unfold by_key in *; lia).
      constructor; [by constructor|].
      constructor; [done|].
      eapply Forall_impl; [exact Hy|]. intros z Hz. simpl in Hz.
      by apply cmp_trans with (key y).
Qed.

Lemma Array_sort_sorted (l : list A) :
  StronglySorted (fun a b => cmp (key a) (key b) <= 0)
                 (Array_sort (fun a b => cmp (key a) (key b)) l).
Proof.
  unfold Array_sort. induction l as [|x l IH]; simpl.
  - constructor.
  - by apply insert_sorted_sorted.
Qed.

(** Stability: the elements whose key ties with a given one keep the
    order they had. *)
Lemma insert_sorted_filter_tie (k : K) (x : A) (l : list A) :
  filter (fun a => cmp (key a) k = 0)
         (insert_sorted (fun a b => by_key a b <? 0) x l)
  = filter (fun a => cmp (key a) k = 0) (x :: l).
Proof.
  induction l as [|y l IH]; simpl; [done|].
  destruct (by_key y x <? 0) eqn:Hlt; [|done].
  apply Z.ltb_lt in Hlt. unfold by_key in Hlt.
  rewrite !filter_cons in *. rewrite IH.
  destruct (decide (cmp (key x) k = 0)) as [Hx|Hx]; [|done].
  destruct (decide (cmp (key y) k = 0)) as [Hy|Hy]; [|done].
  exfalso.
  assert (Hky : cmp k (key y) <= 0) by (apply cmp_not_lt; lia).
  assert (Hxy : cmp (key x) (key y) <= 0) by (apply cmp_trans with k; lia).
  apply cmp_antisym in Hlt. lia.
Qed.

Lemma Array_sort_stable (k : K) (l : list A) :
  filter (fun a => cmp (key a) k = 0) (Array_sort (fun a b => cmp (key a) (key b)) l)
  = filter (fun a => cmp (key a) k = 0) l.
Proof.
  unfold Array_sort. induction l as [|x l IH]; simpl; [done|].
  rewrite insert_sorted_filter_tie, !filter_cons, IH. done.
Qed.
End SortByKey.


(** The order of the character codes is a consistent comparator. *)
Lemma codeunit_compare_antisym (a b : string) :
  codeunit_compare a b < 0 <-> 0 < codeunit_compare b a.
Proof.
  unfold codeunit_compare. rewrite (String.compare_antisym a b).
  destruct (String.compare b a); simpl; lia.
Qed.

Lemma codeunit_compare_le (a b : string) :
  codeunit_compare a b <= 0 <-> String.le a b.
Proof.
  unfold codeunit_compare, String.le, String.leb.
  destruct (String.compare a b); simpl; intuition (done || lia).
Qed.

Lemma codeunit_compare_trans (a b c : string) :
  codeunit_compare a b <= 0 -> codeunit_compare b c <= 0 ->
  codeunit_compare a c <= 0.
Proof.
  rewrite !codeunit_compare_le. intros. by etrans.
Qed.


(** *** ChunkWriter: the pages *)

Lemma page_count_lt (n size k : nat) :
  (1 <= size)%nat -> (k * size < n)%nat <-> (k < page_count n size)%nat.
Proof.
  intros Hsize. unfold page_count. split.
  - intros Hk. unfold lt. apply Nat.div_le_lower_bound; nia.
  - intros Hk.
    pose proof (Nat.Div0.mul_div_le (n + size - 1) size). nia.
Qed.

Lemma slice_length {A : Type} (i j : nat) (l : list A) :
  length (slice i j l) = Nat.min (j - i) (length l - i).
Proof. unfold slice. by rewrite length_take, length_drop. Qed.

Lemma spec_pages_lengths {A : Type} (size : nat) (l : list A) :
  map (fun pg => length (snd pg)) (spec_pages size l)
  = map (fun k => Nat.min size (length l - k * size))
        (seq 0 (page_count (length l) size)).
Proof.
  unfold spec_pages. rewrite map_map. apply map_ext. intros k. simpl.
  rewrite slice_length. f_equal. lia.
Qed.

Lemma spec_pages_concat {A : Type} (size : nat) (l : list A) :
  (1 <= size)%nat -> concat (map snd (spec_pages size l)) = l.
Proof.
  intros Hsize. unfold spec_pages. rewrite map_map. simpl.
  assert (H : forall p, concat (map (fun k => slice (k * size) (k * size + size) l)
                                    (seq 0 p)) = take (p * size) l).
  { induction p as [|p IH]; [done|].
    rewrite seq_S, map_app, concat_app, IH. simpl. rewrite app_nil_r.
    unfold slice. replace (p * size + size - p * size)%nat with size by lia.
    rewrite take_take_drop. f_equal. lia. }
  rewrite H. apply take_ge.
  destruct (Nat.le_gt_cases (length l) (page_count (length l) size * size)) as [|Hlt];
    [done|].
  apply page_count_lt in Hlt; [lia|done].
Qed.

Lemma spec_pages_lookup {A : Type} (size : nat) (l : list A) (k : nat) (pg : nat * list A) :
  spec_pages size l !! k = Some pg ->
  pg = (k, slice (k * size) (k * size + size) l)
  /\ (k < page_count (length l) size)%nat.
Proof.
  unfold spec_pages. rewrite list_lookup_fmap.
  destruct (seq 0 (page_count (length l) size) !! k) as [j|] eqn:Hj; [|done].
  apply lookup_seq in Hj as [-> Hlt]. simpl. intros [= <-]. done.
Qed.

Section ChunkLoop.
Variable byteSize : chunkData -> nat.
Variable yr : Z.
Variable properties : list property.
Variable size : nat.
Hypothesis size_pos : (1 <= size)%nat.

Let page_id (k : nat) : string := padStart3 (pretty (Z.of_nat k)).

Let pages_from (k : nat) : list (nat * list property) :=
  map (fun j => (j, slice (j * size) (j * size + size) properties))
      (seq k (page_count (length properties) size - k)).

(** With enough fuel the loop ends, having written one chunk for each
    page, in order. *)
Lemma chunk_loop_pages (fuel k : nat) (chunks : list chunkInfo) (w : world) :
  (length properties - k * size < fuel)%nat ->
  chunk_loop byteSize fuel yr properties size (k * size) chunks w
  = Some (chunks ++ map (fun pg => chunk_info byteSize yr (page_id (fst pg)) (snd pg))
                        (pages_from k),
          fold_left (fun w' pg => write_chunk byteSize yr (page_id (fst pg)) (snd pg) w')
                    (pages_from k) w).
Proof.
  revert k chunks w. induction fuel as [|fuel IH]; intros k chunks w Hfuel; [lia|].
  cbn [chunk_loop]. unfold pages_from.
  destruct (k * size <? length properties)%nat eqn:Hk.
  - apply Nat.ltb_lt in Hk.
    pose proof (proj1 (page_count_lt _ _ _ size_pos) Hk) as HkP.
    replace (page_count (length properties) size - k)%nat
      with (S (page_count (length properties) size - S k)) by lia.
    cbn [seq map fold_left fst snd].
    replace (k * size + size)%nat with (S k * size)%nat by lia.
    rewrite IH by lia.
    unfold chunk_id, page_id, pages_from.
    rewrite Nat.div_mul by lia.
    replace (S k * size)%nat with (k * size + size)%nat by lia.
    by rewrite <- app_assoc.
  - apply Nat.ltb_ge in Hk.
    assert (~ (k < page_count (length properties) size)%nat) as HkP.
    { intros HkP. apply page_count_lt in HkP; [lia|done]. }
    replace (page_count (length properties) size - k)%nat with 0%nat by lia.
    simpl. by rewrite app_nil_r.
Qed.
End ChunkLoop.

Lemma make_config_size (c : user_config) : (1 <= recordsPerChunk (make_config c))%nat.
Proof.
  unfold make_config, or_nat. simpl.
  destruct (cfg_recordsPerChunk c) as [[|n]|]; lia.
Qed.
Lemma string_app_assoc (a b c : string) : (a +:+ b) +:+ c = a +:+ (b +:+ c).
Proof.
  induction a as [|x a IH]; [done|].
  change (String x ((a +:+ b) +:+ c) = String x (a +:+ (b +:+ c))).
  by rewrite IH.
Qed.

Lemma address_path_unfold (yr address : string) :
  address_path yr address
  = yr +:+ "/addresses/" +:+ hashAddress address +:+ ".json".
Proof. unfold address_path, path_join. by rewrite !string_app_assoc. Qed.

Lemma manifest_path_not_address (yr address : string) :
  path_join yr "manifest.json" <> address_path yr address.
Proof.
  rewrite address_path_unfold. unfold path_join. intros H.
  apply (inj (String.app yr)) in H. discriminate H.
Qed.

Lemma write_address_files_other (yr : Z) (groups : jsobject (list property))
    (w : world) (path : string) :
  (forall address, path <> address_path (pretty yr) address) ->
  files (write_address_files yr groups w) !! path = files w !! path.
Proof.
  intros Hpath. unfold write_address_files.
  generalize (Object_entries groups) as entries.
  intros entries. revert w.
  induction entries as [|[key props] entries IH]; intros w; [done|].
  cbn [fold_left]. rewrite IH.
  destruct (1 <? length props)%nat; [|done].
  cbn [writeFile files]. apply lookup_insert_ne. intros Heq. by apply (Hpath key).
Qed.

Lemma write_address_files_state (yr : Z) (groups : jsobject (list property))
    (w : world) :
  counters (write_address_files yr groups w) = counters w
  /\ prototypes (write_address_files yr groups w) = prototypes w.
Proof.
  unfold write_address_files.
  generalize (Object_entries groups) as entries.
  intros entries. revert w.
  induction entries as [|[key props] entries IH]; intros w; [done|].
  cbn [fold_left]. match goal with |- context [fold_left _ entries ?w1] =>
    destruct (IH w1) as [-> ->] end.
  by destruct (1 <? length props)%nat.
Qed.

(** Whether it returns or throws, [createAddressFiles] touches nothing
    but address files, and neither the counters nor the shared objects. *)
Lemma createAddressFiles_other (yr : Z) (properties : list property)
    (w : world) (path : string) :
  (forall address, path <> address_path (pretty yr) address) ->
  files (snd (createAddressFiles yr properties w)) !! path = files w !! path.
Proof.
  intros Hpath. unfold createAddressFiles.
  destruct (group_by_address _ _); [|done].
  by apply write_address_files_other.
Qed.

Lemma createAddressFiles_state (yr : Z) (properties : list property) (w : world) :
  counters (snd (createAddressFiles yr properties w)) = counters w
  /\ prototypes (snd (createAddressFiles yr properties w)) = prototypes w.
Proof.
  unfold createAddressFiles.
  destruct (group_by_address _ _); [|done].
  apply write_address_files_state.
Qed.

(** *** IndexBuilder *)

Lemma obj_get_set_eq {V : Type} (o : jsobject V) (k : string) (v : V) :
  obj_get (obj_set o k v) k = Some v.
Proof.
  induction o as [|[k' v'] o IH]; simpl.
  - by rewrite String.eqb_refl.
  - destruct (String.eqb k' k) eqn:Hk; simpl; rewrite Hk; done.
Qed.

Lemma obj_get_set_ne {V : Type} (o : jsobject V) (k k' : string) (v : V) :
  k <> k' -> obj_get (obj_set o k v) k' = obj_get o k'.
Proof.
  intros Hne. induction o as [|[k0 v0] o IH]; simpl.
  - apply String.eqb_neq in Hne. by rewrite Hne.
  - destruct (String.eqb k0 k) eqn:Hk; simpl.
    + apply String.eqb_eq in Hk as ->.
      apply String.eqb_neq in Hne. by rewrite Hne.
    + by rewrite IH.
Qed.

(** With nothing on the prototype, a plain object inherits the members
    of the prototype and nothing else. *)
Lemma inherit_clean (r : realm) (k : string) :
  on_prototype r = [] ->
  inherit r k = if inherited_name k then Some (IMember k) else None.
Proof. intros H. unfold inherit. rewrite H. by destruct (inherited_name k). Qed.

Lemma truthy_inherited_clean (r : realm) (k : string) :
  on_prototype r = [] -> truthy_inherited r k = inherited_name k.
Proof.
  intros H. unfold truthy_inherited. rewrite inherit_clean by done.
  by destruct (inherited_name k).
Qed.

(** One entry, with nothing on the prototype and an address other than
    [__proto__]: the prototype stays as it is; an address that is not a
    name of the prototype gets one more in its year, and every other
    count of the index is left as it is. *)
Lemma count_entry_clean (yr : Z) (idx : MasterIndex) (r : realm) (addr : string) :
  on_prototype r = [] -> plain_keys idx -> addr <> "__proto__" ->
  exists idx' r',
    count_entry yr idx r addr = Some (idx', r')
    /\ on_prototype r' = [] /\ plain_keys idx'
    /\ forall a y,
         index_count idx' a y
         = if decide (addr <> "" /\ inherited_name addr = false /\ a = addr /\ y = yr)
           then Some (S (stored idx a y))
           else index_count idx a y.
Proof.
  intros Hclean Hplain Hproto. unfold count_entry.
  destruct (nonempty addr) eqn:Hne; cbn [negb].
  2:{ apply nonempty_false in Hne. exists idx, r. split_and!; try done.
      intros a y. case_decide; [tauto | done]. }
  apply nonempty_true in Hne. rewrite Hclean. cbn [obj_get].
  assert (Hset : forall byYear : jsobject nat,
             (obj_get idx addr = Some byYear \/ (obj_get idx addr = None /\ byYear = [])) ->
             inherited_name addr = false ->
             plain_keys (obj_set idx addr
                           (obj_set byYear (pretty yr)
                              (bump (obj_get byYear (pretty yr)) None)))
             /\ forall a y,
                  index_count (obj_set idx addr
                                 (obj_set byYear (pretty yr)
                                    (bump (obj_get byYear (pretty yr)) None))) a y
                  = if decide (addr <> "" /\ inherited_name addr = false
                               /\ a = addr /\ y = yr)
                    then Some (S (stored idx a y))
                    else index_count idx a y).
  { intros byYear Hby Hname. split.
    - intros k Hk. rewrite obj_get_set_ne by congruence. by apply Hplain.
    - intros a y. unfold stored, index_count.
      destruct (decide (a = addr)) as [->|Ha].
      + rewrite obj_get_set_eq. cbn [mbind option_bind].
        destruct (decide (y = yr)) as [->|Hy].
        * rewrite obj_get_set_eq. rewrite decide_True by done.
          destruct Hby as [->|[-> ->]]; cbn [mbind option_bind obj_get default];
            [by destruct (obj_get byYear (pretty yr)) | done].
        * rewrite obj_get_set_ne by (intros H; by apply (inj pretty) in H).
          rewrite decide_False by tauto.
          by destruct Hby as [->|[-> ->]].
      + rewrite obj_get_set_ne by done. rewrite decide_False by tauto. done. }
  destruct (obj_get idx addr) as [byYear|] eqn:Hget.
  - assert (Hname : inherited_name addr = false).
    { destruct (inherited_name addr) eqn:Hn; [|done].
      rewrite (Hplain _ Hn) in Hget. discriminate Hget. }
    destruct (Hset byYear (or_introl eq_refl) Hname) as [Hp Hc].
    by eexists _, _.
  - rewrite inherit_clean by done.
    destruct (inherited_name addr) eqn:Hname.
    + eexists _, _. split; [reflexivity|]. split_and!.
      * unfold on_prototype. rewrite obj_get_set_ne by done. exact Hclean.
      * done.
      * intros a y. rewrite decide_False; [done|]. intros (_ & Hn & _). congruence.
    + destruct (Hset [] (or_intror (conj eq_refl eq_refl)) eq_refl) as [Hp Hc].
      by eexists _, _.
Qed.

Lemma count_address_cons (a : string) (prop : gmap string value)
    (props : list (gmap string value)) :
  count_address a (prop :: props)
  = ((if decide (entry_address prop = Some a) then 1 else 0)
     + count_address a props)%nat.
Proof. unfold count_address. rewrite filter_cons. by case_decide. Qed.

Lemma count_address_app (a : string) (l l' : list (gmap string value)) :
  count_address a (l ++ l') = (count_address a l + count_address a l')%nat.
Proof. unfold count_address. by rewrite filter_app, length_app. Qed.

(** The entries of one chunk. *)
Lemma count_entries_clean (yr : Z) (props : list (gmap string value))
    (idx : MasterIndex) (r : realm) :
  Forall countable props ->
  on_prototype r = [] -> plain_keys idx -> no_zero idx ->
  exists idx' r',
    count_entries yr props idx r = (idx', r', true)
    /\ on_prototype r' = [] /\ plain_keys idx' /\ no_zero idx'
    /\ (forall y, index_count idx' "" y = index_count idx "" y)
    /\ forall a y, a <> "" ->
         stored idx' a y
         = (stored idx a y
            + if decide (y = yr /\ inherited_name a = false)
              then count_address a props else 0)%nat.
Proof.
  intros Hprops. revert idx r.
  induction Hprops as [|prop props (addr & Haddr & Hproto) _ IH];
    intros idx r Hclean Hplain Hz.
  - exists idx, r. split_and!; try done. intros a y _.
    change (count_address a []) with 0%nat. case_decide; lia.
  - cbn [count_entries]. rewrite Haddr.
    destruct (count_entry_clean yr idx r addr Hclean Hplain Hproto)
      as (idx1 & r1 & -> & Hclean1 & Hplain1 & Hc1).
    assert (He1 : forall y, index_count idx1 "" y = index_count idx "" y).
    { intros y. rewrite Hc1. apply decide_False. intros (Hne & _ & <- & _). done. }
    assert (Hz1 : no_zero idx1).
    { intros a y. rewrite Hc1.
      destruct (decide (addr <> "" /\ _)); [discriminate | apply Hz]. }
    destruct (IH idx1 r1 Hclean1 Hplain1 Hz1)
      as (idx2 & r2 & -> & Hclean2 & Hplain2 & Hz2 & He2 & Hc2).
    exists idx2, r2. split_and!; try done.
    { intros y. by rewrite He2. }
    intros a y Ha.
    rewrite Hc2 by done.
    assert (Hs : stored idx1 a y
                 = if decide (addr <> "" /\ inherited_name addr = false
                              /\ a = addr /\ y = yr)
                   then S (stored idx a y) else stored idx a y).
    { unfold stored at 1. rewrite Hc1. by destruct (decide (addr <> "" /\ _)). }
    rewrite Hs, count_address_cons, Haddr.
    destruct (decide (y = yr /\ inherited_name a = false)) as [[-> Hn]|Hno].
    + destruct (decide (a = addr)) as [->|Hne].
      * rewrite decide_True by done. rewrite decide_True by done. lia.
      * rewrite decide_False by tauto.
        rewrite decide_False by congruence. lia.
    + case_decide as Hd; [|lia].
      destruct Hd as (_ & Hn & -> & ->). tauto.
Qed.

Lemma count_chunks_clean (fs : gmap string artifact) (yr : Z)
    (chunks : list chunkInfo) (idx : MasterIndex) (r : realm) :
  Forall (countable_chunk fs yr) chunks ->
  on_prototype r = [] -> plain_keys idx -> no_zero idx ->
  exists idx' r',
    count_chunks fs yr chunks idx r = (idx', r', true)
    /\ on_prototype r' = [] /\ plain_keys idx' /\ no_zero idx'
    /\ (forall y, index_count idx' "" y = index_count idx "" y)
    /\ forall a y, a <> "" ->
         stored idx' a y
         = (stored idx a y
            + if decide (y = yr /\ inherited_name a = false)
              then count_address a (flat_map (chunk_entries fs yr) chunks)
              else 0)%nat.
Proof.
  intros Hchunks. revert idx r.
  induction Hchunks as [|chunk chunks (chunkData & Hread & Hprops) _ IH];
    intros idx r Hclean Hplain Hz.
  - exists idx, r. split_and!; try done. intros a y _. cbn [flat_map].
    change (count_address a []) with 0%nat. case_decide; lia.
  - cbn [count_chunks flat_map]. rewrite Hread.
    destruct (count_entries_clean yr _ idx r Hprops Hclean Hplain Hz)
      as (idx1 & r1 & -> & Hclean1 & Hplain1 & Hz1 & He1 & Hc1).
    destruct (IH idx1 r1 Hclean1 Hplain1 Hz1)
      as (idx2 & r2 & -> & Hclean2 & Hplain2 & Hz2 & He2 & Hc2).
    exists idx2, r2. split_and!; try done.
    { intros y. by rewrite He2. }
    intros a y Ha.
    rewrite Hc2, Hc1 by done.
    unfold chunk_entries at 2. rewrite Hread.
    rewrite count_address_app. destruct (decide (y = yr /\ _)); lia.
Qed.

Lemma count_address_zero (a : string) (l : list (gmap string value)) :
  count_address a l = 0%nat <-> Forall (fun prop => entry_address prop <> Some a) l.
Proof.
  induction l as [|prop l IH].
  - split; [constructor | done].
  - rewrite count_address_cons, Forall_cons. case_decide; [|rewrite <- IH; tauto].
    split; [lia | tauto].
Qed.

(** A year that can be read and has no entry with the address
    [__proto__] is one whose entries can all be counted. *)
Lemma readable_countable (fs : gmap string artifact) (yr : Z) :
  readable_year fs yr ->
  count_address "__proto__" (year_entries fs yr) = 0%nat ->
  exists manifest,
    fs !! path_join (pretty yr) "manifest.json" = Some (AManifest manifest)
    /\ Forall (countable_chunk fs yr) (manifest_chunks manifest).
Proof.
  intros (manifest & Hread & Hchunks). unfold year_entries. rewrite Hread.
  intros Hzero. exists manifest. split; [done|].
  induction Hchunks as [|chunk chunks (chunkData & Hchunk & Hprops) _ IH];
    [constructor|].
  cbn [flat_map] in Hzero. rewrite count_address_app in Hzero.
  constructor; [|apply IH; lia].
  exists chunkData. split; [done|].
  assert (Hc : count_address "__proto__" (chunk_properties chunkData) = 0%nat).
  { unfold chunk_entries in Hzero. rewrite Hchunk in Hzero. lia. }
  apply count_address_zero in Hc.
  rewrite Forall_forall in Hprops, Hc. apply Forall_forall. intros prop Hin.
  destruct (Hprops prop Hin) as [a Ha]. exists a. split; [done|].
  intros ->. by apply (Hc prop Hin).
Qed.

Lemma count_year_clean (fs : gmap string artifact) (idx : MasterIndex) (r : realm)
    (yr : Z) :
  readable_year fs yr ->
  count_address "__proto__" (year_entries fs yr) = 0%nat ->
  on_prototype r = [] -> plain_keys idx -> no_zero idx ->
  on_prototype (snd (count_year fs (idx, r) yr)) = []
  /\ plain_keys (fst (count_year fs (idx, r) yr))
  /\ no_zero (fst (count_year fs (idx, r) yr))
  /\ (forall y, index_count (fst (count_year fs (idx, r) yr)) "" y
                = index_count idx "" y)
  /\ forall a y, a <> "" ->
       stored (fst (count_year fs (idx, r) yr)) a y
       = (stored idx a y
          + if decide (y = yr /\ inherited_name a = false)
            then count_address a (year_entries fs yr) else 0)%nat.
Proof.
  intros Hyear Hzero Hclean Hplain Hz.
  destruct (readable_countable fs yr Hyear Hzero) as (manifest & Hread & Hchunks).
  unfold count_year, year_entries. rewrite Hread. cbn [fst snd].
  destruct (count_chunks_clean fs yr _ idx r Hchunks Hclean Hplain Hz)
    as (idx1 & r1 & -> & H). exact H.
Qed.

Lemma build_index_clean (fs : gmap string artifact) (years : list Z)
    (idx : MasterIndex) (r : realm) :
  NoDup years ->
  Forall (readable_year fs) years ->
  Forall (fun yr => count_address "__proto__" (year_entries fs yr) = 0%nat) years ->
  on_prototype r = [] -> plain_keys idx -> no_zero idx ->
  on_prototype (snd (fold_left (count_year fs) years (idx, r))) = []
  /\ plain_keys (fst (fold_left (count_year fs) years (idx, r)))
  /\ no_zero (fst (fold_left (count_year fs) years (idx, r)))
  /\ (forall y, index_count (fst (fold_left (count_year fs) years (idx, r))) "" y
                = index_count idx "" y)
  /\ forall a y, a <> "" ->
       stored (fst (fold_left (count_year fs) years (idx, r))) a y
       = (stored idx a y
          + if decide (y ∈ years /\ inherited_name a = false)
            then count_address a (year_entries fs y) else 0)%nat.
Proof.
  intros Hnd Hyears. revert idx r.
  induction Hyears as [|yr years Hyr _ IH]; intros idx r Hzero Hclean Hplain Hz.
  - cbn [fold_left fst snd]. split_and!; try done.
  - apply NoDup_cons in Hnd as [Hfresh Hnd].
    apply Forall_cons in Hzero as [Hzero1 Hzero].
    cbn [fold_left].
    destruct (count_year_clean fs idx r yr Hyr Hzero1 Hclean Hplain Hz)
      as (Hclean1 & Hplain1 & Hz1 & He1 & Hc1).
    destruct (count_year fs (idx, r) yr) as [idx1 r1]. cbn [fst snd] in *.
    destruct (IH Hnd idx1 r1 Hzero Hclean1 Hplain1 Hz1)
      as (Hclean2 & Hplain2 & Hz2 & He2 & Hc2).
    split_and!; try done.
    { intros y. by rewrite He2. }
    intros a y Ha. rewrite Hc2, Hc1 by done.
    destruct (decide (y = yr)) as [->|Hy].
    + destruct (decide (yr ∈ years /\ _)) as [[Hin _]|_]; [done|].
      destruct (inherited_name a) eqn:Hn.
      * rewrite !decide_False by (intros [_ H]; discriminate H). lia.
      * rewrite !decide_True by (split; [done || apply list_elem_of_here | done]).
        lia.
    + rewrite (decide_False (P := y = yr /\ _)) by tauto.
      destruct (decide (y ∈ years /\ inherited_name a = false)) as [[Hin Hn]|Hno].
      * rewrite decide_True by (split; [by apply list_elem_of_further | done]). lia.
      * rewrite decide_False; [lia|]. intros [Hin Hn]. apply Hno. split; [|done].
        apply elem_of_cons in Hin as [->|Hin]; [done | done].
Qed.

(** What the loop over the years builds from an empty index. *)
Lemma build_index_counts (fs : gmap string artifact) (years : list Z) (r : realm) :
  NoDup years ->
  Forall (readable_year fs) years ->
  on_prototype r = [] ->
  Forall (fun yr => count_address "__proto__" (year_entries fs yr) = 0%nat) years ->
  (forall addr yr,
      addr <> "" ->
      index_count (fst (build_index fs years r)) addr yr
      = match (if decide (yr ∈ years /\ inherited_name addr = false)
               then count_address addr (year_entries fs yr)
               else 0%nat) with
        | O => None
        | n => Some n
        end)
  /\ plain_keys (fst (build_index fs years r))
  /\ (forall yr, index_count (fst (build_index fs years r)) "" yr = None)
  /\ on_prototype (snd (build_index fs years r)) = [].
Proof.
  intros Hnd Hread Hclean Hzero.
  assert (Hp0 : plain_keys []) by done.
  assert (Hz0 : no_zero []) by done.
  destruct (build_index_clean fs years [] r Hnd Hread Hzero Hclean Hp0 Hz0)
    as (Hclean' & Hplain & Hz & Hempty & Hcount).
  fold (build_index fs years r) in Hclean', Hplain, Hz, Hempty, Hcount.
  set (built := build_index fs years r) in *.
  split_and!; [|exact Hplain|intros yr; by rewrite Hempty|exact Hclean'].
  intros addr yr Haddr. specialize (Hcount addr yr Haddr).
  specialize (Hz addr yr). unfold stored in Hcount. simpl in Hcount.
  destruct (index_count _ addr yr) as [[|n]|]; simpl in Hcount; try done;
    rewrite <- Hcount; done.
Qed.

(** X23. The counts of the master index. When the years processed are
    distinct, as the members of a set are, the manifest and the chunks of
    each can be read, nothing has been put on [Object.prototype], and no
    entry has the address [__proto__], the master index that the index
    builder writes holds, for every lowercased address that is not a
    property name of [Object.prototype] and every processed year, exactly
    the number of entries of that year's chunks with that address: the
    count itself when there is at least one entry, and no key otherwise.
    It holds nothing under a property name of [Object.prototype], such as
    [constructor], whatever the chunks hold; nothing for other years;
    nothing under the empty address; and the prototype is left as it
    was. *)
Theorem createOptimizedIndices_counts (w : world) :
  NoDup (yearsProcessed (counters w)) ->
  Forall (readable_year (files w)) (yearsProcessed (counters w)) ->
  on_prototype (prototypes w) = [] ->
  (forall yr, yr ∈ yearsProcessed (counters w) ->
              count_address "__proto__" (year_entries (files w) yr) = 0%nat) ->
  exists masterIndex,
    files (createOptimizedIndices w) !! "master-address-index.json"
    = Some (AIndex masterIndex)
    /\ (forall addr yr,
          addr <> "" -> inherited_name addr = false ->
          yr ∈ yearsProcessed (counters w) ->
          index_count masterIndex addr yr
          = match count_address addr (year_entries (files w) yr) with
            | O => None
            | n => Some n
            end)
    /\ (forall addr, inherited_name addr = true -> obj_get masterIndex addr = None)
    /\ (forall addr yr,
          yr ∉ yearsProcessed (counters w) ->
          index_count masterIndex addr yr = None)
    /\ (forall yr, index_count masterIndex "" yr = None)
    /\ on_prototype (prototypes (createOptimizedIndices w)) = [].
Proof.
  intros Hnd Hread Hclean Hproto.
  assert (Hzero : Forall (fun yr => count_address "__proto__"
                                      (year_entries (files w) yr) = 0%nat)
                         (yearsProcessed (counters w))).
  { apply Forall_forall. exact Hproto. }
  destruct (build_index_counts (files w) _ (prototypes w) Hnd Hread Hclean Hzero)
    as (Hget & Hplain & Hempty & Hclean').
  set (built := build_index (files w) (yearsProcessed (counters w)) (prototypes w))
    in *.
  exists (fst built). split; [apply lookup_insert_eq|].
  split_and!.
  - intros addr yr Haddr Hname Hin. rewrite Hget by done. by rewrite decide_True.
  - exact Hplain.
  - intros addr yr Hout.
    destruct (decide (addr = "")) as [->|Haddr].
    + by rewrite Hempty.
    + rewrite Hget by done. rewrite decide_False; [done | tauto].
  - exact Hempty.
  - exact Hclean'.
Qed.

Lemma createOptimizedIndices_counts_witness :
  exists masterIndex,
    files (createOptimizedIndices two_years) !! "master-address-index.json"
    = Some (AIndex masterIndex)
    /\ index_count masterIndex "7 elm st" 2020 = Some 2%nat
    /\ index_count masterIndex "7 elm st" 2021 = Some 1%nat
    /\ index_count masterIndex "103 rawson st" 2021 = None.
Proof.
  assert (Hnd : NoDup (yearsProcessed (counters two_years))).
  { change (NoDup [2020; 2021]).
    apply NoDup_cons. split; [|apply NoDup_singleton].
    rewrite list_elem_of_singleton. discriminate. }
  assert (Hread : Forall (readable_year (files two_years))
                         (yearsProcessed (counters two_years))).
  { repeat constructor.
    - eexists. split; [vm_compute; reflexivity|].
      repeat constructor. eexists. split; [vm_compute; reflexivity|].
      repeat constructor; eexists; vm_compute; reflexivity.
    - eexists. split; [vm_compute; reflexivity|].
      repeat constructor. eexists. split; [vm_compute; reflexivity|].
      repeat constructor; eexists; vm_compute; reflexivity. }
  assert (Hproto : forall yr, yr ∈ yearsProcessed (counters two_years) ->
             count_address "__proto__" (year_entries (files two_years) yr) = 0%nat).
  { intros yr Hin. change (yr ∈ [2020; 2021]) in Hin.
    apply elem_of_cons in Hin as [->|Hin]; [by vm_compute|].
    apply list_elem_of_singleton in Hin as ->. by vm_compute. }
  destruct (createOptimizedIndices_counts two_years Hnd Hread eq_refl Hproto)
    as (masterIndex & Hfile & Hcount & _).
  exists masterIndex. split; [exact Hfile|].
  split; [|split].
  - rewrite Hcount;
      [vm_compute; reflexivity | discriminate | reflexivity | apply list_elem_of_here].
  - rewrite Hcount;
      [vm_compute; reflexivity | discriminate | reflexivity
      | apply list_elem_of_further, list_elem_of_here].
  - rewrite Hcount;
      [vm_compute; reflexivity | discriminate | reflexivity
      | apply list_elem_of_further, list_elem_of_here].
Defined.

(** *** QueryService: fetches *)

Lemma try_catch_returns {A : Type} (m : M A) (a : A) (c : cache) :
  exists v c', try_catch m (ret a) c = (Return v, c').
Proof.
  unfold try_catch, ret. destruct (m c) as [[v|msg] c']; eauto.
Qed.

Section FetchFacts.
Variable cfg : config.
Variable https_get : string -> http_outcome.
Variable JSON_parse : string -> option artifact.

Lemma coherent_refl (c : cache) : coherent cfg https_get JSON_parse c c.
Proof. by repeat split. Qed.

Lemma coherent_trans (c1 c2 c3 : cache) :
  coherent cfg https_get JSON_parse c1 c2 ->
  coherent cfg https_get JSON_parse c2 c3 ->
  coherent cfg https_get JSON_parse c1 c3.
Proof.
  intros (Ha & ? & ? & ?) (Hb & ? & ? & ?).
  split; [intros p; by rewrite Hb | repeat split; congruence].
Qed.

(** A fetch resolves, with what the cache and the store determine, and
    leaves a cache that makes every fetch resolve as before. *)
Lemma fetchGitHubFile_served (filepath : string) (c : cache) :
  exists c',
    fetchGitHubFile cfg https_get JSON_parse filepath c
    = (Return (served cfg https_get JSON_parse c filepath), c')
    /\ coherent cfg https_get JSON_parse c c'.
Proof.
  unfold fetchGitHubFile, served.
  destruct (github_ c !! filepath) as [cached|] eqn:Hc.
  { exists c. split; [done | apply coherent_refl]. }
  destruct (https_get (raw_url cfg filepath)) as [|statusCode body] eqn:Hget.
  { exists c. split; [done | apply coherent_refl]. }
  destruct (statusCode =? 200)%nat eqn:Hcode; cbn [negb].
  2:{ exists c. split; [done | apply coherent_refl]. }
  destruct (JSON_parse body) as [parsed|] eqn:Hparse.
  2:{ exists c. split; [done | apply coherent_refl]. }
  eexists. split; [reflexivity|].
  repeat split; cbn [github_ search_ property_ price_]. intros p.
  unfold served. cbn [github_].
  destruct (decide (filepath = p)) as [<-|Hne].
  - by rewrite lookup_insert_eq, Hc, Hget, Hcode, Hparse.
  - by rewrite lookup_insert_ne.
Qed.

(** C8. A fetch never throws: it always settles with a value. On a
    cache miss it settles with [null], leaving the cache as it was,
    when the request errors, when the status is not 200, and when the
    body does not parse. When every fetch fails in one of these ways
    and nothing is cached, the four query operations return an empty
    result; and whatever the store and the cache hold, none of them
    throws. *)
Theorem fetchGitHubFile_resolves
    (Date_time : value -> option Z) (StringToNumber : string -> number)
    (inherits : realm) (spreads : nat -> bool)
    (filepath : string) (c : cache) :
  (exists v c',
      fetchGitHubFile cfg https_get JSON_parse filepath c = (Return v, c'))
  /\ (github_ c !! filepath = None ->
      fetch_fails cfg https_get JSON_parse filepath ->
      fetchGitHubFile cfg https_get JSON_parse filepath c = (Return None, c))
  /\ (forall query address minPrice maxPrice suburb yr limit,
        (exists v c',
            searchAddressFromGitHub cfg https_get JSON_parse Date_time
                                    query limit c = (Return v, c'))
        /\ (exists v c',
               getPropertyFromGitHub cfg https_get JSON_parse inherits spreads
                                     address c
               = (Return v, c'))
        /\ (exists v c',
               searchPriceFromGitHub cfg https_get JSON_parse StringToNumber
                                     minPrice maxPrice suburb yr limit c
               = (Return v, c'))
        /\ (exists v c',
               getAvailableYearsFromGitHub cfg https_get JSON_parse c
               = (Return v, c')))
  /\ ((forall path, fetch_fails cfg https_get JSON_parse path) ->
      forall query address minPrice maxPrice suburb yr limit,
        searchAddressFromGitHub cfg https_get JSON_parse Date_time
                                query limit empty_cache
        = (Return [], empty_cache)
        /\ getPropertyFromGitHub cfg https_get JSON_parse inherits spreads
                                  address empty_cache
           = (Return [], empty_cache)
        /\ fst (searchPriceFromGitHub cfg https_get JSON_parse StringToNumber
                                      minPrice maxPrice suburb yr limit empty_cache)
           = Return []
        /\ getAvailableYearsFromGitHub cfg https_get JSON_parse empty_cache
           = (Return [], empty_cache)).
Proof.
  assert (Hfail : forall path c0,
             github_ c0 !! path = None ->
             fetch_fails cfg https_get JSON_parse path ->
             fetchGitHubFile cfg https_get JSON_parse path c0 = (Return None, c0)).
  { intros path c0 Hmiss Hf. unfold fetchGitHubFile. rewrite Hmiss.
    destruct Hf as [->|[(code & body & -> & Hcode)|(body & -> & Hparse)]].
    - done.
    - apply Nat.eqb_neq in Hcode. by rewrite Hcode.
    - by rewrite Hparse. }
  split_and!.
  - destruct (fetchGitHubFile_served filepath c) as (c' & -> & _). eauto.
  - apply Hfail.
  - intros q a lo hi sub y lim. split_and!.
    + unfold searchAddressFromGitHub.
      destruct (search_ c !! toLowerCase q); [eauto|].
      apply try_catch_returns.
    + unfold getPropertyFromGitHub.
      destruct (property_ c !! toLowerCase a); [eauto|].
      apply try_catch_returns.
    + unfold searchPriceFromGitHub.
      destruct (price_ c !! _); [eauto|].
      apply try_catch_returns.
    + apply try_catch_returns.
  - intros Hall q a minPrice maxPrice sub yr limit.
    assert (Hidx : forall c0, github_ c0 = ∅ ->
               fetchGitHubFile cfg https_get JSON_parse "master-address-index.json" c0
               = (Return None, c0)).
    { intros c0 Hc0. apply Hfail; [by rewrite Hc0 | apply Hall]. }
    assert (Hyears : forall c0, github_ c0 = ∅ ->
               getAvailableYearsFromGitHub cfg https_get JSON_parse c0
               = (Return [], c0)).
    { intros c0 Hc0. unfold getAvailableYearsFromGitHub, try_catch, bind.
      by rewrite Hidx. }
    split_and!.
    + unfold searchAddressFromGitHub. cbn [empty_cache search_].
      rewrite lookup_empty. unfold try_catch, bind. by rewrite Hidx.
    + unfold getPropertyFromGitHub. cbn [empty_cache property_].
      rewrite lookup_empty. unfold try_catch, bind. by rewrite Hidx.
    + assert (Hyear : forall y results,
                 price_years cfg https_get JSON_parse StringToNumber [y]
                             minPrice maxPrice sub limit results empty_cache
                 = (Return results, empty_cache)).
      { intros y results. cbn [price_years].
        unfold bind, searchYearByPrice, try_catch, bind.
        rewrite Hfail by (done || apply Hall). cbn [truthy_artifact negb].
        unfold ret. rewrite app_nil_r.
        by destruct (limit * 2 <=? length results)%nat. }
      unfold searchPriceFromGitHub. cbn [empty_cache price_].
      rewrite lookup_empty. unfold try_catch, bind.
      destruct yr as [[|y|y]|].
      * rewrite Hyears by done. by destruct limit.
      * unfold ret at 1. cbn [slice drop take Nat.sub]. rewrite Hyear.
        by destruct limit.
      * unfold ret at 1. cbn [slice drop take Nat.sub]. rewrite Hyear.
        by destruct limit.
      * rewrite Hyears by done. by destruct limit.
    + by apply Hyears.
Qed.
End FetchFacts.

Lemma fetchGitHubFile_resolves_witness :
  fetchGitHubFile rawson_cfg (fun _ => Response 404 "404: Not Found")
                  (fun _ => None) "master-address-index.json" empty_cache
  = (Return None, empty_cache)
  /\ searchAddressFromGitHub rawson_cfg (fun _ => Response 404 "404: Not Found")
                             (fun _ => None) fixture_Date_time "rawson" 10 empty_cache
     = (Return [], empty_cache).
Proof.
  assert (Hall : forall path,
             fetch_fails rawson_cfg (fun _ => Response 404 "404: Not Found")
                         (fun _ => None) path).
  { intros path. right. left. exists 404%nat, "404: Not Found".
    split; [reflexivity | discriminate]. }
  pose proof (fetchGitHubFile_resolves rawson_cfg
                (fun _ => Response 404 "404: Not Found") (fun _ => None)
                fixture_Date_time (fun _ => S754_nan) [] (fun _ => true)
                "master-address-index.json" empty_cache) as (_ & Hnull & _ & Hempty).
  split.
  - apply Hnull; [reflexivity | apply Hall].
  - apply (Hempty Hall "rawson" "" 0 0 None None 10%nat).
Defined.

(** *** QueryService: the address search *)

(** Unfold the plumbing of the monad and reduce. *)
Ltac run_monad := cbv beta iota delta [bind ret throw try_catch].

Lemma filterM_same_address (address : string) (entries : list (gmap string value))
    (c : cache) :
  filterM (same_address address) entries c
  = (match address_matches address entries with
     | Some matches => Return matches
     | None => Throw "TypeError"
     end, c).
Proof.
  unfold address_matches.
  induction entries as [|p entries IH]; [done|].
  cbn [filterM forallb].
  destruct (entry_address p) as [a|] eqn:Ha.
  - assert (Hs : same_address address p = ret (String.eqb a (toLowerCase address)))
      by (unfold same_address; by rewrite Ha).
    rewrite Hs. rewrite bool_decide_eq_true_2 by eauto. cbn [andb].
    run_monad. rewrite IH.
    destruct (forallb _ entries); [|done].
    rewrite filter_cons, Ha.
    destruct (String.eqb a (toLowerCase address)) eqn:Heq.
    + apply String.eqb_eq in Heq as ->. by rewrite decide_True.
    + apply String.eqb_neq in Heq. rewrite decide_False; [done | congruence].
  - assert (Hs : same_address address p = throw "TypeError")
      by (unfold same_address; by rewrite Ha).
    rewrite Hs. rewrite bool_decide_eq_false_2 by (intros [? ?]; done). done.
Qed.

Lemma lookup_chunks_ext (f g : string -> option artifact) (yr address : string)
    (chunks : list chunkInfo) :
  (forall p, f p = g p) ->
  lookup_chunks f yr address chunks = lookup_chunks g yr address chunks.
Proof.
  intros Hfg. induction chunks as [|chunk chunks IH]; [done|].
  cbn [lookup_chunks]. by rewrite Hfg, IH.
Qed.

Lemma lookup_address_year_ext (f g : string -> option artifact) (address yr : string) :
  (forall p, f p = g p) ->
  lookup_address_year f address yr = lookup_address_year g address yr.
Proof.
  intros Hfg. unfold lookup_address_year. rewrite !Hfg.
  destruct (truthy_artifact (g (address_path yr address))); [done|].
  destruct (negb (truthy_artifact (g (path_join yr "manifest.json")))); [done|].
  destruct (g (path_join yr "manifest.json")) as [[| m | | |]|]; try done.
  by rewrite (lookup_chunks_ext f g).
Qed.

Section SearchFacts.
Variable cfg : config.
Variable https_get : string -> http_outcome.
Variable JSON_parse : string -> option artifact.
Variable Date_time : value -> option Z.

Lemma properties_of_entries (doc : option artifact) (c : cache) :
  properties_of doc c
  = (match entries_of doc with
     | Some entries => Return entries
     | None => Throw "TypeError"
     end, c).
Proof. by destruct doc as [[]|]. Qed.

Lemma scan_chunks_lookup (yr address : string) (chunks : list chunkInfo) (c : cache) :
  exists c',
    scan_chunks cfg https_get JSON_parse yr address chunks c
    = (match lookup_chunks (served cfg https_get JSON_parse c) yr address chunks with
       | Some l => Return l
       | None => Throw "TypeError"
       end, c')
    /\ coherent cfg https_get JSON_parse c c'.
Proof.
  revert c. induction chunks as [|chunk chunks IH]; intros c.
  { exists c. split; [done | apply coherent_refl]. }
  cbn [scan_chunks lookup_chunks]. unfold bind at 1.
  destruct (fetchGitHubFile_served cfg https_get JSON_parse
              (path_join yr (info_filename chunk)) c) as (c1 & -> & Hc1).
  destruct (IH c1) as (c2 & Hscan & Hc2).
  rewrite (lookup_chunks_ext _ (served cfg https_get JSON_parse c)) in Hscan
    by apply Hc1.
  destruct (negb (truthy_artifact _)).
  { exists c2. split; [done | by apply coherent_trans with c1]. }
  unfold bind at 1. rewrite properties_of_entries.
  destruct (entries_of _) as [entries|]; cbn [mbind option_bind].
  2:{ exists c1. done. }
  unfold bind at 1. rewrite filterM_same_address.
  destruct (address_matches address entries) as [matches|].
  2:{ exists c1. done. }
  destruct (0 <? length matches)%nat.
  - exists c1. done.
  - exists c2. split; [done | by apply coherent_trans with c1].
Qed.

(** The lookup of one (address, year) returns what the documents
    served determine, and never throws. *)
Lemma loadPropertiesForAddressYear_lookup (address yr : string) (c : cache) :
  exists c',
    loadPropertiesForAddressYear cfg https_get JSON_parse address yr c
    = (Return (lookup_address_year (served cfg https_get JSON_parse c) address yr), c')
    /\ coherent cfg https_get JSON_parse c c'.
Proof.
  unfold loadPropertiesForAddressYear, lookup_address_year, try_catch.
  unfold bind at 1.
  destruct (fetchGitHubFile_served cfg https_get JSON_parse
              (address_path yr address) c) as (c1 & -> & Hc1).
  destruct (truthy_artifact (served cfg https_get JSON_parse c (address_path yr address))).
  - unfold bind at 1. rewrite properties_of_entries.
    destruct (entries_of _) as [entries|]; cbn [mbind option_bind fmap option_map].
    2:{ exists c1. done. }
    unfold bind at 1. rewrite filterM_same_address.
    destruct (address_matches address entries) as [matches|]; exists c1; done.
  - unfold bind at 1.
    destruct (fetchGitHubFile_served cfg https_get JSON_parse
                (path_join yr "manifest.json") c1) as (c2 & -> & Hc2).
    assert (Hc12 := coherent_trans cfg https_get JSON_parse _ _ _ Hc1 Hc2).
    rewrite (proj1 Hc1).
    destruct (negb (truthy_artifact _)).
    { exists c2. done. }
    unfold bind at 1.
    destruct (served cfg https_get JSON_parse c (path_join yr "manifest.json"))
      as [[| m | | |]|]; try (exists c2; done).
    cbn [chunks_of]. unfold ret at 1.
    destruct (scan_chunks_lookup yr address (slice 0 3 (manifest_chunks m)) c2)
      as (c3 & -> & Hc3).
    rewrite (lookup_chunks_ext _ (served cfg https_get JSON_parse c)) by apply Hc12.
    destruct (lookup_chunks _ yr address _).
    + exists c3. split; [done | by apply coherent_trans with c2].
    + exists c3. split; [done | by apply coherent_trans with c2].
Qed.

Lemma search_years_accumulate (address : string) (years : list string)
    (limit : nat) (results : list (gmap string value)) (c : cache) :
  exists c',
    search_years cfg https_get JSON_parse address years limit results c
    = (Return (accumulate limit
                 (map (lookup_address_year (served cfg https_get JSON_parse c) address)
                      years)
                 results), c')
    /\ coherent cfg https_get JSON_parse c c'.
Proof.
  revert results c. induction years as [|yr years IH]; intros results c.
  { exists c. split; [done | apply coherent_refl]. }
  cbn [search_years map accumulate]. unfold bind at 1, try_catch, bind at 1.
  destruct (loadPropertiesForAddressYear_lookup address yr c) as (c1 & -> & Hc1).
  unfold ret at 1.
  destruct (limit * 2 <=? length _)%nat.
  { exists c1. done. }
  destruct (IH (results ++ lookup_address_year (served cfg https_get JSON_parse c)
                              address yr) c1) as (c2 & -> & Hc2).
  exists c2. split; [|by apply coherent_trans with c1].
  do 3 f_equal. apply map_ext. intros y. apply lookup_address_year_ext, Hc1.
Qed.
End SearchFacts.




Lemma slice_0 {A : Type} (n : nat) (l : list A) : slice 0 n l = take n l.
Proof. unfold slice. by rewrite Nat.sub_0_r. Qed.

Section SortedOn.
Context {A : Type}.
Variable P : A -> Prop.
Variable before : A -> A -> bool.
Variable le : A -> A -> Prop.
Hypothesis before_le : forall a b, P a -> P b -> before a b = true -> le a b.
Hypothesis not_before_le : forall a b, P a -> P b -> before b a = false -> le a b.
Hypothesis le_trans : forall a b c, P a -> P b -> P c -> le a b -> le b c -> le a c.


End SortedOn.




Lemma lower_char_idem (c : ascii) : lower_char (lower_char c) = lower_char c.
Proof.
  unfold lower_char. destruct (is_upper c) eqn:Hc; [|by rewrite Hc].
  unfold is_upper in *. apply andb_true_iff in Hc as [H1 H2].
  apply Nat.leb_le in H1, H2.
  rewrite nat_ascii_embedding by lia.
  replace (65 <=? nat_of_ascii c + 32)%nat with true by (symmetry; apply Nat.leb_le; lia).
  replace (nat_of_ascii c + 32 <=? 90)%nat with false by (symmetry; apply Nat.leb_gt; lia).
  done.
Qed.

Lemma toLowerCase_idem (s : string) : toLowerCase (toLowerCase s) = toLowerCase s.
Proof.
  unfold toLowerCase. induction s as [|c s IH]; [done|].
  cbn. by rewrite lower_char_idem, IH.
Qed.

Lemma decompress_address (p : gmap string value) (a : string) :
  entry_address p = Some a ->
  exists s, prop_get (decompressProperty p) "address" = VStr s /\ toLowerCase s = a.
Proof.
  unfold entry_address.
  change (prop_get (decompressProperty p) "address")
    with (js_or (js_or (prop_get p "a") (prop_get p "address")) (VStr "")).
  destruct (js_or _ _) as [| | |s]; try done. intros [= <-]. eauto.
Qed.

Lemma address_matches_address (address : string) (entries matches : list (gmap string value))
    (r : gmap string value) :
  address_matches address entries = Some matches ->
  r ∈ map decompressProperty matches ->
  exists s, prop_get r "address" = VStr s /\ toLowerCase s = toLowerCase address.
Proof.
  unfold address_matches. destruct (forallb _ entries); [|done].
  intros [= <-] Hr. apply list_elem_of_fmap in Hr as (p & -> & Hp).
  apply list_elem_of_filter in Hp as [Hp _]. by apply decompress_address.
Qed.

Lemma lookup_chunks_address (fetched : string -> option artifact) (yr address : string)
    (chunks : list chunkInfo) (l : list (gmap string value)) (r : gmap string value) :
  lookup_chunks fetched yr address chunks = Some l -> r ∈ l ->
  exists s, prop_get r "address" = VStr s /\ toLowerCase s = toLowerCase address.
Proof.
  induction chunks as [|chunk chunks IH]; cbn [lookup_chunks].
  - intros [= <-] Hr. by apply not_elem_of_nil in Hr.
  - destruct (negb (truthy_artifact _)); [exact IH|].
    destruct (entries_of _) as [entries|]; cbn [mbind option_bind]; [|done].
    destruct (address_matches address entries) as [matches|] eqn:Hm; [|done].
    destruct (0 <? length matches)%nat; [|exact IH].
    intros [= <-]. by apply (address_matches_address address entries matches).
Qed.

Lemma lookup_address_year_address (fetched : string -> option artifact)
    (address yr : string) (r : gmap string value) :
  r ∈ lookup_address_year fetched address yr ->
  exists s, prop_get r "address" = VStr s /\ toLowerCase s = toLowerCase address.
Proof.
  unfold lookup_address_year.
  destruct (truthy_artifact (fetched (address_path yr address))).
  - destruct (entries_of _) as [entries|]; cbn; [|by intros ?%not_elem_of_nil].
    destruct (address_matches address entries) as [matches|] eqn:Hm; cbn;
      [|by intros ?%not_elem_of_nil].
    by apply (address_matches_address address entries matches).
  - destruct (negb (truthy_artifact _)); [by intros ?%not_elem_of_nil|].
    destruct (fetched (path_join yr "manifest.json")) as [[| m | | |]|];
      try by intros ?%not_elem_of_nil.
    destruct (lookup_chunks fetched yr address _) as [l|] eqn:Hl;
      [|by intros ?%not_elem_of_nil].
    by apply (lookup_chunks_address fetched yr address
                (slice 0 3 (manifest_chunks m)) l).
Qed.



Section SearchLoop.
Variable cfg : config.
Variable https_get : string -> http_outcome.
Variable JSON_parse : string -> option artifact.
Variable Date_time : value -> option Z.





End SearchLoop.
Section SearchTheorem.
Variable cfg : config.
Variable https_get : string -> http_outcome.
Variable JSON_parse : string -> option artifact.
Variable Date_time : value -> option Z.



End SearchTheorem.


(** C4. The years that the address search examines, at an index entry
    with sales in 2018, 2019, 2020 and 2021, all dates valid: the search
    returns the sales of 2020, 2019 and 2018 and not the sale of 2021,
    where the three most recent years, which the design asks for and the
    price search takes, give those of 2021, 2020 and 2019. *)
Theorem searchAddressFromGitHub_not_most_recent :
  sale_dates (fst (searchAddressFromGitHub rawson_cfg rawson_https_get
                     rawson_JSON_parse fixture_Date_time "Rawson" 10 empty_cache))
  = [VStr "2020-06-15"; VStr "2019-12-30"; VStr "2018-03-01"]
  /\ sale_dates (Return (spec_searchByAddress
                           (served rawson_cfg rawson_https_get rawson_JSON_parse
                                   empty_cache)
                           fixture_Date_time most_recent_first rawson_index
                           "Rawson" 10))
     = [VStr "2021-09-09"; VStr "2020-06-15"; VStr "2019-12-30"]
  /\ fst (searchAddressFromGitHub rawson_cfg rawson_https_get
            rawson_JSON_parse fixture_Date_time "Rawson" 10 empty_cache)
     <> Return (spec_searchByAddress
                  (served rawson_cfg rawson_https_get rawson_JSON_parse empty_cache)
                  fixture_Date_time most_recent_first rawson_index "Rawson" 10).
Proof.
  split; [by vm_compute|]. split; [by vm_compute|].
  intros H. apply (f_equal sale_dates) in H. vm_compute in H. discriminate H.
Qed.


(** *** The address files and their names *)

Lemma substring_0_length (n : nat) (s : string) :
  (String.length (String.substring 0 n s) <= n)%nat.
Proof.
  revert s. induction n as [|n IH]; intros [|c s]; cbn; try lia.
  specialize (IH s). lia.
Qed.

Lemma strip_b64_chars (s : string) :
  Forall (fun c => ~ stripped c) (string_chars (strip_b64 s)).
Proof.
  induction s as [|c s IH]; cbn; [constructor|].
  destruct (Ascii.eqb c "/") eqn:H1; [done|].
  destruct (Ascii.eqb c "+") eqn:H2; [done|].
  destruct (Ascii.eqb c "=") eqn:H3; [done|].
  cbn. constructor; [|done].
  apply Ascii.eqb_neq in H1, H2, H3. unfold stripped. tauto.
Qed.

Lemma substring_0_chars (P : ascii -> Prop) (n : nat) (s : string) :
  Forall P (string_chars s) -> Forall P (string_chars (String.substring 0 n s)).
Proof.
  revert s. induction n as [|n IH]; intros [|c s]; cbn; try constructor.
  - by apply Forall_cons in H as [? ?].
  - apply IH. by apply Forall_cons in H as [? ?].
Qed.

Lemma obj_get_In {V : Type} (o : jsobject V) (k : string) (v : V) :
  obj_get o k = Some v -> In (k, v) o.
Proof.
  induction o as [|[k' v'] o IH]; cbn; [done|].
  destruct (String.eqb k' k) eqn:Hk.
  - apply String.eqb_eq in Hk as ->. intros [= ->]. by left.
  - intros H. right. by apply IH.
Qed.

Lemma Object_entries_perm {V : Type} (o : jsobject V) :
  Permutation (Object_entries o) o.
Proof.
  unfold Object_entries, jsobject in *.
  rewrite <- (sort_stable_perm _ (index_entries o)).
  induction o as [|[k v] o IH]; [done|].
  unfold index_entries in *. cbn [omap list_omap fst]. rewrite filter_cons. cbn [fst].
  destruct (array_index k) as [n|] eqn:Hk; cbn.
  - rewrite decide_False by done. by constructor.
  - rewrite decide_True by done. rewrite <- Permutation_middle. by constructor.
Qed.

Lemma own_groups_fold (properties : list property)
    (groups : jsobject (list property)) (k : string) :
  obj_get
    (fold_left
       (fun addressGroups prop =>
          let addr := toLowerCase (address prop) in
          let group := default [] (obj_get addressGroups addr) in
          obj_set addressGroups addr (group ++ [prop]))
       properties groups) k
  = match obj_get groups k,
          filter (fun p => toLowerCase (address p) = k) properties with
    | Some g, l => Some (g ++ l)
    | None, [] => None
    | None, l => Some l
    end.
Proof.
  revert groups. induction properties as [|p properties IH]; intros groups.
  - cbn. destruct (obj_get groups k); [by rewrite app_nil_r | done].
  - cbn [fold_left]. rewrite IH, filter_cons.
    destruct (decide (toLowerCase (address p) = k)) as [<-|Hne].
    + rewrite obj_get_set_eq.
      destruct (obj_get groups (toLowerCase (address p))); cbn.
      * by rewrite <- app_assoc.
      * done.
    + by rewrite obj_get_set_ne.
Qed.

Lemma own_groups_get (properties : list property) (k : string) :
  obj_get (own_groups properties) k
  = match filter (fun p => toLowerCase (address p) = k) properties with
    | [] => None
    | l => Some l
    end.
Proof. unfold own_groups. by rewrite own_groups_fold. Qed.

Lemma obj_set_fresh {V : Type} (o : jsobject V) (a k : string) (x : V) :
  k <> a -> k ∈ map fst (obj_set o a x) -> k ∈ map fst o.
Proof.
  intros Hk. induction o as [|[k1 v1] o IH]; cbn.
  - intros Hin. apply list_elem_of_singleton in Hin. congruence.
  - destruct (String.eqb k1 a) eqn:Hk1; cbn; [done|].
    intros Hin. apply elem_of_cons in Hin as [->|Hin];
      [apply list_elem_of_here | apply list_elem_of_further, IH, Hin].
Qed.

Lemma obj_set_NoDup {V : Type} (o : jsobject V) (a : string) (x : V) :
  NoDup (map fst o) -> NoDup (map fst (obj_set o a x)).
Proof.
  induction o as [|[k0 v0] o IH]; cbn; intros Hnd.
  - repeat constructor. apply not_elem_of_nil.
  - apply NoDup_cons in Hnd as [Hk0 Hnd].
    destruct (String.eqb k0 a) eqn:Hk; cbn.
    + by constructor.
    + constructor; [|by apply IH].
      apply String.eqb_neq in Hk. intros Hin. by apply Hk0, (obj_set_fresh o a k0 x).
Qed.

Lemma own_groups_NoDup (properties : list property) :
  NoDup (map fst (own_groups properties)).
Proof.
  unfold own_groups. generalize (NoDup_nil_2 (A := string)).
  change (@nil string) with (map fst (@nil (string * list property))).
  generalize (@nil (string * list property)).
  induction properties as [|q l IH]; intros acc Hacc; [done|].
  cbn [fold_left]. by apply IH, obj_set_NoDup.
Qed.

Lemma In_obj_get {V : Type} (o : jsobject V) (k : string) (v : V) :
  NoDup (map fst o) -> In (k, v) o -> obj_get o k = Some v.
Proof.
  induction o as [|[k1 v1] o IH]; [intros _ []|].
  cbn. intros Hnd Hin. apply NoDup_cons in Hnd as [Hk1 Hnd].
  destruct Hin as [[= -> ->]|Hin].
  - by rewrite String.eqb_refl.
  - destruct (String.eqb k1 k) eqn:Hk; [|by apply IH].
    apply String.eqb_eq in Hk as ->. exfalso. apply Hk1.
    apply list_elem_of_fmap. exists (k, v). split; [done|].
    by apply list_elem_of_In.
Qed.

(** The grouping of [createAddressFiles]. Once it has thrown it stays
    thrown. *)
Lemma group_fold_None (r : realm) (properties : list property) :
  fold_left
    (fun addressGroups prop =>
       match addressGroups with
       | Some groups => group_address r groups prop
       | None => None
       end)
    properties None
  = None.
Proof. induction properties as [|p properties IH]; [done | exact IH]. Qed.

Lemma group_fold_plain (r : realm) (properties : list property)
    (groups : jsobject (list property)) :
  plain_addresses r properties ->
  fold_left
    (fun addressGroups prop =>
       match addressGroups with
       | Some groups => group_address r groups prop
       | None => None
       end)
    properties (Some groups)
  = Some (fold_left
            (fun addressGroups prop =>
               let addr := toLowerCase (address prop) in
               let group := default [] (obj_get addressGroups addr) in
               obj_set addressGroups addr (group ++ [prop]))
            properties groups).
Proof.
  intros Hplain. revert groups.
  induction Hplain as [|p properties Hp _ IH]; intros groups; [done|].
  cbn [fold_left]. unfold group_address at 2. rewrite Hp.
  destruct (obj_get groups (toLowerCase (address p))) as [group|] eqn:Hget;
    cbn [default]; apply IH.
Qed.

(** When no address is one for which a plain object inherits a truthy
    value, the grouping returns the groups of the own keys. *)
Lemma group_by_address_plain (r : realm) (properties : list property) :
  plain_addresses r properties ->
  group_by_address r properties = Some (own_groups properties).
Proof. apply group_fold_plain. Qed.

Lemma group_fold_throws (r : realm) (properties : list property)
    (groups : jsobject (list property)) :
  (forall k, is_Some (obj_get groups k) -> truthy_inherited r k = false) ->
  ~ plain_addresses r properties ->
  fold_left
    (fun addressGroups prop =>
       match addressGroups with
       | Some groups => group_address r groups prop
       | None => None
       end)
    properties (Some groups)
  = None.
Proof.
  revert groups. induction properties as [|p properties IH]; intros groups Hown Hno.
  { exfalso. apply Hno. constructor. }
  cbn [fold_left]. unfold group_address at 2.
  destruct (truthy_inherited r (toLowerCase (address p))) eqn:Hp.
  - destruct (obj_get groups (toLowerCase (address p))) as [group|] eqn:Hget.
    + rewrite Hown in Hp by (by eexists). discriminate Hp.
    + apply group_fold_None.
  - assert (Hrest : ~ plain_addresses r properties).
    { intros Hrest. apply Hno. by constructor. }
    assert (Hkeys : forall v k,
               is_Some (obj_get (obj_set groups (toLowerCase (address p)) v) k) ->
               truthy_inherited r k = false).
    { intros v k Hk. destruct (decide (toLowerCase (address p) = k)) as [<-|Hne];
        [done|]. rewrite obj_get_set_ne in Hk by done. by apply Hown. }
    destruct (obj_get groups (toLowerCase (address p))) as [group|];
      (apply IH; [apply Hkeys | done]).
Qed.

(** Otherwise it throws. *)
Lemma group_by_address_throws (r : realm) (properties : list property) :
  ~ plain_addresses r properties -> group_by_address r properties = None.
Proof.
  apply group_fold_throws. intros k [v Hv]. discriminate Hv.
Qed.

Lemma address_file_literal (addressProps : list property) :
  {| file_address :=
       match addressProps with
       | p :: _ => address p
       | [] => EmptyString
       end;
     file_count := length addressProps;
     file_properties :=
       map (fun p => json_object (compressProperty p)) addressProps |}
  = address_file addressProps.
Proof. reflexivity. Qed.

(** What the loop over the groups leaves under a path: the file of the
    last group of more than one record with that path, and what was there
    before when there is no such group. *)
Lemma write_address_files_last (yr : Z) (groups : jsobject (list property))
    (w : world) (path : string) :
  files (write_address_files yr groups w) !! path
  = match last (filter (fun kg => (1 < length (snd kg))%nat
                                  /\ address_path (pretty yr) (fst kg) = path)
                       (Object_entries groups)) with
    | Some kg => Some (AAddressFile (address_file (snd kg)))
    | None => files w !! path
    end.
Proof.
  unfold write_address_files.
  generalize (Object_entries groups) as entries. unfold jsobject. intros entries.
  induction entries as [|[key ps] entries IH] using rev_ind; [done|].
  rewrite fold_left_app, filter_app. cbn [fold_left].
  rewrite filter_cons, filter_nil. cbn [fst snd].
  destruct (decide ((1 < length ps)%nat /\ address_path (pretty yr) key = path))
    as [[Hlen <-]|Hno].
  - rewrite last_snoc. apply Nat.ltb_lt in Hlen. rewrite Hlen.
    cbn [writeFile files snd]. apply lookup_insert_eq.
  - rewrite app_nil_r, <- IH.
    destruct (1 <? length ps)%nat eqn:Hlen; [|done].
    apply Nat.ltb_lt in Hlen. cbn [writeFile files].
    apply lookup_insert_ne. tauto.
Qed.

(** The groups hold, under each address, the records of that address. *)
Lemma own_groups_entries (properties : list property) (key : string)
    (ps : list property) :
  (key, ps) ∈ Object_entries (own_groups properties) <->
  ps = filter (fun p => toLowerCase (address p) = key) properties /\ ps <> [].
Proof.
  rewrite (Object_entries_perm (own_groups properties)). split.
  - intros Hin. apply list_elem_of_In in Hin.
    apply (In_obj_get _ _ _ (own_groups_NoDup properties)) in Hin.
    rewrite own_groups_get in Hin.
    destruct (filter _ properties) eqn:Hf; [done|]. by injection Hin as <-.
  - intros [-> Hne]. apply list_elem_of_In, obj_get_In.
    rewrite own_groups_get. by destruct (filter _ properties).
Qed.

(** *** Decimal numerals and paths *)

Lemma digits_value_app (acc : Z) (a b : string) :
  digits_value acc (a +:+ b) = digits_value (digits_value acc a) b.
Proof.
  revert acc. induction a as [|c a IH]; intros acc; [done|].
  change (String c a +:+ b) with (String c (a +:+ b)). cbn [digits_value]. apply IH.
Qed.

Lemma all_digits_app (a b : string) :
  all_digits (a +:+ b) = all_digits a && all_digits b.
Proof.
  induction a as [|c a IH]; [done|].
  change (String c a +:+ b) with (String c (a +:+ b)). cbn [all_digits].
  by rewrite IH, andb_assoc.
Qed.

Lemma pretty_N_go_app (x : N) (s : string) :
  pretty_N_go x s = pretty_N_go x "" +:+ s.
Proof.
  revert s. induction (N.lt_wf_0 x) as [x _ IH]; intros s.
  destruct (decide (x = 0)%N) as [->|Hx]; [by rewrite !pretty_N_go_0|].
  assert (Hlt : (x `div` 10 < x)%N) by (apply N.div_lt; lia).
  rewrite !(pretty_N_go_step x) by lia.
  rewrite (IH _ Hlt (String _ s)), (IH _ Hlt (String _ "")).
  by rewrite string_app_assoc.
Qed.

Lemma pretty_N_char_digit (x : N) :
  (x < 10)%N ->
  is_digit (pretty_N_char x) = true /\ digit_val (pretty_N_char x) = Z.of_N x.
Proof.
  intros Hx.
  assert (x = 0 \/ x = 1 \/ x = 2 \/ x = 3 \/ x = 4 \/ x = 5 \/ x = 6 \/ x = 7
          \/ x = 8 \/ x = 9)%N as H by lia.
  repeat destruct H as [->|H]; try subst x; by vm_compute.
Qed.

Lemma pretty_N_go_digits (x : N) (acc : Z) :
  all_digits (pretty_N_go x "") = true
  /\ exists k : nat,
       digits_value acc (pretty_N_go x "") = acc * 10 ^ Z.of_nat k + Z.of_N x.
Proof.
  revert acc. induction (N.lt_wf_0 x) as [x _ IH]; intros acc.
  destruct (decide (x = 0)%N) as [->|Hx].
  { rewrite pretty_N_go_0. split; [done|]. exists 0%nat. cbn. lia. }
  rewrite pretty_N_go_step by lia. rewrite pretty_N_go_app.
  destruct (IH (x `div` 10)%N (N.div_lt x 10 ltac:(lia) eq_refl) acc) as [Hd [k Hk]].
  destruct (pretty_N_char_digit (x `mod` 10)%N) as [Hc Hv]; [by apply N.mod_lt|].
  split.
  - rewrite all_digits_app, Hd. cbn [all_digits]. by rewrite Hc.
  - exists (S k). rewrite digits_value_app, Hk. cbn [digits_value]. rewrite Hv.
    rewrite Nat2Z.inj_succ, Z.pow_succ_r by lia.
    pose proof (N.div_mod x 10 ltac:(lia)) as Hdm.
    rewrite N2Z.inj_mod. rewrite N2Z.inj_div in *.
    pose proof (Z.div_mod (Z.of_N x) 10 ltac:(lia)). 
    change (Z.of_N 10) with 10. lia.
Qed.

(** A numeral that [pretty] writes is read back by [digits_value]. *)
Lemma pretty_N_digits (n : N) :
  all_digits (pretty n) = true /\ digits_value 0 (pretty n) = Z.of_N n
  /\ nonempty (pretty n) = true.
Proof.
  unfold pretty, pretty_N. destruct (decide (n = 0)%N) as [->|Hn]; [done|].
  destruct (pretty_N_go_digits n 0) as [Hd [k Hk]]. split_and!; [done|lia|].
  rewrite pretty_N_go_step by lia. rewrite pretty_N_go_app.
  by destruct (pretty_N_go (n `div` 10) "").
Qed.

Lemma pretty_Z_digits (z : Z) :
  0 <= z ->
  all_digits (pretty z) = true /\ digits_value 0 (pretty z) = z
  /\ nonempty (pretty z) = true.
Proof.
  intros Hz. destruct z as [|p|p]; [done| |lia].
  change (pretty (Z.pos p)) with (pretty (N.pos p)).
  destruct (pretty_N_digits (N.pos p)) as (? & ? & ?). split_and!; [done|lia|done].
Qed.

Lemma all_digits_no_slash (s : string) : all_digits s = true -> no_slash s = true.
Proof.
  induction s as [|c s IH]; [done|]. cbn. intros H.
  apply andb_true_iff in H as [Hc Hs]. rewrite (IH Hs), andb_true_r.
  destruct (Ascii.eqb_spec c "/") as [->|]; [by vm_compute in Hc | done].
Qed.

Lemma pretty_Z_no_slash (z : Z) : no_slash (pretty z) = true.
Proof.
  destruct z as [|p|p]; [done| |].
  - apply all_digits_no_slash. by destruct (pretty_Z_digits (Z.pos p)) as [? _].
  - change (pretty (Z.neg p)) with ("-" +:+ pretty (N.pos p)).
    change ("-" +:+ pretty (N.pos p)) with (String "-" (pretty (N.pos p))).
    cbn [no_slash]. apply all_digits_no_slash. by destruct (pretty_N_digits (N.pos p)).
Qed.

Lemma path_join_inj (a b x y : string) :
  no_slash a = true -> no_slash b = true ->
  path_join a x = path_join b y -> a = b /\ x = y.
Proof.
  unfold path_join. revert b. induction a as [|c a IH]; intros [|d b] Ha Hb H.
  - by injection H.
  - change ("" +:+ "/" +:+ x) with (String "/" x) in H.
    change (String d b +:+ "/" +:+ y) with (String d (b +:+ "/" +:+ y)) in H.
    injection H as <- _. by vm_compute in Hb.
  - change ("" +:+ "/" +:+ y) with (String "/" y) in H.
    change (String c a +:+ "/" +:+ x) with (String c (a +:+ "/" +:+ x)) in H.
    injection H as -> _. by vm_compute in Ha.
  - change (String c a +:+ "/" +:+ x) with (String c (a +:+ "/" +:+ x)) in H.
    change (String d b +:+ "/" +:+ y) with (String d (b +:+ "/" +:+ y)) in H.
    injection H as -> H. cbn in Ha, Hb.
    apply andb_true_iff in Ha as [_ Ha]. apply andb_true_iff in Hb as [_ Hb].
    destruct (IH b Ha Hb H) as [-> ->]. done.
Qed.

(** The files of two years never share a path. *)
Lemma year_path_inj (y1 y2 : Z) (x y : string) :
  path_join (pretty y1) x = path_join (pretty y2) y -> y1 = y2 /\ x = y.
Proof.
  intros H. apply path_join_inj in H as [H ->]; try apply pretty_Z_no_slash.
  split; [|done]. by apply (inj pretty).
Qed.

Lemma digits_value_padStart3 (s : string) :
  digits_value 0 (padStart3 s) = digits_value 0 s.
Proof.
  unfold padStart3. destruct s as [|c1 [|c2 [|c3 s]]]; done.
Qed.

(** Two pages never share a chunk id. *)
Lemma chunk_id_inj (j k : nat) :
  padStart3 (pretty (Z.of_nat j)) = padStart3 (pretty (Z.of_nat k)) -> j = k.
Proof.
  intros H. apply (f_equal (digits_value 0)) in H.
  rewrite !digits_value_padStart3 in H.
  destruct (pretty_Z_digits (Z.of_nat j)) as (_ & Hj & _); [lia|].
  destruct (pretty_Z_digits (Z.of_nat k)) as (_ & Hk & _); [lia|].
  lia.
Qed.

Lemma string_length_app (a b : string) :
  String.length (a +:+ b) = (String.length a + String.length b)%nat.
Proof.
  induction a as [|c a IH]; [done|].
  change (String c a +:+ b) with (String c (a +:+ b)). cbn. by rewrite IH.
Qed.

Lemma string_app_inv_tail (a b c : string) : a +:+ c = b +:+ c -> a = b.
Proof.
  revert b. induction a as [|x a IH]; intros [|y b] H; [done| | |].
  - apply (f_equal String.length) in H. rewrite !string_length_app in H. cbn in H. lia.
  - apply (f_equal String.length) in H. rewrite !string_length_app in H. cbn in H. lia.
  - change (String x a +:+ c) with (String x (a +:+ c)) in H.
    change (String y b +:+ c) with (String y (b +:+ c)) in H.
    injection H as -> H. by rewrite (IH b H).
Qed.

(** *** The record parser: dates, types and accepted records *)

(** X1. [formatDate] gives [null] exactly on a string that does not have
    8 characters, the empty string included. On 8 characters, digits or
    not, it gives the 10 characters with a hyphen after the fourth and
    after the sixth, from which the input is read back by leaving the
    hyphens out. *)
Theorem formatDate_shape (s : string) :
  (formatDate s = None <-> String.length s <> 8%nat)
  /\ (forall d, formatDate s = Some d ->
        String.length d = 10%nat
        /\ String.get 4 d = Some "-"%char
        /\ String.get 7 d = Some "-"%char
        /\ String.substring 0 4 d +:+ String.substring 5 2 d
             +:+ String.substring 8 2 d = s).
Proof.
  destruct s as [|c1 [|c2 [|c3 [|c4 [|c5 [|c6 [|c7 [|c8 [|c9 s]]]]]]]]];
    (split; [split; [cbn; intros; try lia; discriminate | intros H; cbn in *; try lia; try done]
            | intros d; cbn; intros H; try discriminate H]).
  injection H as <-. by cbn.
Qed.

Lemma split_cons (sep : ascii) (s : string) :
  exists w ws, split sep s = w :: ws.
Proof.
  induction s as [|c s (w & ws & IH)]; cbn; [by eexists _, _|].
  destruct (Ascii.eqb c sep); [by eexists _, _|].
  rewrite IH. by eexists _, _.
Qed.

Lemma split_app (sep : ascii) (a b : string) :
  split sep (a +:+ String sep b) = split sep a ++ split sep b.
Proof.
  induction a as [|c a IH].
  - change (split sep (String sep b) = [EmptyString] ++ split sep b).
    cbn [split]. by rewrite Ascii.eqb_refl.
  - change (String c a +:+ String sep b) with (String c (a +:+ String sep b)).
    cbn [split]. rewrite IH.
    destruct (Ascii.eqb c sep); [done|].
    destruct (split_cons sep a) as (w & ws & ->). done.
Qed.

Lemma field_app (fields more : list string) (i : nat) :
  (i < length fields)%nat -> field (fields ++ more) i = field fields i.
Proof. intros H. unfold field. by rewrite lookup_app_l. Qed.

(** X2. Fields after the twentieth are not read: a line with at least 20
    fields parses to the same result whatever is appended to it after a
    further semicolon. *)
Theorem parsePropertyLine_trailing (line extra : string) (yr : Z) :
  (20 <= length (split ";" line))%nat ->
  parsePropertyLine (line +:+ String ";" extra) yr = parsePropertyLine line yr.
Proof.
  intros Hlen. unfold parsePropertyLine. rewrite split_app.
  assert (Hl : (length (split ";" line ++ split ";" extra) <? 20)%nat = false).
  { apply Nat.ltb_ge. rewrite length_app. lia. }
  assert (Hl' : (length (split ";" line) <? 20)%nat = false) by by apply Nat.ltb_ge.
  rewrite Hl, Hl'.
  rewrite !(field_app (split ";" line) (split ";" extra)) by lia.
  reflexivity.
Qed.

Lemma parsePropertyLine_trailing_witness :
  parsePropertyLine (sample_line +:+ String ";" "anything;more") 2020
  = parsePropertyLine sample_line 2020.
Proof. apply parsePropertyLine_trailing. vm_compute. lia. Defined.

Lemma upper_char_idem (c : ascii) : upper_char (upper_char c) = upper_char c.
Proof. destruct c as [[] [] [] [] [] [] [] []]; reflexivity. Qed.

Lemma toUpperCase_idem (s : string) : toUpperCase (toUpperCase s) = toUpperCase s.
Proof.
  unfold toUpperCase. induction s as [|c s IH]; cbn; [done|].
  by rewrite upper_char_idem, IH.
Qed.

Lemma is_space_upper_char (c : ascii) :
  Ascii.is_space (upper_char c) = Ascii.is_space c.
Proof. destruct c as [[] [] [] [] [] [] [] []]; reflexivity. Qed.

Lemma trimStart_upper (s : string) :
  trimStart (toUpperCase s) = toUpperCase (trimStart s).
Proof.
  unfold toUpperCase. induction s as [|c s IH]; cbn [map_string trimStart]; [done|].
  rewrite is_space_upper_char. by destruct (Ascii.is_space c).
Qed.

Lemma trimEnd_upper (s : string) :
  trimEnd (toUpperCase s) = toUpperCase (trimEnd s).
Proof.
  unfold toUpperCase. induction s as [|c s IH]; cbn [map_string trimEnd]; [done|].
  rewrite IH, is_space_upper_char.
  destruct (trimEnd s); cbn [map_string]; [by destruct (Ascii.is_space c)|done].
Qed.

Lemma trimEnd_idem (s : string) : trimEnd (trimEnd s) = trimEnd s.
Proof.
  induction s as [|c s IH]; [done|]. cbn [trimEnd].
  destruct (trimEnd s) as [|d t] eqn:Ht.
  - destruct (Ascii.is_space c) eqn:Hc; [done|]. cbn [trimEnd]. by rewrite Hc.
  - cbn [trimEnd]. cbn [trimEnd] in IH. by rewrite IH.
Qed.

(** What is left after the blanks at the end are cut starts as before. *)
Lemma trimEnd_head (c : ascii) (s : string) :
  Ascii.is_space c = false -> exists t, trimEnd (String c s) = String c t.
Proof.
  intros Hc. cbn [trimEnd]. destruct (trimEnd s); rewrite ?Hc; by eexists.
Qed.

Lemma trimStart_head (s : string) :
  trimStart s = "" \/ exists c t, trimStart s = String c t /\ Ascii.is_space c = false.
Proof.
  induction s as [|c s IH]; [by left|]. cbn [trimStart].
  destruct (Ascii.is_space c) eqn:Hc; [done|]. right. by eexists _, _.
Qed.

Lemma trim_idem (s : string) : trim (trim s) = trim s.
Proof.
  unfold trim. destruct (trimStart_head s) as [->|(c & t & -> & Hc)]; [done|].
  destruct (trimEnd_head c t Hc) as [t' Ht]. rewrite Ht.
  cbn [trimStart]. rewrite Hc, <- Ht. apply trimEnd_idem.
Qed.

Lemma trim_upper (s : string) : trim (toUpperCase s) = toUpperCase (trim s).
Proof. unfold trim. by rewrite trimStart_upper, trimEnd_upper. Qed.

Lemma determinePropertyType_nonempty (nature purpose : string) :
  nonempty (determinePropertyType nature purpose) = true.
Proof.
  unfold determinePropertyType.
  repeat (match goal with |- context [if ?b then _ else _] => destruct b eqn:? end;
          try reflexivity).
  apply andb_true_iff in Heqb4 as [_ ?]. done.
Qed.

(** A price within the bounds of the validity test is a positive finite
    number. *)
Lemma valid_price_finite (x : number) :
  valid_price x = true -> exists m e, x = S754_finite false m e.
Proof.
  unfold valid_price, js_gt, js_lt. intros H. apply andb_true_iff in H as [H1 H2].
  destruct x as [s|[]| |[] m e].
  - by vm_compute in H1.
  - by vm_compute in H1.
  - by vm_compute in H2.
  - by vm_compute in H1.
  - discriminate H1.
  - by eexists _, _.
Qed.

(** X3. What every accepted record satisfies: its address and its suburb
    are not empty and hold no lower-case letter, the address has no blank
    at either end, its price is a positive finite number strictly between
    1000 and 50,000,000, its area is a number other than NaN and the
    negative zero, and its property type is not empty. *)
Theorem parsePropertyLine_accepted (line : string) (yr : Z) (p : property) :
  parsePropertyLine line yr = Some p ->
  (address p <> "" /\ toUpperCase (address p) = address p
   /\ trim (address p) = address p)
  /\ (suburb p <> "" /\ toUpperCase (suburb p) = suburb p)
  /\ (js_gt (salePrice p) (num_of_Z 1000) = true
      /\ js_lt (salePrice p) (num_of_Z 50000000) = true
      /\ exists m e, salePrice p = S754_finite false m e)
  /\ (area p <> S754_nan /\ area p <> S754_zero true)
  /\ propertyType p <> "".
Proof.
  intros Hp. apply parsePropertyLine_Some in Hp. cbv zeta in Hp.
  destruct Hp as (_ & Ha & Hs & Hprice & Haddr & Hsub & _ & Harea & _ & _ & _ & Hty).
  split_and!.
  - by apply nonempty_true.
  - by rewrite Haddr, toUpperCase_idem.
  - by rewrite Haddr, trim_upper, trim_idem.
  - by apply nonempty_true.
  - by rewrite Hsub, toUpperCase_idem.
  - unfold valid_price in Hprice. by apply andb_true_iff in Hprice as [? _].
  - unfold valid_price in Hprice. by apply andb_true_iff in Hprice as [_ ?].
  - by apply valid_price_finite.
  - rewrite Harea. unfold or_zero. by destruct (parseFloat _) as [[]| | |].
  - rewrite Harea. unfold or_zero. by destruct (parseFloat _) as [[]| | |].
  - rewrite Hty. apply nonempty_true, determinePropertyType_nonempty.
Qed.

Lemma parsePropertyLine_accepted_witness :
  exists p, parsePropertyLine sample_line 2020 = Some p
            /\ trim (address p) = address p
            /\ propertyType p <> "".
Proof.
  exists sample_record.
  assert (H : parsePropertyLine sample_line 2020 = Some sample_record) by by vm_compute.
  split; [exact H|].
  destruct (parsePropertyLine_accepted sample_line 2020 sample_record H)
    as ((_ & _ & Htrim) & _ & _ & _ & Hty).
  split; [exact Htrim | exact Hty].
Defined.

Lemma valid_price_positive (x : number) :
  valid_price x = true -> js_gt x (S754_zero false) = true.
Proof. intros H. by destruct (valid_price_finite x H) as (m & e & ->). Qed.

Lemma keep_parsed_accepted (line : string) (yr : Z) :
  keep_parsed (parsePropertyLine line yr) = option_list (parsePropertyLine line yr).
Proof.
  destruct (parsePropertyLine line yr) as [p|] eqn:Hp; [|done].
  apply parsePropertyLine_Some in Hp. cbv zeta in Hp.
  destruct Hp as (_ & Ha & _ & Hprice & _). cbn [keep_parsed option_list].
  by rewrite Ha, (valid_price_positive _ Hprice).
Qed.

Lemma startsWith_B_not_blank (line : string) :
  startsWith line "B;" = true -> nonempty (trim line) = true.
Proof.
  destruct line as [|c line]; [done|]. unfold startsWith. cbn [String.prefix].
  destruct (ascii_dec "B" c) as [<-|]; [|done]. intros _.
  unfold trim. cbn [trimStart Ascii.is_space].
  by destruct (trimEnd_head "B" line eq_refl) as [t ->].
Qed.

Lemma flat_map_filter_nil {A B : Type} (P : A -> Prop) `{!forall x, Decision (P x)}
    (f : A -> list B) (l : list A) :
  (forall x, ~ P x -> f x = []) -> flat_map f (filter P l) = flat_map f l.
Proof.
  intros Hf. induction l as [|x l IH]; [done|].
  rewrite filter_cons. cbn [flat_map]. destruct (decide (P x)) as [|Hx]; cbn [flat_map].
  - by rewrite IH.
  - by rewrite IH, (Hf x Hx).
Qed.

(** X4. The records of a file are those of its lines that start with
    [B;] and that the line parser accepts, in the order of the lines: the
    second test of [parseDATContentOptimized], on the address and on a
    positive price, never rejects a record that the line parser accepted,
    and a blank line counts for nothing. So there are no more records than
    such lines, and the records of two contents joined by a line feed are
    those of the first followed by those of the second. *)
Theorem parseDATContentOptimized_lines (content : string) (yr : Z) :
  let parse_line := fun line =>
    if startsWith line "B;" then option_list (parsePropertyLine line yr) else [] in
  parseDATContentOptimized content yr = flat_map parse_line (split "010" content)
  /\ (length (parseDATContentOptimized content yr)
      <= length (filter (fun line => startsWith line "B;" = true)
                        (split "010" content)))%nat
  /\ (forall more,
        parseDATContentOptimized (content +:+ String "010" more) yr
        = parseDATContentOptimized content yr ++ parseDATContentOptimized more yr).
Proof.
  intros parse_line.
  assert (Heq : forall c, parseDATContentOptimized c yr
                          = flat_map parse_line (split "010" c)).
  { intros c. unfold parseDATContentOptimized.
    rewrite (flat_map_filter_nil (fun l => nonempty (trim l) = true)).
    - apply flat_map_ext. intros line. unfold parse_line.
      destruct (startsWith line "B;"); [apply keep_parsed_accepted | done].
    - intros line Hblank. destruct (startsWith line "B;") eqn:HB; [|done].
      by apply startsWith_B_not_blank in HB. }
  split_and!.
  - apply Heq.
  - rewrite Heq. induction (split "010" content) as [|line lines IH]; [done|].
    cbn [flat_map]. rewrite length_app, filter_cons. unfold parse_line at 1.
    destruct (startsWith line "B;").
    + rewrite decide_True by done. cbn [length].
      destruct (parsePropertyLine line yr); cbn; lia.
    + rewrite decide_False by done. cbn. lia.
  - intros more. by rewrite !Heq, split_app, flat_map_app.
Qed.

(** *** The cleaning methods *)

Lemma trimEnd_fixed_cons (c : ascii) (s : string) :
  trimEnd (String c s) = String c s ->
  (s = "" /\ Ascii.is_space c = false) \/ (s <> "" /\ trimEnd s = s).
Proof.
  cbn [trimEnd]. destruct (trimEnd s) as [|d t] eqn:Ht.
  - destruct (Ascii.is_space c); [done|]. intros [= <-]. by left.
  - intros [= <-]. by right.
Qed.

Lemma collapse_blanks_spaced (s : string) :
  trimEnd s = s -> single_spaced (collapse_blanks s) = true.
Proof.
  induction s as [|c s IH]; [done|]. intros Hs.
  apply trimEnd_fixed_cons in Hs as [[-> Hc]|[Hne Hs]].
  { cbn [collapse_blanks]. rewrite Hc. cbn [single_spaced]. by rewrite Hc. }
  specialize (IH Hs). destruct s as [|c' s]; [done|].
  cbn [collapse_blanks] in *. destruct (Ascii.is_space c) eqn:Hc.
  - destruct (Ascii.is_space c') eqn:Hc'; [exact IH|].
    change (single_spaced (String " " ?t))
      with (Ascii.eqb " " " "
            && match t with
               | String c0 _ => negb (Ascii.is_space c0)
               | EmptyString => false
               end && single_spaced t).
    rewrite IH. cbn beta iota. by rewrite Hc'.
  - cbn [single_spaced]. by rewrite Hc.
Qed.

Lemma collapse_blanks_head (s : string) :
  starts_nonblank s = true -> starts_nonblank (collapse_blanks s) = true.
Proof.
  destruct s as [|c s]; [done|]. cbn [starts_nonblank collapse_blanks].
  destruct (Ascii.is_space c) eqn:Hc; [done|].
  cbn [starts_nonblank]. by rewrite Hc.
Qed.

Lemma collapse_blanks_fixed (s : string) :
  single_spaced s = true -> collapse_blanks s = s.
Proof.
  induction s as [|c s IH]; [done|]. cbn [single_spaced collapse_blanks].
  destruct (Ascii.is_space c) eqn:Hc.
  - intros H. apply andb_true_iff in H as [H Hs].
    apply andb_true_iff in H as [Hsp Hnext]. apply Ascii.eqb_eq in Hsp as ->.
    destruct s as [|c' s]; [done|]. apply negb_true_iff in Hnext. rewrite Hnext.
    by rewrite (IH Hs).
  - intros Hs. by rewrite (IH Hs).
Qed.

Lemma single_spaced_trimEnd (s : string) : single_spaced s = true -> trimEnd s = s.
Proof.
  induction s as [|c s IH]; [done|]. cbn [single_spaced trimEnd].
  destruct (Ascii.is_space c) eqn:Hc.
  - intros H. apply andb_true_iff in H as [H Hs].
    apply andb_true_iff in H as [_ Hnext]. rewrite (IH Hs). by destruct s.
  - intros Hs. rewrite (IH Hs). by destruct s.
Qed.

Lemma clean_trim (s : string) : clean s = true -> trim s = s.
Proof.
  unfold clean, trim. intros H. apply andb_true_iff in H as [Hh Hs].
  assert (Hstart : trimStart s = s).
  { destruct s as [|c s]; [done|]. cbn [starts_nonblank trimStart] in *.
    by apply negb_true_iff in Hh as ->. }
  rewrite Hstart. by apply single_spaced_trimEnd.
Qed.

Lemma trim_clean_head (s : string) :
  starts_nonblank (trim s) = true /\ trimEnd (trim s) = trim s.
Proof.
  split.
  - unfold trim. destruct (trimStart_head s) as [->|(c & t & -> & Hc)]; [done|].
    destruct (trimEnd_head c t Hc) as [t' ->]. cbn [starts_nonblank]. by rewrite Hc.
  - unfold trim. apply trimEnd_idem.
Qed.

Lemma collapse_blanks_upper (s : string) :
  collapse_blanks (toUpperCase s) = toUpperCase (collapse_blanks s).
Proof.
  unfold toUpperCase. induction s as [|c s IH]; [done|].
  cbn [map_string collapse_blanks]. rewrite is_space_upper_char.
  destruct (Ascii.is_space c) eqn:Hc.
  - destruct s as [|c' s]; [done|]. cbn [map_string] in *.
    rewrite is_space_upper_char. destruct (Ascii.is_space c'); [exact IH|].
    cbn [map_string]. by rewrite IH.
  - cbn [map_string]. by rewrite IH.
Qed.

(** X5. The cleaned text. [cleanText] gives a text that begins and ends
    with a character that is not a blank and in which every blank is one
    space; it leaves such a text as it is, so that cleaning twice is
    cleaning once. [cleanAddress] is the upper case of the cleaned text
    and is idempotent as well. *)
Theorem cleanText_spec (text : string) :
  clean (cleanText text) = true
  /\ (clean text = true -> cleanText text = text)
  /\ cleanText (cleanText text) = cleanText text
  /\ cleanAddress text = toUpperCase (cleanText text)
  /\ cleanAddress (cleanAddress text) = cleanAddress text.
Proof.
  assert (Hclean : clean (cleanText text) = true).
  { unfold clean, cleanText. destruct (trim_clean_head text) as [Hh He].
    by rewrite (collapse_blanks_head _ Hh), (collapse_blanks_spaced _ He). }
  assert (Hfix : forall t, clean t = true -> cleanText t = t).
  { intros t Ht. unfold cleanText. rewrite (clean_trim t Ht).
    apply collapse_blanks_fixed. unfold clean in Ht.
    by apply andb_true_iff in Ht as [_ ?]. }
  split_and!; [done | apply Hfix | by apply Hfix | done |].
  unfold cleanAddress. fold (cleanText text).
  rewrite trim_upper, collapse_blanks_upper. fold (cleanText (cleanText text)).
  by rewrite (Hfix _ Hclean), toUpperCase_idem.
Qed.

(** *** [parseArea] *)

Lemma shr_fexp_nonneg (m e : Z) (l : location) :
  0 <= m -> 0 <= shr_m (fst (shr_fexp prec emax m e l)).
Proof.
  intros Hm.
  assert (Hm0 : shr_m (shr_record_of_loc m l) = m) by (destruct l as [|[]]; done).
  unfold shr_fexp, shr.
  destruct (fexp prec emax (Zdigits2 m + e) - e) as [|n|n]; cbn [fst].
  - lia.
  - rewrite iter_shr_1_m by lia. rewrite Hm0. by apply Z.shiftr_nonneg.
  - lia.
Qed.

Lemma binary_round_aux_nonneg (m e : Z) (l : location) :
  0 <= m -> nonneg_number (binary_round_aux prec emax false m e l).
Proof.
  intros Hm. unfold binary_round_aux.
  pose proof (shr_fexp_nonneg m e l Hm) as H1.
  destruct (shr_fexp prec emax m e l) as [mrs' e']. cbn [fst] in H1.
  pose proof (round_nearest_even_ge (shr_m mrs') (loc_of_shr_record mrs')) as Hge.
  pose proof (shr_fexp_nonneg (round_nearest_even (shr_m mrs') (loc_of_shr_record mrs'))
                e' loc_Exact ltac:(lia)) as H2.
  destruct (shr_fexp prec emax _ e' loc_Exact) as [mrs'' e'']. cbn [fst] in H2.
  destruct (shr_m mrs'') as [|q|q]; [done| |lia].
  by destruct (e'' <=? emax - prec).
Qed.

Lemma decimal_to_number_nonneg (m e : Z) :
  0 <= m -> nonneg_number (decimal_to_number false m e).
Proof.
  intros Hm. unfold decimal_to_number. destruct m as [|p|p]; [done| |lia].
  destruct (0 <=? e) eqn:He.
  - unfold binary_round. destruct (shl_align _ _ _) as [mz ez].
    apply binary_round_aux_nonneg. lia.
  - apply Z.leb_gt in He. unfold SFdiv_core_binary.
    set (m' := match _ with Z0 => _ | Zpos _ => _ | Zneg _ => _ end).
    set (d := 10 ^ (- e)).
    assert (Hm' : 0 <= m').
    { unfold m'. destruct (_ - _) as [|s|s]; [lia| |lia].
      apply Z.shiftl_nonneg. lia. }
    assert (Hd : 0 < d) by (unfold d; apply Z.pow_pos_nonneg; lia).
    assert (Hq : fst (Z.div_eucl m' d) = m' / d) by reflexivity.
    destruct (Z.div_eucl m' d) as [q r]. cbn [fst] in Hq.
    apply binary_round_aux_nonneg. rewrite Hq. apply Z.div_pos; lia.
Qed.

Lemma keep_numeric_head (s : string) :
  keep_numeric s = ""
  \/ exists c t, keep_numeric s = String c t
                 /\ (is_digit c = true \/ c = "."%char).
Proof.
  induction s as [|c s IH]; [by left|]. cbn [keep_numeric].
  destruct (is_digit c) eqn:Hd; cbn [orb].
  - right. exists c, (keep_numeric s). split; [done | by left].
  - destruct (Ascii.eqb_spec c ".") as [->|]; [|done].
    right. exists "."%char, (keep_numeric s). split; [done | by right].
Qed.

Lemma numeric_head (c : ascii) (t : string) :
  is_digit c = true \/ c = "."%char ->
  Ascii.is_space c = false
  /\ read_sign (String c t) = (false, String c t)
  /\ String.prefix "Infinity" (String c t) = false.
Proof.
  intros [Hc| ->]; [|done].
  destruct c as [[] [] [] [] [] [] [] []]; try (by vm_compute in Hc); done.
Qed.

Lemma span_digits_digits (s : string) : all_digits (fst (span_digits s)) = true.
Proof.
  induction s as [|c s IH]; [done|]. cbn [span_digits].
  destruct (is_digit c) eqn:Hc; [|done].
  destruct (span_digits s) as [d r]. cbn [fst all_digits] in *. by rewrite Hc, IH.
Qed.

Lemma digits_value_nonneg (ds : string) (acc : Z) :
  all_digits ds = true -> 0 <= acc -> 0 <= digits_value acc ds.
Proof.
  revert acc. induction ds as [|c ds IH]; intros acc Hd Hacc; [done|].
  cbn [all_digits digits_value] in *. apply andb_true_iff in Hd as [Hc Hd].
  apply IH; [done|]. unfold is_digit, digit_val in *.
  apply andb_true_iff in Hc as [Hc1 Hc2]. apply Nat.leb_le in Hc1, Hc2. lia.
Qed.

(** X6. [parseArea] never gives NaN and never a negative number: a text
    without a digit gives 0, and since a minus sign is removed with
    every other character that is neither a digit nor a point, a
    negative numeral gives its absolute value. *)
Theorem parseArea_nonneg (areaStr : string) :
  nonneg_number (parseArea areaStr)
  /\ (keep_numeric areaStr = "" -> parseArea areaStr = S754_zero false)
  /\ parseArea (String "-" areaStr) = parseArea areaStr.
Proof.
  split_and!; [|by intros H; unfold parseArea; rewrite H|done].
  assert (Hor : forall x, x = S754_nan \/ nonneg_number x -> nonneg_number (or_zero x)).
  { intros x [->|Hx]; [done|]. by destruct x as [[]| | |]. }
  unfold parseArea. apply Hor.
  destruct (keep_numeric_head areaStr) as [->|(c & t & -> & Hc)]; [by left|].
  destruct (numeric_head c t Hc) as (Hsp & Hsign & Hinf).
  unfold parseFloat. cbn [trimStart]. rewrite Hsp, Hsign, Hinf.
  destruct (span_digits (String c t)) as [ip s2] eqn:Hip.
  pose proof (span_digits_digits (String c t)) as Hipd. rewrite Hip in Hipd.
  cbn [fst] in Hipd.
  assert (Hfp : exists fp s3,
             match s2 with
             | String "."%char r => span_digits r
             | _ => ("", s2)
             end = (fp, s3) /\ all_digits fp = true).
  { destruct s2 as [|d r]; [by eexists _, _|].
    destruct (Ascii.eqb_spec d ".") as [->|Hne].
    - pose proof (span_digits_digits r) as Hr.
      destruct (span_digits r) as [fp s3]. by eexists _, _.
    - exists "", (String d r). split; [|done].
      destruct d as [[] [] [] [] [] [] [] []]; try done. }
  destruct Hfp as (fp & s3 & -> & Hfpd).
  destruct (nonempty ip || nonempty fp); [|by left].
  right. apply decimal_to_number_nonneg, digits_value_nonneg; [|done].
  by rewrite all_digits_app, Hipd, Hfpd.
Qed.

(** *** The address hash: what it reads of an address *)

Lemma Buffer_from_app (s t : string) :
  Buffer_from (s +:+ t) = Buffer_from s ++ Buffer_from t.
Proof.
  induction s as [|c s IH]; [done|].
  change (String c s +:+ t) with (String c (s +:+ t)). cbn [Buffer_from app].
  by rewrite IH.
Qed.

Lemma Buffer_from_length (s : string) : length (Buffer_from s) = String.length s.
Proof. induction s as [|c s IH]; [done|]. cbn. by rewrite IH. Qed.

(** Whole groups of three bytes are encoded on their own. *)
Lemma base64_app (n : nat) (l l' : list N) :
  length l = (3 * n)%nat ->
  base64 (l ++ l') = base64 l +:+ base64 l'
  /\ String.length (base64 l) = (4 * n)%nat.
Proof.
  revert l. induction n as [|n IH]; intros l Hl.
  { destruct l; [done | cbn in Hl; lia]. }
  destruct l as [|a [|b [|c l]]]; try (cbn in Hl; lia).
  destruct (IH l) as [Happ Hlen]; [cbn in Hl; lia|].
  split.
  - change ((a :: b :: c :: l) ++ l') with (a :: b :: c :: (l ++ l')).
    cbn [base64]. rewrite Happ. reflexivity.
  - cbn [base64 String.length]. rewrite Hlen. lia.
Qed.

Lemma strip_b64_app (s t : string) :
  strip_b64 (s +:+ t) = strip_b64 s +:+ strip_b64 t.
Proof.
  induction s as [|c s IH]; [done|].
  change (String c s +:+ t) with (String c (s +:+ t)). cbn [strip_b64].
  rewrite IH. by destruct (_ || _).
Qed.

Lemma substring_0_app (s t : string) :
  String.substring 0 (String.length s) (s +:+ t) = s.
Proof.
  induction s as [|c s IH]; [by destruct t|].
  change (String c s +:+ t) with (String c (s +:+ t)). cbn. by rewrite IH.
Qed.

(** X7. The hash reads no more than the first nine characters. When the
    base64 text of the first 9 characters of an address holds none of the
    three characters that the hash strips, the hash of the address is
    that text, 12 characters long, whatever follows: two addresses that
    begin with the same 9 such characters have the same hash, and so the
    same address file. *)
Theorem hashAddress_prefix (p : string) :
  String.length p = 9%nat ->
  strip_b64 (base64 (Buffer_from p)) = base64 (Buffer_from p) ->
  (forall rest, hashAddress (p +:+ rest) = base64 (Buffer_from p))
  /\ String.length (base64 (Buffer_from p)) = 12%nat
  /\ (forall rest rest' yr,
        address_path yr (p +:+ rest) = address_path yr (p +:+ rest')).
Proof.
  intros Hlen Hstrip.
  assert (H9 : length (Buffer_from p) = (3 * 3)%nat).
  { by rewrite Buffer_from_length. }
  assert (Hhash : forall rest, hashAddress (p +:+ rest) = base64 (Buffer_from p)).
  { intros rest. unfold hashAddress. rewrite Buffer_from_app.
    destruct (base64_app 3 (Buffer_from p) (Buffer_from rest) H9) as [-> Hl].
    rewrite strip_b64_app, Hstrip.
    change 12%nat with (4 * 3)%nat. rewrite <- Hl. apply substring_0_app. }
  split_and!.
  - exact Hhash.
  - by destruct (base64_app 3 (Buffer_from p) [] H9) as [_ ->].
  - intros rest rest' yr. unfold address_path. by rewrite !Hhash.
Qed.

Lemma hashAddress_prefix_witness :
  hashAddress "103 rawson st" = hashAddress "103 rawson rd"
  /\ hashAddress "103 rawson st" = "MTAzIHJhd3Nv".
Proof.
  destruct (hashAddress_prefix "103 rawso" eq_refl eq_refl) as (H & _ & _).
  split.
  - exact (eq_trans (H "n st") (eq_sym (H "n rd"))).
  - exact (H "n st").
Defined.


(** *** The chunk writer: what a year holds once it is written *)

Section WriterFacts.
Variable localeCompare : string -> string -> Z.
Variable byteSize : chunkData -> nat.
Variable now : string.
Variable cfg : config.
Hypothesis size_pos : (1 <= recordsPerChunk cfg)%nat.

Lemma createOptimizedChunks_unfold (yr : Z) (properties : list property) (w : world) :
  let sorted := sort_by_address localeCompare properties in
  let pages := spec_pages (recordsPerChunk cfg) sorted in
  let w1 := fold_left (fun w' pg => write_chunk byteSize yr (page_chunk_id pg) (snd pg) w')
                      pages w in
  let manifest := make_manifest now yr sorted
                    (map (fun pg => chunk_info byteSize yr (page_chunk_id pg) (snd pg)) pages) in
  let w2 := writeFile (path_join (pretty yr) "manifest.json") (AManifest manifest) w1 in
  createOptimizedChunks localeCompare byteSize now cfg yr properties w
  = Some (match createAddressFiles yr sorted w2 with
          | (Return _, w3) => (Return sorted, w3)
          | (Throw msg, w3) => (Throw msg, w3)
          end).
Proof.
  intros sorted pages w1 manifest w2. unfold createOptimizedChunks. fold sorted.
  pose proof (chunk_loop_pages byteSize yr sorted (recordsPerChunk cfg) size_pos
                (S (length sorted)) 0 [] w) as Hloop.
  rewrite Nat.mul_0_l in Hloop. rewrite Hloop by lia.
  rewrite Nat.sub_0_r.
  match goal with
  | |- context [createAddressFiles yr sorted ?x] => change x with w2
  end.
  by destruct (createAddressFiles yr sorted w2) as [[[]|msg] w3].
Qed.

Lemma chunk_path_filename (yr : Z) (chunkId : string) :
  path_join (pretty yr) (chunk_filename yr chunkId) = chunk_path yr chunkId.
Proof. reflexivity. Qed.

Lemma chunk_path_inj (yr : Z) (j k : nat) (pj pk : list property) :
  chunk_path yr (page_chunk_id (j, pj)) = chunk_path yr (page_chunk_id (k, pk)) -> j = k.
Proof.
  unfold chunk_path, page_chunk_id. cbn [fst]. intros H.
  apply year_path_inj in H as [_ H].
  apply (inj (String.app _)) in H. apply (inj (String.app _)) in H.
  apply (inj (String.app _)) in H. apply string_app_inv_tail in H.
  by apply chunk_id_inj.
Qed.

Lemma chunk_path_not_manifest (yr : Z) (chunkId : string) :
  chunk_path yr chunkId <> path_join (pretty yr) "manifest.json".
Proof. intros H. apply year_path_inj in H as [_ H]. discriminate H. Qed.

Lemma address_path_year (yr : Z) (address : string) :
  address_path (pretty yr) address
  = path_join (pretty yr) ("addresses/" +:+ hashAddress address +:+ ".json").
Proof.
  unfold address_path, path_join. rewrite !string_app_assoc. reflexivity.
Qed.

Lemma chunk_path_not_address (yr : Z) (chunkId address : string) :
  chunk_path yr chunkId <> address_path (pretty yr) address.
Proof.
  rewrite address_path_year. intros H. apply year_path_inj in H as [_ H].
  discriminate H.
Qed.

(** The loop of the chunk writer, by what it leaves at a path. *)
Lemma write_chunks_other (yr : Z) (pages : list (nat * list property))
    (w : world) (path : string) :
  (forall pg, pg ∈ pages -> path <> chunk_path yr (page_chunk_id pg)) ->
  files (fold_left (fun w' pg => write_chunk byteSize yr (page_chunk_id pg) (snd pg) w')
                   pages w) !! path
  = files w !! path.
Proof.
  revert w. induction pages as [|pg pages IH]; intros w Hne; [done|].
  cbn [fold_left]. rewrite IH.
  - cbn [write_chunk writeFile files]. rewrite chunk_path_filename.
    apply lookup_insert_ne. intros Heq. by apply (Hne pg); [left|].
  - intros pg' Hpg'. apply Hne. by right.
Qed.

Lemma write_chunks_lookup (yr : Z) (pages : list (nat * list property))
    (w : world) (pg : nat * list property) :
  NoDup (map fst pages) -> pg ∈ pages ->
  files (fold_left (fun w' pg => write_chunk byteSize yr (page_chunk_id pg) (snd pg) w')
                   pages w) !! chunk_path yr (page_chunk_id pg)
  = Some (AChunk (make_chunk yr (page_chunk_id pg) (snd pg))).
Proof.
  revert w. induction pages as [|pg0 pages IH]; intros w Hnd Hpg.
  { by apply not_elem_of_nil in Hpg. }
  cbn [map] in Hnd. apply NoDup_cons in Hnd as [Hfresh Hnd]. cbn [fold_left].
  apply elem_of_cons in Hpg as [->|Hpg]; [|by apply IH].
  rewrite write_chunks_other.
  - cbn [write_chunk writeFile files]. rewrite chunk_path_filename.
    apply lookup_insert_eq.
  - intros pg' Hpg' Heq. apply Hfresh. destruct pg0 as [k pk], pg' as [k' pk'].
    apply chunk_path_inj in Heq as ->. apply list_elem_of_fmap.
    by exists (k', pk').
Qed.

Lemma write_chunks_counters (yr : Z) (pages : list (nat * list property)) (w : world) :
  let w1 := fold_left (fun w' pg => write_chunk byteSize yr (page_chunk_id pg) (snd pg) w')
                      pages w in
  totalProperties (counters w1) = totalProperties (counters w)
  /\ yearsProcessed (counters w1) = yearsProcessed (counters w)
  /\ githubFiles (counters w1) = (githubFiles (counters w) + length pages)%nat
  /\ dataSize (counters w1)
     = (dataSize (counters w)
        + list_sum (map (fun pg => byteSize (make_chunk yr (page_chunk_id pg) (snd pg)))
                        pages))%nat.
Proof.
  revert w. induction pages as [|pg pages IH]; intros w; cbn [fold_left].
  { cbn. split_and!; try done; lia. }
  cbv zeta in IH.
  destruct (IH (write_chunk byteSize yr (page_chunk_id pg) (snd pg) w)) as (-> & -> & -> & ->).
  unfold list_sum.
  cbn [write_chunk writeFile counters totalProperties yearsProcessed githubFiles
       dataSize map foldr length].
  split_and!; try done; lia.
Qed.

Lemma spec_pages_NoDup {A : Type} (size : nat) (l : list A) :
  NoDup (map fst (spec_pages size l)).
Proof.
  unfold spec_pages. rewrite map_map. cbn [fst]. rewrite map_id. apply NoDup_seq.
Qed.

(** The address that the index builder and the lookups read off an entry
    that the writer made. *)
Lemma entry_address_compress (p : property) :
  entry_address (json_object (compressProperty p)) = Some (toLowerCase (address p)).
Proof.
  unfold entry_address, prop_get, json_object. rewrite !lookup_omap.
  change (compressProperty p !! "a") with (Some (VStr (address p))).
  change (compressProperty p !! "address") with (@None value).
  unfold js_or. cbn. by destruct (address p).
Qed.

Lemma count_address_compress (addr : string) (l : list property) :
  count_address addr (map (fun p => json_object (compressProperty p)) l)
  = length (filter (fun p => toLowerCase (address p) = addr) l).
Proof.
  unfold count_address. induction l as [|p l IH]; [done|].
  cbn [map]. rewrite !filter_cons, entry_address_compress.
  destruct (decide (toLowerCase (address p) = addr)) as [->|Hne].
  - rewrite decide_True by done. cbn [length]. by rewrite IH.
  - rewrite decide_False by congruence. done.
Qed.

Lemma filter_length_perm {A : Type} (P : A -> Prop) `{!forall x, Decision (P x)}
    (l l' : list A) :
  Permutation l l' -> length (filter P l) = length (filter P l').
Proof. intros Hperm. by rewrite Hperm. Qed.

Lemma write_chunks_prototypes (yr : Z) (pages : list (nat * list property)) (w : world) :
  prototypes (fold_left (fun w' pg => write_chunk byteSize yr (page_chunk_id pg) (snd pg) w')
                        pages w)
  = prototypes w.
Proof.
  revert w. induction pages as [|pg pages IH]; intros w; [done|].
  cbn [fold_left]. by rewrite IH.
Qed.

Lemma sort_by_address_plain (r : realm) (properties : list property) :
  plain_addresses r (sort_by_address localeCompare properties)
  <-> plain_addresses r properties.
Proof.
  unfold plain_addresses, sort_by_address.
  by rewrite <- (Array_sort_perm (fun a b => localeCompare (address a) (address b))).
Qed.

(** Whether the chunk writer returns: it does when no address is one for
    which a plain object inherits a truthy value, and it throws
    otherwise, the pages and the manifest being written and no address
    file. *)
Lemma createOptimizedChunks_settles (yr : Z) (properties : list property) (w : world) :
  let sorted := sort_by_address localeCompare properties in
  let pages := spec_pages (recordsPerChunk cfg) sorted in
  let w1 := fold_left (fun w' pg => write_chunk byteSize yr (page_chunk_id pg) (snd pg) w')
                      pages w in
  let manifest := make_manifest now yr sorted
                    (map (fun pg => chunk_info byteSize yr (page_chunk_id pg) (snd pg)) pages) in
  let w2 := writeFile (path_join (pretty yr) "manifest.json") (AManifest manifest) w1 in
  (plain_addresses (prototypes w) properties ->
   createOptimizedChunks localeCompare byteSize now cfg yr properties w
   = Some (Return sorted, write_address_files yr (own_groups sorted) w2))
  /\ (~ plain_addresses (prototypes w) properties ->
      createOptimizedChunks localeCompare byteSize now cfg yr properties w
      = Some (Throw "TypeError", w2)).
Proof.
  intros sorted pages w1 manifest w2.
  pose proof (createOptimizedChunks_unfold yr properties w) as Hrun.
  cbv zeta in Hrun. fold sorted pages w1 manifest w2 in Hrun. rewrite Hrun.
  assert (Hproto : prototypes w2 = prototypes w).
  { unfold w2, w1. cbn [writeFile prototypes]. apply write_chunks_prototypes. }
  unfold createAddressFiles. rewrite Hproto.
  split; intros Hplain.
  - by rewrite group_by_address_plain by (by apply sort_by_address_plain).
  - by rewrite group_by_address_throws
      by (intros H; by apply Hplain, sort_by_address_plain).
Qed.

(** A year once it is written: what the chunk writer settles with and
    what it leaves, whether it returns or throws. *)
Lemma written_year (yr : Z) (properties : list property) (w : world) :
  let sorted := sort_by_address localeCompare properties in
  let pages := spec_pages (recordsPerChunk cfg) sorted in
  let manifest := make_manifest now yr sorted
                    (map (fun pg => chunk_info byteSize yr (page_chunk_id pg) (snd pg)) pages) in
  exists r w',
    createOptimizedChunks localeCompare byteSize now cfg yr properties w = Some (r, w')
    /\ files w' !! path_join (pretty yr) "manifest.json" = Some (AManifest manifest)
    /\ (forall pg, pg ∈ pages ->
          files w' !! chunk_path yr (page_chunk_id pg)
          = Some (AChunk (make_chunk yr (page_chunk_id pg) (snd pg))))
    /\ (forall path,
          (forall name, path <> path_join (pretty yr) name) ->
          files w' !! path = files w !! path)
    /\ prototypes w' = prototypes w
    /\ (totalProperties (counters w') = totalProperties (counters w)
        /\ yearsProcessed (counters w') = yearsProcessed (counters w)
        /\ githubFiles (counters w') = (githubFiles (counters w) + length pages)%nat
        /\ (dataSize (counters w) <= dataSize (counters w'))%nat)
    /\ (plain_addresses (prototypes w) properties ->
        r = Return sorted
        /\ forall address,
             files w' !! address_path (pretty yr) address
             = match last (filter (fun kg =>
                                     (1 < length (snd kg))%nat
                                     /\ address_path (pretty yr) (fst kg)
                                        = address_path (pretty yr) address)
                                  (Object_entries (own_groups sorted))) with
               | Some kg => Some (AAddressFile (address_file (snd kg)))
               | None => files w !! address_path (pretty yr) address
               end)
    /\ (~ plain_addresses (prototypes w) properties ->
        r = Throw "TypeError"
        /\ forall address,
             files w' !! address_path (pretty yr) address
             = files w !! address_path (pretty yr) address).
Proof.
  intros sorted pages manifest.
  set (w1 := fold_left (fun w' pg => write_chunk byteSize yr (page_chunk_id pg) (snd pg) w')
                       pages w).
  set (w2 := writeFile (path_join (pretty yr) "manifest.json") (AManifest manifest) w1).
  pose proof (createOptimizedChunks_settles yr properties w) as [Hret Hthrow].
  cbv zeta in Hret, Hthrow. fold sorted pages manifest w1 w2 in Hret, Hthrow.
  assert (Haddr : forall address,
             files w2 !! address_path (pretty yr) address
             = files w !! address_path (pretty yr) address).
  { intros address. unfold w2. cbn [writeFile files].
    rewrite lookup_insert_ne by apply manifest_path_not_address.
    apply write_chunks_other. intros pg _ H. symmetry in H.
    by apply chunk_path_not_address in H. }
  assert (Hcases : exists r groups,
             createOptimizedChunks localeCompare byteSize now cfg yr properties w
             = Some (r, write_address_files yr groups w2)
             /\ (plain_addresses (prototypes w) properties ->
                 r = Return sorted /\ groups = own_groups sorted)
             /\ (~ plain_addresses (prototypes w) properties ->
                 r = Throw "TypeError" /\ groups = [])).
  { destruct (Forall_dec (fun p => truthy_inherited (prototypes w)
                                    (toLowerCase (address p)) = false)
                         properties) as [Hplain|Hno].
    - eexists _, _. split; [by apply Hret|]. split; [done|]. intros H. by destruct H.
    - exists (Throw "TypeError"), []. split; [by apply Hthrow|]. split; [|done].
      intros H. by destruct Hno. }
  destruct Hcases as (r & groups & Hrun & Hplain & Hno).
  exists r, (write_address_files yr groups w2). split; [exact Hrun|].
  pose proof (write_chunks_counters yr pages w) as Hc. cbv zeta in Hc. fold w1 in Hc.
  destruct Hc as (Htotal & Hyears & Hfiles & Hsize).
  destruct (write_address_files_state yr groups w2) as [Hcounters Hproto].
  split_and!.
  - rewrite write_address_files_other by (intros a; apply manifest_path_not_address).
    apply lookup_insert_eq.
  - intros pg Hpg.
    rewrite write_address_files_other by (intros a; apply chunk_path_not_address).
    unfold w2. cbn [writeFile files].
    rewrite lookup_insert_ne by (intros H; symmetry in H; by apply chunk_path_not_manifest in H).
    apply write_chunks_lookup; [apply spec_pages_NoDup | done].
  - intros path Hpath.
    rewrite write_address_files_other
      by (intros a; rewrite address_path_year; apply Hpath).
    unfold w2. cbn [writeFile files]. rewrite lookup_insert_ne by (symmetry; apply Hpath).
    apply write_chunks_other. intros pg _. apply Hpath.
  - rewrite Hproto. unfold w2, w1. cbn [writeFile prototypes].
    apply write_chunks_prototypes.
  - by rewrite Hcounters.
  - by rewrite Hcounters.
  - by rewrite Hcounters.
  - rewrite Hcounters. unfold w2. cbn [writeFile counters]. lia.
  - intros H. destruct (Hplain H) as [-> ->]. split; [done|]. intros address.
    rewrite write_address_files_last. by rewrite Haddr.
  - intros H. destruct (Hno H) as [-> ->]. split; [done|]. intros address.
    exact (Haddr address).
Qed.

(** The entries of a year whose manifest and chunks are those of the
    pages of a list. *)
Lemma year_entries_pages (fs : gmap string artifact) (yr : Z) (sorted : list property) :
  let pages := spec_pages (recordsPerChunk cfg) sorted in
  fs !! path_join (pretty yr) "manifest.json"
  = Some (AManifest
            (make_manifest now yr sorted
               (map (fun pg => chunk_info byteSize yr (page_chunk_id pg) (snd pg)) pages))) ->
  (forall pg, pg ∈ pages ->
     fs !! chunk_path yr (page_chunk_id pg)
     = Some (AChunk (make_chunk yr (page_chunk_id pg) (snd pg)))) ->
  readable_year fs yr
  /\ year_entries fs yr = map (fun p => json_object (compressProperty p)) sorted.
Proof.
  intros pages Hmanifest Hchunk. split.
  - eexists. split; [exact Hmanifest|].
    cbn [make_manifest manifest_chunks]. apply Forall_forall.
    intros chunk Hc. apply list_elem_of_fmap in Hc as (pg & -> & Hpg).
    exists (make_chunk yr (page_chunk_id pg) (snd pg)).
    split; [by apply Hchunk|].
    cbn [make_chunk chunk_properties]. apply Forall_forall. intros e He.
    apply list_elem_of_fmap in He as (p & -> & _).
    rewrite entry_address_compress. by eexists.
  - unfold year_entries. rewrite Hmanifest. cbn [make_manifest manifest_chunks].
    rewrite <- (spec_pages_concat (recordsPerChunk cfg) sorted size_pos).
    fold pages. clear Hmanifest. revert Hchunk. generalize pages.
    intros l Hchunk.
    induction l as [|pg l IH]; [done|].
    cbn [map flat_map concat]. rewrite map_app. f_equal.
    + unfold chunk_entries. cbn [chunk_info info_filename].
      rewrite chunk_path_filename, Hchunk by left. done.
    + apply IH. intros pg' Hpg'. apply Hchunk. by right.
Qed.

(** What a written year holds and what writing it leaves alone. *)
Lemma written_year_reads_back (yr : Z) (properties : list property)
    (w : world) :
  let sorted := sort_by_address localeCompare properties in
  exists r w',
    createOptimizedChunks localeCompare byteSize now cfg yr properties w
    = Some (r, w')
    /\ (plain_addresses (prototypes w) properties -> r = Return sorted)
    /\ (~ plain_addresses (prototypes w) properties -> r = Throw "TypeError")
    /\ readable_year (files w') yr
    /\ year_entries (files w') yr
       = map (fun p => json_object (compressProperty p)) sorted
    /\ (forall addr,
          count_address addr (year_entries (files w') yr)
          = length (filter (fun p => toLowerCase (address p) = addr) properties))
    /\ (forall yr', yr' <> yr ->
          year_entries (files w') yr' = year_entries (files w) yr'
          /\ (readable_year (files w) yr' -> readable_year (files w') yr'))
    /\ prototypes w' = prototypes w
    /\ totalProperties (counters w') = totalProperties (counters w)
    /\ yearsProcessed (counters w') = yearsProcessed (counters w).
Proof.
  intros sorted.
  destruct (written_year yr properties w)
    as (r & w' & Hrun & Hmanifest & Hchunk & Hframe & Hproto & Hcounters & Hplain & Hno).
  destruct (year_entries_pages (files w') yr sorted Hmanifest Hchunk)
    as [Hreadable Hentries].
  assert (Hother : forall yr' name, yr' <> yr ->
             files w' !! path_join (pretty yr') name
             = files w !! path_join (pretty yr') name).
  { intros yr' name Hne. apply Hframe. intros name' H.
    by apply year_path_inj in H as [? _]. }
  exists r, w'. split_and!; try done.
  - intros H. by destruct (Hplain H).
  - intros H. by destruct (Hno H).
  - intros addr. rewrite Hentries, count_address_compress.
    symmetry. apply filter_length_perm, Array_sort_perm.
  - intros yr' Hne. split.
    + unfold year_entries. rewrite Hother by done.
      destruct (files w !! _) as [[| m | | |]|]; try done.
      apply flat_map_ext. intros chunk. unfold chunk_entries. by rewrite Hother.
    + intros (m & Hm & Hchunks). exists m. split; [by rewrite Hother|].
      eapply Forall_impl; [exact Hchunks|]. intros chunk (cd & Hcd & Hall).
      exists cd. split; [by rewrite Hother | done].
  - apply Hcounters.
  - apply Hcounters.
Qed.

(** X8. The chunk writer writes a year that reads back. With a chunk size
    of at least one record the writer settles: it returns, or it throws
    after the manifest is written. In both cases the manifest of the year
    and every chunk it lists can be read, the entries read through the
    manifest are the compact forms of the input records, rearranged, and
    so for every address as many entries are read back as the input has
    records of that address, case aside. *)
Theorem createOptimizedChunks_reads_back (yr : Z) (properties : list property)
    (w : world) :
  exists r w',
    createOptimizedChunks localeCompare byteSize now cfg yr properties w
    = Some (r, w')
    /\ readable_year (files w') yr
    /\ Permutation (map (fun p => json_object (compressProperty p)) properties)
                   (year_entries (files w') yr)
    /\ (forall addr,
          count_address addr (year_entries (files w') yr)
          = length (records_at addr properties)).
Proof.
  destruct (written_year_reads_back yr properties w)
    as (r & w' & Hrun & _ & _ & Hread & Hentries & Hcount & _).
  exists r, w'. split_and!; try done.
  rewrite Hentries. apply Permutation_map, Array_sort_perm.
Qed.

(** X9. The chunk writer touches nothing but the year it writes: whether
    it returns or throws, a path that is not below the directory of the
    year holds what it held, so that another year reads back as before;
    of the counters only the number of files, by one for each page, and
    the size of the data change; and nothing is put on the shared
    objects. *)
Theorem createOptimizedChunks_frame (yr : Z) (properties : list property)
    (w : world) :
  exists r w',
    createOptimizedChunks localeCompare byteSize now cfg yr properties w
    = Some (r, w')
    /\ (forall path, (forall name, path <> path_join (pretty yr) name) ->
                     files w' !! path = files w !! path)
    /\ (forall yr', yr' <> yr ->
          year_entries (files w') yr' = year_entries (files w) yr'
          /\ (readable_year (files w) yr' -> readable_year (files w') yr'))
    /\ totalProperties (counters w') = totalProperties (counters w)
    /\ yearsProcessed (counters w') = yearsProcessed (counters w)
    /\ githubFiles (counters w')
       = (githubFiles (counters w)
          + page_count (length properties) (recordsPerChunk cfg))%nat
    /\ (dataSize (counters w) <= dataSize (counters w'))%nat
    /\ prototypes w' = prototypes w.
Proof.
  destruct (written_year yr properties w)
    as (r & w' & Hrun & _ & _ & Hframe & Hproto & Hcounters & _).
  destruct (written_year_reads_back yr properties w)
    as (r' & w'' & Hrun' & _ & _ & _ & _ & _ & Hother & _).
  rewrite Hrun in Hrun'. injection Hrun' as <- <-.
  destruct Hcounters as (Htotal & Hyears & Hfiles & Hsize).
  exists r, w'. split_and!; try done.
  rewrite Hfiles. f_equal. unfold spec_pages.
  rewrite length_map, length_seq. unfold sort_by_address.
  by rewrite Array_sort_length.
Qed.

(** X25. When the chunk writer throws. With nothing put on
    [Object.prototype], it throws exactly when the address of some record
    lower-cases to a property name of [Object.prototype], such as
    [constructor] or [__proto__]. It then has written the chunks and the
    manifest of the year, which read back, and has written or changed no
    address file; otherwise it returns the sorted records. *)
Theorem createOptimizedChunks_throws (yr : Z) (properties : list property)
    (w : world) :
  on_prototype (prototypes w) = [] ->
  exists r w',
    createOptimizedChunks localeCompare byteSize now cfg yr properties w
    = Some (r, w')
    /\ (r = Throw "TypeError"
        <-> Exists (fun p => inherited_name (toLowerCase (address p)) = true)
                   properties)
    /\ (r = Return (sort_by_address localeCompare properties)
        <-> Forall (fun p => inherited_name (toLowerCase (address p)) = false)
                   properties)
    /\ readable_year (files w') yr
    /\ (r = Throw "TypeError" ->
        forall address,
          files w' !! address_path (pretty yr) address
          = files w !! address_path (pretty yr) address).
Proof.
  intros Hclean.
  destruct (written_year yr properties w)
    as (r & w' & Hrun & _ & _ & _ & _ & _ & Hplain & Hno).
  destruct (written_year_reads_back yr properties w)
    as (r' & w'' & Hrun' & _ & _ & Hread & _).
  rewrite Hrun in Hrun'. injection Hrun' as <- <-.
  assert (Hiff : plain_addresses (prototypes w) properties
                 <-> Forall (fun p => inherited_name (toLowerCase (address p)) = false)
                            properties).
  { unfold plain_addresses. apply Forall_iff. intros p.
    by rewrite truthy_inherited_clean. }
  assert (Hex : ~ plain_addresses (prototypes w) properties
                <-> Exists (fun p => inherited_name (toLowerCase (address p)) = true)
                           properties).
  { split.
    - intros H. apply Exists_exists.
      assert (Hn : ~ Forall (fun p => inherited_name (toLowerCase (address p)) = false)
                            properties) by (intros H'; by apply H, Hiff).
      apply not_Forall_Exists in Hn; [|intros p; apply _].
      apply Exists_exists in Hn as (p & Hin & Hp). exists p. split; [done|].
      cbn in Hp. apply not_false_iff_true. exact Hp.
    - intros H Hall. apply Hiff in Hall. apply Exists_exists in H as (p & Hin & Hp).
      rewrite Forall_forall in Hall. rewrite (Hall p Hin) in Hp. discriminate Hp. }
  exists r, w'. split; [done|].
  destruct (Forall_dec (fun p => truthy_inherited (prototypes w)
                                   (toLowerCase (address p)) = false)
                       properties) as [Hyes|Hnot].
  - destruct (Hplain Hyes) as [-> _].
    split; [|split; [|split; [done|]]].
    + split; [intros H; discriminate H|]. intros H. apply Hex in H. by destruct H.
    + split; [intros _; by apply Hiff | done].
    + intros H. discriminate H.
  - destruct (Hno Hnot) as [-> Haddr].
    split; [|split; [|split; [done|]]].
    + split; [intros _; by apply Hex | done].
    + split; [intros H; discriminate H|]. intros H. apply Hiff in H. by destruct Hnot.
    + done.
Qed.
End WriterFacts.

Lemma createOptimizedChunks_reads_back_witness :
  exists r w',
    createOptimizedChunks codeunit_compare (fun _ => 0%nat) "2025-08-22T11:24:45.195Z"
                          (make_config no_settings) 2020 three_sales empty_world
    = Some (r, w')
    /\ count_address "7 elm st" (year_entries (files w') 2020) = 2%nat
    /\ count_address "103 rawson st" (year_entries (files w') 2020) = 1%nat.
Proof.
  destruct (createOptimizedChunks_reads_back codeunit_compare (fun _ => 0%nat)
              "2025-08-22T11:24:45.195Z" (make_config no_settings)
              (make_config_size no_settings) 2020 three_sales empty_world)
    as (r & w' & Hrun & _ & _ & Hcount).
  exists r, w'. split; [exact Hrun|]. split.
  - exact (eq_trans (Hcount "7 elm st") eq_refl).
  - exact (eq_trans (Hcount "103 rawson st") eq_refl).
Defined.

Lemma createOptimizedChunks_frame_witness :
  exists r w',
    createOptimizedChunks codeunit_compare (fun _ => 0%nat) "2025-08-22T11:24:45.195Z"
                          (make_config no_settings) 2021 one_sale two_years
    = Some (r, w')
    /\ year_entries (files w') 2020 = year_entries (files two_years) 2020
    /\ githubFiles (counters w') = S (githubFiles (counters two_years)).
Proof.
  destruct (createOptimizedChunks_frame codeunit_compare (fun _ => 0%nat)
              "2025-08-22T11:24:45.195Z" (make_config no_settings)
              (make_config_size no_settings) 2021 one_sale two_years)
    as (r & w' & Hrun & _ & Hother & _ & _ & Hfiles & _).
  exists r, w'. split; [exact Hrun|]. split.
  - exact (proj1 (Hother 2020 ltac:(discriminate))).
  - rewrite Hfiles. vm_compute. reflexivity.
Defined.

Lemma createOptimizedChunks_throws_witness :
  exists w',
    createOptimizedChunks codeunit_compare (fun _ => 0%nat) "2025-08-22T11:24:45.195Z"
                          (make_config no_settings) 2020 constructor_sales empty_world
    = Some (Throw "TypeError", w')
    /\ readable_year (files w') 2020
    /\ files w' !! address_path "2020" "constructor" = None.
Proof.
  destruct (createOptimizedChunks_throws codeunit_compare (fun _ => 0%nat)
              "2025-08-22T11:24:45.195Z" (make_config no_settings)
              (make_config_size no_settings) 2020 constructor_sales empty_world
              eq_refl)
    as (r & w' & Hrun & Hthrow & _ & Hread & Haddr).
  assert (Hr : r = Throw "TypeError").
  { apply Hthrow. apply Exists_exists.
    exists (default sample_record (head constructor_sales)).
    split; [vm_compute; by left | reflexivity]. }
  subst r. exists w'. split; [exact Hrun|]. split; [exact Hread|].
  exact (Haddr eq_refl "constructor").
Defined.

(** *** The chunk writer: the sort and the pages *)

(** C5. The records that the chunks of a year hold, read in the order in
    which the manifest lists the chunks, are the compact forms of the
    stable sort of the input by full address: the input rearranged,
    ascending for the collation, the records whose addresses tie with any
    given address in the order of the input; the chunk of each page of
    that list holds the compact forms of the records of the page. When
    the writer returns, that list is also what the array of the caller,
    sorted in place, then holds. The collation is assumed to be a
    consistent comparator and the chunk size to be at least one. *)
Theorem createOptimizedChunks_sorts
    (localeCompare : string -> string -> Z)
    (localeCompare_antisym : forall a b, localeCompare a b < 0 <-> 0 < localeCompare b a)
    (localeCompare_trans : forall a b c,
        localeCompare a b <= 0 -> localeCompare b c <= 0 -> localeCompare a c <= 0)
    (byteSize : chunkData -> nat) (now : string) (cfg : config)
    (size_pos : (1 <= recordsPerChunk cfg)%nat)
    (yr : Z) (properties : list property) (w : world) :
  exists sorted r w',
    createOptimizedChunks localeCompare byteSize now cfg yr properties w
    = Some (r, w')
    /\ Permutation properties sorted
    /\ StronglySorted (fun a b => localeCompare (address a) (address b) <= 0) sorted
    /\ (forall addr, filter (fun p => localeCompare (address p) addr = 0) sorted
                     = filter (fun p => localeCompare (address p) addr = 0) properties)
    /\ readable_year (files w') yr
    /\ year_entries (files w') yr
       = map (fun p => json_object (compressProperty p)) sorted
    /\ (forall k pg,
          spec_pages (recordsPerChunk cfg) sorted !! k = Some pg ->
          exists chunkData,
            files w' !! path_join (pretty yr)
                                  (chunk_filename yr (padStart3 (pretty (Z.of_nat k))))
            = Some (AChunk chunkData)
            /\ chunk_properties chunkData
               = map (fun p => json_object (compressProperty p)) (snd pg))
    /\ (forall l, r = Return l -> l = sorted).
Proof.
  destruct (written_year localeCompare byteSize now cfg size_pos yr properties w)
    as (r & w' & Hrun & Hmanifest & Hchunk & _ & _ & _ & Hplain & Hno).
  destruct (year_entries_pages byteSize now cfg size_pos (files w') yr _
              Hmanifest Hchunk) as [Hread Hentries].
  exists (sort_by_address localeCompare properties), r, w'.
  split_and!; try done.
  - apply Array_sort_perm.
  - by apply (Array_sort_sorted address localeCompare).
  - intros addr. by apply (Array_sort_stable address localeCompare).
  - intros k pg Hk. pose proof Hk as Hpg.
    apply spec_pages_lookup in Hpg as [-> _].
    apply list_elem_of_lookup_2 in Hk. eexists. split; [exact (Hchunk _ Hk) | done].
  - intros l ->.
    destruct (Forall_dec (fun p => truthy_inherited (prototypes w)
                                     (toLowerCase (address p)) = false)
                         properties) as [Hyes|Hnot].
    + destruct (Hplain Hyes) as [Heq _]. by injection Heq.
    + destruct (Hno Hnot) as [Heq _]. discriminate Heq.
Qed.

Lemma createOptimizedChunks_sorts_witness :
  exists sorted r w',
    createOptimizedChunks codeunit_compare (fun _ => 0%nat) "" (make_config no_settings)
                          2020 three_sales empty_world
    = Some (r, w')
    /\ StronglySorted (fun a b => codeunit_compare (address a) (address b) <= 0) sorted
    /\ year_entries (files w') 2020
       = map (fun p => json_object (compressProperty p)) sorted.
Proof.
  destruct (createOptimizedChunks_sorts codeunit_compare
              codeunit_compare_antisym codeunit_compare_trans
              (fun _ => 0%nat) "" (make_config no_settings)
              (make_config_size no_settings) 2020 three_sales empty_world)
    as (sorted & r & w' & Hrun & _ & Hsorted & _ & _ & Hentries & _).
  exists sorted, r, w'. split; [exact Hrun|]. split; [exact Hsorted | exact Hentries].
Defined.

(** C3. With the settings of the constructor, so that [recordsPerChunk] is
    the configured count or 5000, the chunk writer settles, and whether
    it returns or throws it has written one chunk for each page of the
    rearranged input and then the manifest. The pages are consecutive
    (put end to end they are the rearranged list), each holds at least
    one and at most [recordsPerChunk] records, and each but the last
    holds exactly [recordsPerChunk]. The chunk of page [k] is found
    afterwards under the name with the number [k], has that number as
    its id, and holds the records of the page, in their compact form and
    with their count; the manifest is found under its
    name, lists the chunks by name and count in the order of the pages,
    and its total is the number of input records. With 5000 records per
    chunk and 10001 records there are three chunks, of 5000, 5000 and 1
    records, and the total is 10001. *)
Theorem createOptimizedChunks_pages
    (localeCompare : string -> string -> Z) (byteSize : chunkData -> nat)
    (now : string) (c : user_config) (yr : Z) (properties : list property)
    (w : world) :
  let cfg := make_config c in
  let size := recordsPerChunk cfg in
  let page_id := fun k : nat => padStart3 (pretty (Z.of_nat k)) in
  exists sorted r w' manifest,
    let pages := spec_pages size sorted in
    createOptimizedChunks localeCompare byteSize now cfg yr properties w
    = Some (r, w')
    /\ Permutation properties sorted
    /\ concat (map snd pages) = sorted
    /\ Forall (fun pg => (1 <= length (snd pg) <= size)%nat) pages
    /\ (forall k pg, pages !! k = Some pg -> (S k < length pages)%nat ->
                     length (snd pg) = size)
    /\ (forall k pg, pages !! k = Some pg ->
          fst pg = k
          /\ exists chunkData,
               files w' !! path_join (pretty yr) (chunk_filename yr (page_id k))
               = Some (AChunk chunkData)
               /\ chunk_chunkId chunkData = page_id k
               /\ chunk_count chunkData = length (snd pg)
               /\ chunk_properties chunkData
                  = map (fun p => json_object (compressProperty p)) (snd pg))
    /\ files w' !! path_join (pretty yr) "manifest.json" = Some (AManifest manifest)
    /\ map info_filename (manifest_chunks manifest)
       = map (fun pg => chunk_filename yr (page_id (fst pg))) pages
    /\ map info_count (manifest_chunks manifest) = map (fun pg => length (snd pg)) pages
    /\ manifest_totalProperties manifest = length properties
    /\ (size = 5000%nat -> length properties = 10001%nat ->
        map info_count (manifest_chunks manifest) = [5000; 5000; 1]%nat
        /\ manifest_totalProperties manifest = 10001%nat).
Proof.
  intros cfg size page_id.
  assert (Hsize : (1 <= size)%nat) by apply make_config_size.
  destruct (written_year localeCompare byteSize now cfg Hsize yr properties w)
    as (r & w' & Hrun & Hmanifest & Hchunk & _).
  set (sorted := sort_by_address localeCompare properties) in *.
  set (pages := spec_pages size sorted) in *.
  assert (Hlen : length sorted = length properties) by apply Array_sort_length.
  assert (Hpages : length pages = page_count (length sorted) size).
  { unfold pages, spec_pages. by rewrite length_map, length_seq. }
  eexists sorted, r, w', _. cbv zeta. fold pages.
  split; [exact Hrun|].
  assert (Hcounts : map info_count
                      (map (fun pg => chunk_info byteSize yr (page_chunk_id pg) (snd pg))
                           pages)
                    = map (fun pg => length (snd pg)) pages).
  { by rewrite map_map. }
  split_and!.
  - apply Array_sort_perm.
  - by apply spec_pages_concat.
  - apply Forall_lookup. intros k pg Hk.
    apply spec_pages_lookup in Hk as [-> Hk]. cbn [snd].
    rewrite slice_length. apply page_count_lt in Hk; [|done]. lia.
  - intros k pg Hk HSk.
    apply spec_pages_lookup in Hk as [-> Hk]. cbn [snd].
    rewrite slice_length. rewrite Hpages in HSk.
    apply page_count_lt in HSk; [|done]. lia.
  - intros k pg Hk. pose proof Hk as Hpg.
    apply spec_pages_lookup in Hpg as [-> _]. split; [done|].
    apply list_elem_of_lookup_2 in Hk. eexists. split; [exact (Hchunk _ Hk)|].
    done.
  - exact Hmanifest.
  - cbn [make_manifest manifest_chunks]. by rewrite map_map.
  - exact Hcounts.
  - cbn. exact Hlen.
  - intros H5000 H10001. split.
    + cbn [make_manifest manifest_chunks].
      transitivity (map (fun pg => length (snd pg)) pages); [exact Hcounts|].
      unfold pages. rewrite spec_pages_lengths.
      rewrite Hlen, H10001, H5000. by vm_compute.
    + cbn. by rewrite Hlen.
Qed.

Lemma createOptimizedChunks_pages_witness :
  exists r w' manifest,
    createOptimizedChunks codeunit_compare (fun _ => 0%nat) "" (make_config no_settings)
                          2020 (repeat sample_record 10001) empty_world
    = Some (r, w')
    /\ files w' !! "2020/manifest.json" = Some (AManifest manifest)
    /\ map info_count (manifest_chunks manifest) = [5000; 5000; 1]%nat
    /\ manifest_totalProperties manifest = 10001%nat.
Proof.
  pose proof (createOptimizedChunks_pages codeunit_compare (fun _ => 0%nat) ""
                no_settings 2020 (repeat sample_record 10001) empty_world) as H.
  cbv zeta in H.
  destruct H as (sorted & r & w' & manifest & Hrun & _ & _ & _ & _ & _ & Hfile
                 & _ & _ & _ & H).
  exists r, w', manifest. split; [exact Hrun|]. split; [exact Hfile|].
  exact (H eq_refl (repeat_length sample_record 10001)).
Defined.

(** *** The address files *)

(** C9, as the code has it. The name of an address file is
    [<year>/addresses/<h>.json] with [h] the first 12 characters, or
    fewer when there are fewer, of the base64 encoding of the lowercased
    address without its [/], [+] and [=]. For records none of whose
    lowercased addresses is a name under which a plain object inherits a
    truthy value, the writer returns, its groups are the records of each
    address, and after it the name of an address holds the file of the
    last group, in the order of [Object.entries], that has more than one
    record and that name, and what it held before when there is no such
    group; so the file of an address with more than one record whose
    name no other such address of the year shares holds the records of
    that address. The reader looks an address up under the same name
    first and, when an address file is served there, returns its entries
    for that address. *)
Theorem address_file_name :
  (forall yr address,
      address_path yr address = yr +:+ "/addresses/" +:+ hashAddress address +:+ ".json"
      /\ (String.length (hashAddress address) <= 12)%nat
      /\ Forall (fun c => ~ stripped c) (string_chars (hashAddress address)))
  /\ (forall (yr : Z) (properties : list property) (w : world),
        plain_addresses (prototypes w) properties ->
        exists addressGroups w',
          group_by_address (prototypes w) properties = Some addressGroups
          /\ createAddressFiles yr properties w = (Return tt, w')
          /\ (forall key props,
                (key, props) ∈ Object_entries addressGroups <->
                props = filter (fun p => toLowerCase (address p) = key) properties
                /\ props <> [])
          /\ (forall addr,
                files w' !! address_path (pretty yr) addr
                = match last (filter
                                (fun kg => (1 < length (snd kg))%nat
                                           /\ address_path (pretty yr) (fst kg)
                                              = address_path (pretty yr) addr)
                                (Object_entries addressGroups)) with
                  | Some kg => Some (AAddressFile (address_file (snd kg)))
                  | None => files w !! address_path (pretty yr) addr
                  end)
          /\ (forall addr,
                let props := filter (fun p => toLowerCase (address p) = toLowerCase addr)
                                    properties in
                (1 < length props)%nat ->
                (forall p,
                    p ∈ properties ->
                    address_path (pretty yr) (toLowerCase (address p))
                    = address_path (pretty yr) (toLowerCase addr) ->
                    (1 < length (filter (fun q => toLowerCase (address q)
                                                  = toLowerCase (address p))
                                        properties))%nat ->
                    toLowerCase (address p) = toLowerCase addr) ->
                files w' !! address_path (pretty yr) (toLowerCase addr)
                = Some (AAddressFile (address_file props))))
  /\ (forall cfg https_get JSON_parse (address yr : string) (c : cache) (f : addressFile),
        served cfg https_get JSON_parse c (address_path yr address)
        = Some (AAddressFile f) ->
        Forall (fun p => is_Some (entry_address p)) (file_properties f) ->
        exists c',
          loadPropertiesForAddressYear cfg https_get JSON_parse address yr c
          = (Return (map decompressProperty
                       (filter (fun p => entry_address p = Some (toLowerCase address))
                               (file_properties f))), c')).
Proof.
  split_and!.
  - intros yr address. split_and!.
    + apply address_path_unfold.
    + apply substring_0_length.
    + apply substring_0_chars, strip_b64_chars.
  - intros yr properties w Hplain.
    exists (own_groups properties), (write_address_files yr (own_groups properties) w).
    assert (Hgroups : group_by_address (prototypes w) properties
                      = Some (own_groups properties))
      by by apply group_by_address_plain.
    assert (Hlast : forall addr,
               files (write_address_files yr (own_groups properties) w)
                 !! address_path (pretty yr) addr
               = match last (filter
                               (fun kg => (1 < length (snd kg))%nat
                                          /\ address_path (pretty yr) (fst kg)
                                             = address_path (pretty yr) addr)
                               (Object_entries (own_groups properties))) with
                 | Some kg => Some (AAddressFile (address_file (snd kg)))
                 | None => files w !! address_path (pretty yr) addr
                 end).
    { intros addr. apply write_address_files_last. }
    split; [exact Hgroups|]. split.
    { unfold createAddressFiles. by rewrite Hgroups. }
    split; [apply own_groups_entries|]. split; [exact Hlast|].
    intros addr props Hlen Halone. rewrite Hlast.
    set (held := filter _ (Object_entries (own_groups properties))).
    assert (Hin : (toLowerCase addr, props) ∈ held).
    { apply list_elem_of_filter. split; [done|].
      apply own_groups_entries. split; [done|].
      intros Hnil. rewrite Hnil in Hlen. cbn in Hlen. lia. }
    destruct (last held) as [[key ps]|] eqn:Heq.
    + apply last_Some_elem_of in Heq.
      apply list_elem_of_filter in Heq as [[Hps Hpath] Hentry]. cbn [fst snd] in *.
      apply own_groups_entries in Hentry as [-> Hne].
      destruct (filter (fun p => toLowerCase (address p) = key) properties)
        as [|p0 rest] eqn:Hf; [done|].
      assert (Hp0 : p0 ∈ filter (fun p => toLowerCase (address p) = key) properties).
      { rewrite Hf. by left. }
      apply list_elem_of_filter in Hp0 as [Hkey Hp0].
      assert (Hsame : key = toLowerCase addr).
      { rewrite <- Hkey. apply Halone; [done | by rewrite Hkey |].
        rewrite Hkey, Hf. exact Hps. }
      rewrite <- Hf, Hsame. done.
    + apply last_None in Heq. rewrite Heq in Hin. by apply elem_of_nil in Hin.
  - intros cfg https_get JSON_parse address yr c f Hserved Hall.
    destruct (loadPropertiesForAddressYear_lookup cfg https_get JSON_parse address yr c)
      as (c' & -> & _).
    exists c'. do 2 f_equal. unfold lookup_address_year. rewrite Hserved.
    cbn [truthy_artifact entries_of mbind option_bind]. unfold address_matches.
    replace (forallb _ (file_properties f)) with true; [done|].
    symmetry. apply forallb_forall. intros p Hp.
    apply bool_decide_eq_true_2. rewrite Forall_forall in Hall.
    by apply Hall, list_elem_of_In.
Qed.

Lemma address_file_name_witness :
  (exists w',
      createAddressFiles 2020 three_sales empty_world = (Return tt, w')
      /\ files w' !! address_path (pretty 2020) (toLowerCase "7 ELM ST")
         = Some (AAddressFile
                   (address_file
                      (filter (fun p => toLowerCase (address p) = toLowerCase "7 ELM ST")
                              three_sales))))
  /\ (exists c',
        loadPropertiesForAddressYear rawson_cfg written_https_get written_JSON_parse
          "7 elm st" "2020" empty_cache
        = (Return (map decompressProperty
                     (filter (fun p => entry_address p = Some (toLowerCase "7 elm st"))
                             (file_properties elm_file))), c')).
Proof.
  pose proof address_file_name as (_ & Hwrite & Hread).
  split.
  - destruct (Hwrite 2020 three_sales empty_world) as (groups & w' & _ & Hrun & _ & _ & Hfile).
    { vm_compute. repeat constructor. }
    exists w'. split; [exact Hrun|].
    apply (Hfile "7 ELM ST").
    + vm_compute. lia.
    + intros p Hp Hpath _. revert Hpath.
      vm_compute in Hp.
      repeat (apply elem_of_cons in Hp as [->|Hp]);
        [vm_compute; try done; discriminate .. | by apply elem_of_nil in Hp].
  - apply (Hread rawson_cfg written_https_get written_JSON_parse "7 elm st" "2020"
             empty_cache elm_file).
    + vm_compute. reflexivity.
    + vm_compute. repeat constructor; eexists; reflexivity.
Defined.

(** C9, as the claim has it, fails on the width of the hash: the file of
    the address [7 ELM ST], sold twice in 2020, is stored under a name
    whose hash has 11 characters. *)
Lemma address_file_hash_short :
  address_path "2020" (toLowerCase "7 ELM ST") = "2020/addresses/NyBlbG0gc3Q.json"
  /\ fst (createAddressFiles 2020 three_sales empty_world) = Return tt
  /\ files (snd (createAddressFiles 2020 three_sales empty_world))
     !! "2020/addresses/NyBlbG0gc3Q.json"
     = Some (AAddressFile elm_file)
  /\ file_count elm_file = 2%nat
  /\ hashAddress (toLowerCase "7 ELM ST") = "NyBlbG0gc3Q"
  /\ String.length (hashAddress (toLowerCase "7 ELM ST")) <> 12%nat.
Proof. split_and!; [vm_compute; reflexivity .. | vm_compute; lia]. Qed.

(** *** A remote that serves what the writer wrote *)

Lemma string_app_nil_r (s : string) : s +:+ "" = s.
Proof.
  induction s as [|c s IH]; [done|].
  change (String c s +:+ "") with (String c (s +:+ "")). by rewrite IH.
Qed.

Lemma prefix_app (a b : string) : String.prefix a (a +:+ b) = true.
Proof.
  induction a as [|c a IH]; [by destruct b|].
  change (String c a +:+ b) with (String c (a +:+ b)). cbn [String.prefix].
  by destruct (ascii_dec c c).
Qed.

Lemma substring_all (s : string) : String.substring 0 (String.length s) s = s.
Proof. induction s as [|c s IH]; [done|]. cbn. by rewrite IH. Qed.

Lemma substring_app (a b : string) :
  String.substring (String.length a) (String.length b) (a +:+ b) = b.
Proof.
  induction a as [|c a IH]; [apply substring_all|].
  change (String c a +:+ b) with (String c (a +:+ b)). cbn. apply IH.
Qed.

Lemma raw_url_root (cfg : config) (filepath : string) :
  raw_url cfg filepath = raw_url cfg "" +:+ filepath.
Proof. unfold raw_url. by rewrite string_app_nil_r, !string_app_assoc. Qed.

Lemma served_published (cfg : config) (fs : gmap string artifact) (filepath : string) :
  served cfg (published_get cfg fs) (published_parse fs) empty_cache filepath
  = fs !! filepath.
Proof.
  unfold served, published_get, published_parse. cbn [empty_cache github_].
  rewrite lookup_empty, (raw_url_root cfg filepath), prefix_app, string_length_app.
  replace (String.length (raw_url cfg "") + String.length filepath
           - String.length (raw_url cfg ""))%nat
    with (String.length filepath) by lia.
  rewrite substring_app. destruct (fs !! filepath) eqn:Hf; [|done].
  change (200 =? 200)%nat with true. by cbn beta iota.
Qed.

(** *** The utility methods *)

Lemma substring_0_app_le (n : nat) (s t : string) :
  (n <= String.length s)%nat ->
  String.substring 0 n (s +:+ t) = String.substring 0 n s.
Proof.
  revert s. induction n as [|n IH]; intros s Hn.
  { by destruct s, t. }
  destruct s as [|c s]; [cbn in Hn; lia|].
  change (String c s +:+ t) with (String c (s +:+ t)). cbn. rewrite IH; [done|].
  cbn in Hn. lia.
Qed.

Lemma substring_0_length_le (n : nat) (s : string) :
  String.length (String.substring 0 n s) = Nat.min n (String.length s).
Proof.
  revert s. induction n as [|n IH]; intros [|c s]; cbn; try done.
  by rewrite IH.
Qed.

Lemma four_digits_value (m : string) :
  String.length m = 4%nat -> all_digits m = true -> 0 <= digits_value 0 m <= 9999.
Proof.
  destruct m as [|c1 [|c2 [|c3 [|c4 [|c5 m]]]]]; try done. intros _. cbn.
  rewrite !andb_true_iff. unfold is_digit, digit_val.
  rewrite !andb_true_iff, !Nat.leb_le. lia.
Qed.

Lemma match_four_digits_cons (c : ascii) (s : string) :
  match_four_digits (String c s)
  = if four_digits_here (String c s) then Some (String.substring 0 4 (String c s))
    else match_four_digits s.
Proof. reflexivity. Qed.

Lemma four_digits_here_app (s t : string) :
  four_digits_here (s +:+ t) = false -> four_digits_here s = false.
Proof.
  unfold four_digits_here. intros H.
  destruct (decide (4 <= String.length s)%nat) as [Hge|Hlt].
  - by rewrite substring_0_app_le in H.
  - apply andb_false_iff. left. apply Nat.eqb_neq. rewrite substring_0_length_le. lia.
Qed.

Lemma match_four_digits_None (s : string) :
  match_four_digits s = None ->
  forall pre m post,
    s = pre +:+ m +:+ post -> String.length m = 4%nat -> all_digits m = false.
Proof.
  induction s as [|c s IH]; intros Hnone pre m post Hs Hm.
  { destruct pre; [|done]. destruct m; [done|]. discriminate Hs. }
  rewrite match_four_digits_cons in Hnone.
  destruct (four_digits_here (String c s)) eqn:Hhere; [done|].
  destruct pre as [|d pre].
  - change ("" +:+ m +:+ post) with (m +:+ post) in Hs.
    unfold four_digits_here in Hhere. rewrite Hs in Hhere.
    rewrite substring_0_app_le in Hhere by lia.
    rewrite <- Hm in Hhere at 1 3. rewrite substring_all in Hhere.
    rewrite Hm in Hhere. by rewrite Nat.eqb_refl in Hhere.
  - change (String d pre +:+ m +:+ post) with (String d (pre +:+ m +:+ post)) in Hs.
    injection Hs as _ Hs. by eapply IH.
Qed.

Lemma match_four_digits_Some (s m : string) :
  match_four_digits s = Some m ->
  String.length m = 4%nat /\ all_digits m = true
  /\ exists pre post,
       s = pre +:+ m +:+ post
       /\ match_four_digits (pre +:+ String.substring 0 3 m) = None.
Proof.
  induction s as [|c s IH]; [done|]. rewrite match_four_digits_cons.
  destruct (four_digits_here (String c s)) eqn:Hhere.
  - intros [= <-]. unfold four_digits_here in Hhere.
    apply andb_true_iff in Hhere as [Hl Hd]. apply Nat.eqb_eq in Hl.
    split_and!; [done|done|]. exists "".
    destruct s as [|c2 [|c3 [|c4 s]]]; try done.
    exists s. by destruct s.
  - intros Hs. destruct (IH Hs) as (Hl & Hd & pre & post & -> & Hnone).
    split_and!; [done|done|]. exists (String c pre), post. split; [reflexivity|].
    change (String c pre +:+ String.substring 0 3 m)
      with (String c (pre +:+ String.substring 0 3 m)).
    rewrite match_four_digits_cons.
    change (String c (pre +:+ String.substring 0 3 m))
      with (String c pre +:+ String.substring 0 3 m).
    rewrite (four_digits_here_app _ (String.substring 3 1 m +:+ post)); [done|].
    rewrite <- Hhere. f_equal.
    change (String c pre +:+ String.substring 0 3 m)
      with (String c (pre +:+ String.substring 0 3 m)).
    change (String c (pre +:+ String.substring 0 3 m) +:+ ?t)
      with (String c ((pre +:+ String.substring 0 3 m) +:+ t)).
    f_equal. rewrite string_app_assoc. f_equal. rewrite <- string_app_assoc. f_equal.
    by destruct m as [|m1 [|m2 [|m3 [|m4 [|m5 m]]]]].
Qed.

Lemma match_four_digits_head (m post : string) :
  String.length m = 4%nat -> all_digits m = true ->
  match_four_digits (m +:+ post) = Some m.
Proof.
  intros Hl Hd.
  assert (Hsub : String.substring 0 4 (m +:+ post) = m).
  { rewrite substring_0_app_le by lia. rewrite <- Hl. apply substring_all. }
  destruct m as [|c m]; [done|].
  change (String c m +:+ post) with (String c (m +:+ post)) in *.
  rewrite match_four_digits_cons. unfold four_digits_here.
  by rewrite Hsub, Hl, Hd.
Qed.

Lemma pretty_year_length (yr : Z) :
  1000 <= yr <= 9999 -> String.length (pretty yr) = 4%nat.
Proof.
  intros Hyr.
  assert (Hall : forallb (fun n => Nat.eqb (String.length (pretty (1000 + Z.of_nat n))) 4)
                         (seq 0 (Z.to_nat 9000)) = true) by by vm_compute.
  rewrite forallb_forall in Hall.
  specialize (Hall (Z.to_nat (yr - 1000))).
  rewrite Z2Nat.id in Hall by lia. replace (1000 + (yr - 1000)) with yr in Hall by lia.
  apply Nat.eqb_eq, Hall, in_seq. lia.
Qed.

(** X10. The year of an archive. [extractYear] reads the leftmost four
    consecutive digits of the file name as a number, which is therefore
    between 0 and 9999 and need not be a year; only a name without four
    consecutive digits gets the current year. The year that the writer
    puts in a file name is read back. *)
Theorem extractYear_spec (thisYear : Z) (fileName : string) :
  ((exists pre m post,
       fileName = pre +:+ m +:+ post
       /\ String.length m = 4%nat /\ all_digits m = true
       /\ match_four_digits (pre +:+ String.substring 0 3 m) = None
       /\ extractYear thisYear fileName = digits_value 0 m
       /\ 0 <= extractYear thisYear fileName <= 9999)
   \/ (extractYear thisYear fileName = thisYear
       /\ forall pre m post,
            fileName = pre +:+ m +:+ post -> String.length m = 4%nat ->
            all_digits m = false))
  /\ (forall yr post,
        1000 <= yr <= 9999 ->
        extractYear thisYear (pretty yr +:+ post) = yr).
Proof.
  split.
  - unfold extractYear. destruct (match_four_digits fileName) as [m|] eqn:Hm.
    + left. apply match_four_digits_Some in Hm as (Hl & Hd & pre & post & -> & Hn).
      exists pre, m, post. split_and!; try done; by apply four_digits_value.
    + right. split; [done|]. by apply match_four_digits_None.
  - intros yr post Hyr.
    destruct (pretty_Z_digits yr) as (Hd & Hv & _); [lia|].
    pose proof (pretty_year_length yr Hyr) as Hl.
    unfold extractYear. by rewrite match_four_digits_head.
Qed.


(** *** The index builder: what it reads and where it stops *)

Lemma count_chunks_app (fs : gmap string artifact) (yr : Z)
    (good rest : list chunkInfo) (idx : MasterIndex) (r : realm) :
  snd (count_chunks fs yr good idx r) = true ->
  count_chunks fs yr (good ++ rest) idx r
  = count_chunks fs yr rest (fst (fst (count_chunks fs yr good idx r)))
                 (snd (fst (count_chunks fs yr good idx r))).
Proof.
  revert idx r. induction good as [|chunk good IH]; intros idx r Hok; [done|].
  cbn [app count_chunks] in *.
  destruct (fs !! path_join (pretty yr) (info_filename chunk)) as [[cd| | | |]|];
    try discriminate Hok.
  destruct (count_entries yr (chunk_properties cd) idx r) as [[idx' r'] ok].
  destruct ok; [by apply IH | discriminate Hok].
Qed.

(** X11. A year that fails part-way is half counted. When the manifest of
    a year lists chunks of which the first ones can be read and the next
    one cannot, the index builder keeps the counts of the chunks before
    the failure and counts none of the chunks after it, readable or not.
    This is for an index and chunks without an address that is a property
    name of [Object.prototype], and with nothing put on that object: the
    builder gives such an address no entry. *)
Theorem count_year_partial (fs : gmap string artifact) (idx : MasterIndex) (r : realm)
    (yr : Z) (manifest : manifest) (good rest : list chunkInfo) (bad : chunkInfo) :
  fs !! path_join (pretty yr) "manifest.json" = Some (AManifest manifest) ->
  manifest_chunks manifest = good ++ bad :: rest ->
  Forall (countable_chunk fs yr) good ->
  (forall chunkData,
      fs !! path_join (pretty yr) (info_filename bad) <> Some (AChunk chunkData)) ->
  on_prototype r = [] -> plain_keys idx -> no_zero idx ->
  count_year fs (idx, r) yr = fst (count_chunks fs yr good idx r)
  /\ (forall a y, a <> "" ->
        stored (fst (count_year fs (idx, r) yr)) a y
        = (stored idx a y
           + if decide (y = yr /\ inherited_name a = false)
             then count_address a (flat_map (chunk_entries fs yr) good) else 0)%nat)
  /\ plain_keys (fst (count_year fs (idx, r) yr)).
Proof.
  intros Hm Hchunks Hgood Hbad Hclean Hplain Hnz.
  destruct (count_chunks_clean fs yr good idx r Hgood Hclean Hplain Hnz)
    as (idx' & r' & Hrun & _ & Hplain' & _ & _ & Hstored).
  assert (Heq : count_year fs (idx, r) yr = fst (count_chunks fs yr good idx r)).
  { unfold count_year. rewrite Hm, Hchunks. cbn [fst snd].
    rewrite count_chunks_app by by rewrite Hrun.
    cbn [count_chunks].
    destruct (fs !! path_join (pretty yr) (info_filename bad)) as [[cd| | | |]|] eqn:Hb;
      try by rewrite Hrun.
    by destruct (Hbad cd). }
  rewrite Heq, Hrun. cbn [fst]. done.
Qed.

Lemma path_join_slash (a b : string) : no_slash (path_join a b) = false.
Proof.
  unfold path_join. induction a as [|c a IH]; [done|].
  change (String c a +:+ "/" +:+ b) with (String c (a +:+ "/" +:+ b)).
  cbn [no_slash]. rewrite IH. apply andb_false_r.
Qed.

Lemma index_path_not_year (yr : Z) (name : string) :
  "master-address-index.json" <> path_join (pretty yr) name.
Proof.
  intros H. apply (f_equal no_slash) in H. rewrite path_join_slash in H. done.
Qed.

(** The index is no file of a year. *)
Lemma year_entries_index (fs : gmap string artifact) (previous : artifact) (yr : Z) :
  year_entries (<["master-address-index.json" := previous]> fs) yr
  = year_entries fs yr.
Proof.
  unfold year_entries. rewrite lookup_insert_ne by apply index_path_not_year.
  destruct (fs !! _) as [[|m| | |]|]; try done.
  apply flat_map_ext. intros chunk. unfold chunk_entries.
  by rewrite lookup_insert_ne by apply index_path_not_year.
Qed.

Lemma readable_year_index (fs : gmap string artifact) (previous : artifact) (yr : Z) :
  readable_year fs yr ->
  readable_year (<["master-address-index.json" := previous]> fs) yr.
Proof.
  intros (m & Hm & Hchunks). exists m.
  split; [by rewrite lookup_insert_ne by apply index_path_not_year|].
  eapply Forall_impl; [exact Hchunks|]. intros chunk (cd & Hcd & Hall).
  exists cd. split; [|done].
  by rewrite lookup_insert_ne by apply index_path_not_year.
Qed.

(** The builder reads the manifests and the chunks only. *)
Lemma build_index_reads (fs : gmap string artifact) (previous : artifact)
    (years : list Z) (r : realm) :
  build_index (<["master-address-index.json" := previous]> fs) years r
  = build_index fs years r.
Proof.
  unfold build_index.
  match goal with |- fold_left _ _ ?st0 = _ => generalize st0 end.
  induction years as [|yr years IH]; intros st; [done|].
  cbn [fold_left]. rewrite IH. f_equal.
  assert (Hchunks : forall chunks idx r0,
             count_chunks (<["master-address-index.json" := previous]> fs) yr chunks
                          idx r0
             = count_chunks fs yr chunks idx r0).
  { induction chunks as [|chunk chunks IHc]; intros idx r0; [done|].
    cbn [count_chunks]. rewrite lookup_insert_ne by apply index_path_not_year.
    destruct (fs !! _) as [[cd| | | |]|]; try done.
    destruct (count_entries yr (chunk_properties cd) idx r0) as [[idx' r'] ok].
    destruct ok; [apply IHc | done]. }
  unfold count_year.
  rewrite lookup_insert_ne by apply index_path_not_year.
  destruct (fs !! _) as [[|m| | |]|]; try done.
  by rewrite Hchunks.
Qed.

(** An entry whose address is not [__proto__] leaves [Object.prototype]
    as it is, and what it does to the index depends on the shared objects
    through [Object.prototype] only. *)
Lemma count_entry_prototype (yr : Z) (idx idx' : MasterIndex) (r r' : realm)
    (addr : string) :
  addr <> "__proto__" ->
  count_entry yr idx r addr = Some (idx', r') ->
  on_prototype r' = on_prototype r.
Proof.
  intros Hne. unfold count_entry, inherit.
  destruct (negb (nonempty addr)); [by intros [= <- <-]|].
  destruct (obj_get idx addr) as [byYear|]; [by intros [= <- <-]|].
  destruct (inherited_name addr).
  - intros [= <- <-]. unfold on_prototype. by rewrite obj_get_set_ne.
  - destruct (obj_get (on_prototype r) addr) as [[|n]|]; cbn [fmap option_fmap option_map];
      by intros [= <- <-].
Qed.

Lemma count_entry_index (yr : Z) (idx : MasterIndex) (r1 r2 : realm) (addr : string) :
  on_prototype r1 = on_prototype r2 ->
  fst <$> count_entry yr idx r1 addr = fst <$> count_entry yr idx r2 addr.
Proof.
  intros Heq. unfold count_entry, inherit. rewrite Heq.
  destruct (negb (nonempty addr)); [done|].
  destruct (obj_get idx addr) as [byYear|]; [done|].
  destruct (inherited_name addr); [done|].
  by destruct (obj_get (on_prototype r2) addr) as [[|n]|].
Qed.

Lemma count_entries_index (yr : Z) (props : list (gmap string value))
    (idx : MasterIndex) (r1 r2 : realm) :
  Forall (fun prop => entry_address prop <> Some "__proto__") props ->
  on_prototype r1 = on_prototype r2 ->
  fst (fst (count_entries yr props idx r1)) = fst (fst (count_entries yr props idx r2))
  /\ snd (count_entries yr props idx r1) = snd (count_entries yr props idx r2)
  /\ on_prototype (snd (fst (count_entries yr props idx r1))) = on_prototype r1
  /\ on_prototype (snd (fst (count_entries yr props idx r2))) = on_prototype r2.
Proof.
  intros Hall. revert idx r1 r2.
  induction Hall as [|prop props Hprop _ IH]; intros idx r1 r2 Heq; [done|].
  cbn [count_entries]. destruct (entry_address prop) as [addr|]; [|done].
  assert (Hne : addr <> "__proto__") by congruence.
  pose proof (count_entry_index yr idx r1 r2 addr Heq) as Hidx.
  pose proof (count_entry_prototype yr idx) as Hproto.
  destruct (count_entry yr idx r1 addr) as [[i1 r1']|] eqn:H1,
           (count_entry yr idx r2 addr) as [[i2 r2']|] eqn:H2;
    cbn in Hidx; try discriminate Hidx; [|done].
  injection Hidx as <-.
  pose proof (Hproto _ _ _ _ Hne H1) as Hr1.
  pose proof (Hproto _ _ _ _ Hne H2) as Hr2.
  destruct (IH i1 r1' r2') as (Hi & Hok & Hp1 & Hp2); [congruence|].
  split_and!; [done | done | congruence | congruence].
Qed.

Lemma count_chunks_index (fs : gmap string artifact) (yr : Z)
    (chunks : list chunkInfo) (idx : MasterIndex) (r1 r2 : realm) :
  Forall (fun prop => entry_address prop <> Some "__proto__")
         (flat_map (chunk_entries fs yr) chunks) ->
  on_prototype r1 = on_prototype r2 ->
  fst (fst (count_chunks fs yr chunks idx r1))
  = fst (fst (count_chunks fs yr chunks idx r2))
  /\ on_prototype (snd (fst (count_chunks fs yr chunks idx r1))) = on_prototype r1
  /\ on_prototype (snd (fst (count_chunks fs yr chunks idx r2))) = on_prototype r2.
Proof.
  revert idx r1 r2. induction chunks as [|chunk chunks IH]; intros idx r1 r2 Hall Heq;
    [done|].
  cbn [flat_map] in Hall. apply Forall_app in Hall as [Hhere Hrest].
  unfold chunk_entries in Hhere. cbn [count_chunks].
  destruct (fs !! path_join (pretty yr) (info_filename chunk)) as [[cd| | | |]|];
    try done.
  destruct (count_entries_index yr (chunk_properties cd) idx r1 r2 Hhere Heq)
    as (Hi & Hok & Hp1 & Hp2).
  destruct (count_entries yr (chunk_properties cd) idx r1) as [[i1 r1'] ok1],
           (count_entries yr (chunk_properties cd) idx r2) as [[i2 r2'] ok2].
  cbn [fst snd] in *. subst i2 ok2.
  destruct ok1; [|done].
  destruct (IH i1 r1' r2' Hrest) as (Hi & Hq1 & Hq2); [congruence|].
  split_and!; [done | congruence | congruence].
Qed.

Lemma build_index_index (fs : gmap string artifact) (years : list Z)
    (idx : MasterIndex) (r1 r2 : realm) :
  Forall (fun yr => count_address "__proto__" (year_entries fs yr) = 0%nat) years ->
  on_prototype r1 = on_prototype r2 ->
  fst (fold_left (count_year fs) years (idx, r1))
  = fst (fold_left (count_year fs) years (idx, r2))
  /\ on_prototype (snd (fold_left (count_year fs) years (idx, r1))) = on_prototype r1.
Proof.
  intros Hall. revert idx r1 r2.
  induction Hall as [|yr years Hyr _ IH]; intros idx r1 r2 Heq; [done|].
  cbn [fold_left].
  assert (Hstep : fst (count_year fs (idx, r1) yr) = fst (count_year fs (idx, r2) yr)
                  /\ on_prototype (snd (count_year fs (idx, r1) yr)) = on_prototype r1
                  /\ on_prototype (snd (count_year fs (idx, r2) yr)) = on_prototype r2).
  { unfold count_year, year_entries in *. cbn [fst snd].
    destruct (fs !! path_join (pretty yr) "manifest.json") as [[|m| | |]|]; try done.
    apply count_address_zero in Hyr.
    by apply count_chunks_index. }
  destruct Hstep as (Hi & Hp1 & Hp2).
  destruct (count_year fs (idx, r1) yr) as [i1 r1'],
           (count_year fs (idx, r2) yr) as [i2 r2'].
  cbn [fst snd] in *. subst i2.
  destruct (IH i1 r1' r2') as [Hfst Hsnd]; [congruence|].
  split; [done | congruence].
Qed.

(** X12. The index is a function of the manifests and the chunks. No
    counter changes in building it, and it is built from an empty object:
    a previous index is not read. When no entry of a processed year has
    the address [__proto__], building it leaves [Object.prototype] as it
    is, and building it a second time in the same process leaves the same
    files: the same index is written again. *)
Theorem createOptimizedIndices_idempotent (w : world) :
  (forall yr, yr ∈ yearsProcessed (counters w) ->
              count_address "__proto__" (year_entries (files w) yr) = 0%nat) ->
  files (createOptimizedIndices (createOptimizedIndices w))
  = files (createOptimizedIndices w)
  /\ on_prototype (prototypes (createOptimizedIndices w)) = on_prototype (prototypes w)
  /\ counters (createOptimizedIndices w) = counters w
  /\ forall previous r,
       on_prototype r = on_prototype (prototypes w) ->
       fst (build_index (<["master-address-index.json" := previous]> (files w))
                        (yearsProcessed (counters w)) r)
       = fst (build_index (files w) (yearsProcessed (counters w)) (prototypes w)).
Proof.
  intros Hno. apply Forall_forall in Hno.
  assert (Hsame : forall r,
             on_prototype r = on_prototype (prototypes w) ->
             fst (build_index (files w) (yearsProcessed (counters w)) r)
             = fst (build_index (files w) (yearsProcessed (counters w)) (prototypes w))).
  { intros r Hr. by apply build_index_index. }
  assert (Hkeep : on_prototype (snd (build_index (files w) (yearsProcessed (counters w))
                                                 (prototypes w)))
                  = on_prototype (prototypes w)).
  { by apply (build_index_index (files w) _ [] (prototypes w) (prototypes w)). }
  split_and!; [|exact Hkeep|done|].
  - unfold createOptimizedIndices at 1 2. cbn [files counters prototypes].
    rewrite build_index_reads, (Hsame _ Hkeep).
    unfold createOptimizedIndices. cbn [files]. apply insert_insert_eq.
  - intros previous r Hr. rewrite build_index_reads. by apply Hsame.
Qed.

Lemma count_year_partial_witness :
  stored (fst (count_year half_year ([], []) 2020)) "1 rawson st" 2020 = 1%nat.
Proof.
  refine (eq_trans
            (proj1 (proj2 (count_year_partial half_year [] [] 2020 half_manifest
                             [listed "a.json"] [listed "c.json"] (listed "b.json")
                             eq_refl eq_refl _ _ eq_refl _ _))
                   "1 rawson st" 2020 _) _).
  - constructor; [|constructor]. eexists. split; [reflexivity|].
    constructor; [|constructor]. eexists. split; [reflexivity | discriminate].
  - intros chunkData. discriminate.
  - intros k _. reflexivity.
  - intros a y. discriminate.
  - discriminate.
  - by vm_compute.
Defined.

Lemma createOptimizedIndices_idempotent_witness :
  files (createOptimizedIndices (createOptimizedIndices two_years))
  = files (createOptimizedIndices two_years).
Proof.
  apply (createOptimizedIndices_idempotent two_years).
  intros yr Hyr.
  apply elem_of_cons in Hyr as [->|Hyr]; [by vm_compute|].
  apply elem_of_cons in Hyr as [->|Hyr]; [by vm_compute|].
  by apply elem_of_nil in Hyr.
Defined.

(** *** The batch pipeline, from the archives to the index *)

Lemma add_year_elem (y x : Z) (years : list Z) :
  x ∈ add_year y years <-> x = y \/ x ∈ years.
Proof.
  unfold add_year. case_bool_decide as Hy.
  - split; [by right | intros [->|]; done].
  - rewrite elem_of_app, list_elem_of_singleton. tauto.
Qed.

Lemma add_year_NoDup (y : Z) (years : list Z) :
  NoDup years -> NoDup (add_year y years).
Proof.
  intros Hnd. unfold add_year. case_bool_decide as Hy; [done|].
  apply NoDup_app. split_and!; [done | | apply NoDup_singleton].
  intros x Hx Hx'. apply list_elem_of_singleton in Hx' as ->. done.
Qed.

Lemma filter_none {A : Type} (P : A -> Prop) `{forall x, Decision (P x)}
    (l : list A) :
  Forall (fun x => ~ P x) l -> filter P l = [].
Proof.
  induction 1 as [|x l Hx _ IH]; [done|]. by rewrite filter_cons_False.
Qed.

Lemma plain_records_addresses (r : realm) (properties : list property) :
  on_prototype r = [] ->
  plain_records properties = true <-> plain_addresses r properties.
Proof.
  intros Hclean. unfold plain_records, plain_addresses.
  rewrite forallb_forall, Forall_forall. split.
  - intros H p Hp. rewrite truthy_inherited_clean by done.
    apply list_elem_of_In, H, negb_true_iff in Hp. exact Hp.
  - intros H p Hp. apply list_elem_of_In, H in Hp.
    rewrite truthy_inherited_clean in Hp by done. by rewrite Hp.
Qed.

Section PipelineFacts.
Variable localeCompare : string -> string -> Z.
Variable byteSize : chunkData -> nat.
Variable now : string.
Variable cfg : config.
Variable thisYear : Z.
Variable AdmZip : string -> option archive.
Variable spreads : nat -> bool.
Hypothesis size_pos : (1 <= recordsPerChunk cfg)%nat.

Let process :=
  processYearlyZipOptimized localeCompare byteSize now cfg thisYear AdmZip spreads.
Let records := archive_records thisYear AdmZip spreads.
Let year_of := extractYear thisYear.
Let compact := fun p : property => json_object (compressProperty p).

(** The effect of one archive. *)
Lemma process_archive (zipFileName : string) (w : world) :
  (AdmZip zipFileName = None -> process zipFileName w = Some w)
  /\ (forall zip, AdmZip zipFileName = Some zip ->
        exists w',
          process zipFileName w = Some w'
          /\ readable_year (files w') (year_of zipFileName)
          /\ year_entries (files w') (year_of zipFileName)
             = map compact (sort_by_address localeCompare (records zipFileName))
          /\ (forall yr, yr <> year_of zipFileName ->
                year_entries (files w') yr = year_entries (files w) yr
                /\ (readable_year (files w) yr -> readable_year (files w') yr))
          /\ prototypes w' = prototypes w
          /\ (plain_addresses (prototypes w) (records zipFileName) ->
              totalProperties (counters w')
              = (totalProperties (counters w) + length (records zipFileName))%nat
              /\ yearsProcessed (counters w')
                 = add_year (year_of zipFileName) (yearsProcessed (counters w)))
          /\ (~ plain_addresses (prototypes w) (records zipFileName) ->
              totalProperties (counters w') = totalProperties (counters w)
              /\ yearsProcessed (counters w') = yearsProcessed (counters w))).
Proof.
  unfold process, processYearlyZipOptimized. split.
  - by intros ->.
  - intros zip Hzip. rewrite Hzip.
    fold year_of. unfold records, archive_records. rewrite Hzip. fold year_of.
    set (all := parse_files spreads (year_of zipFileName) (findDATFilesRecursively zip)).
    destruct (written_year_reads_back localeCompare byteSize now cfg size_pos
                (year_of zipFileName) all w)
      as (r & w1 & Hrun & Hret & Hthrow & Hread & Hentries & _ & Hother & Hproto
          & Htotal & Hyears).
    rewrite Hrun.
    destruct (Forall_dec (fun p => truthy_inherited (prototypes w)
                                     (toLowerCase (address p)) = false) all)
      as [Hyes|Hnot].
    + rewrite (Hret Hyes). eexists. split; [reflexivity|].
      cbn [files counters prototypes totalProperties yearsProcessed].
      rewrite Htotal, Hyears. split_and!; done.
    + rewrite (Hthrow Hnot). exists w1. split_and!; done.
Qed.

(** X13. One archive. An archive that does not open leaves the state as it
    is, and its year is not recorded. For an archive that opens, the
    chunks and the manifest of its year are written from its records,
    those of the raw-data files whose records the loop could add: the
    year then reads back as the compact forms of these records sorted by
    address, whatever the year held before, so that a second archive of
    the same year replaces the first, and the other years read back as
    before. When no address of the archive is a name under which a plain
    object inherits a truthy value, the total of the counters grows by
    the number of records and the year is recorded once; otherwise the
    writer of the address files throws, the [catch] logs the archive, and
    neither the total nor the years recorded change. *)
Theorem processYearlyZipOptimized_step (zipFileName : string) (w : world) :
  (AdmZip zipFileName = None -> process zipFileName w = Some w)
  /\ (forall zip, AdmZip zipFileName = Some zip ->
        exists w',
          process zipFileName w = Some w'
          /\ readable_year (files w') (year_of zipFileName)
          /\ year_entries (files w') (year_of zipFileName)
             = map compact (sort_by_address localeCompare (records zipFileName))
          /\ (forall yr, yr <> year_of zipFileName ->
                year_entries (files w') yr = year_entries (files w) yr
                /\ (readable_year (files w) yr -> readable_year (files w') yr))
          /\ prototypes w' = prototypes w
          /\ (plain_addresses (prototypes w) (records zipFileName) ->
              totalProperties (counters w')
              = (totalProperties (counters w) + length (records zipFileName))%nat
              /\ yearsProcessed (counters w')
                 = add_year (year_of zipFileName) (yearsProcessed (counters w)))
          /\ (~ plain_addresses (prototypes w) (records zipFileName) ->
              totalProperties (counters w') = totalProperties (counters w)
              /\ yearsProcessed (counters w') = yearsProcessed (counters w))).
Proof. exact (process_archive zipFileName w). Qed.

Lemma process_zips_app (zs1 zs2 : list string) (w : world) :
  process_zips localeCompare byteSize now cfg thisYear AdmZip spreads (zs1 ++ zs2) w
  = process_zips localeCompare byteSize now cfg thisYear AdmZip spreads zs1 w
    ≫= process_zips localeCompare byteSize now cfg thisYear AdmZip spreads zs2.
Proof.
  revert w. induction zs1 as [|z zs1 IH]; intros w; [done|].
  cbn [app process_zips]. fold process. destruct (process z w); [apply IH | done].
Qed.

(** The records that an archive adds to the total. *)
Let counted := fun z : string =>
  if plain_records (records z) then length (records z) else 0%nat.

(** What holds after the archives [zs], processed in turn from a state
    in which no year is recorded. *)
Lemma process_zips_invariant (zs : list string) (fs : gmap string artifact) :
  NoDup (map year_of zs) ->
  exists w,
    process_zips localeCompare byteSize now cfg thisYear AdmZip spreads zs
                 (initial_world fs)
    = Some w
    /\ prototypes w = []
    /\ NoDup (yearsProcessed (counters w))
    /\ (forall yr, yr ∈ yearsProcessed (counters w)
                   <-> exists z, z ∈ zs /\ is_Some (AdmZip z)
                                 /\ plain_records (records z) = true
                                 /\ year_of z = yr)
    /\ (forall z, z ∈ zs -> is_Some (AdmZip z) ->
          readable_year (files w) (year_of z)
          /\ year_entries (files w) (year_of z)
             = map compact (sort_by_address localeCompare (records z)))
    /\ totalProperties (counters w) = list_sum (map counted zs).
Proof.
  induction zs as [|z zs IH] using rev_ind; intros Hnd.
  { exists (initial_world fs). split_and!.
    - done.
    - done.
    - apply NoDup_nil_2.
    - intros yr. split; [intros H; by apply not_elem_of_nil in H|].
      intros (z & Hz & _). by apply not_elem_of_nil in Hz.
    - intros z Hz. by apply not_elem_of_nil in Hz.
    - done. }
  rewrite map_app in Hnd. apply NoDup_app in Hnd as (Hnd & Hfresh & _).
  destruct (IH Hnd) as (w & Hrun & Hclean & Hnodup & Hyears & Hread & Htotal).
  rewrite process_zips_app, Hrun. cbn [mbind option_bind process_zips]. fold process.
  assert (Hsum : list_sum (map counted (zs ++ [z]))
                 = (list_sum (map counted zs) + counted z)%nat).
  { rewrite map_app, list_sum_app. cbn. lia. }
  assert (Hproto : on_prototype (prototypes w) = []) by by rewrite Hclean.
  destruct (process_archive z w) as [Hnone Hsome].
  destruct (AdmZip z) as [zip|] eqn:Hzip.
  - destruct (Hsome zip eq_refl)
      as (w' & -> & Hr & He & Hother & Hp & Hplain & Hthrown).
    assert (Hkeep : forall z', z' ∈ zs ++ [z] -> is_Some (AdmZip z') ->
               readable_year (files w') (year_of z')
               /\ year_entries (files w') (year_of z')
                  = map compact (sort_by_address localeCompare (records z'))).
    { intros z' Hz' Ho. apply elem_of_app in Hz' as [Hz'|Hz'].
      - assert (Hne : year_of z' <> year_of z).
        { intros Heq. apply (Hfresh (year_of z')).
          - apply list_elem_of_fmap. eauto.
          - rewrite Heq. cbn. left. }
        destruct (Hother _ Hne) as [-> Hk].
        destruct (Hread z' Hz' Ho) as [? ?]. split; [by apply Hk | done].
      - apply list_elem_of_singleton in Hz' as ->. done. }
    exists w'. split; [done|]. split; [congruence|].
    destruct (plain_records (records z)) eqn:Hrec.
    + assert (Hyes : plain_addresses (prototypes w) (records z)).
      { by apply plain_records_addresses. }
      destruct (Hplain Hyes) as [Ht Hy]. split_and!; [| |done|].
      * rewrite Hy. by apply add_year_NoDup.
      * intros yr. rewrite Hy, add_year_elem, Hyears. split.
        -- intros [->|(z' & Hz' & Ho & Hpl & <-)].
           ++ exists z. rewrite elem_of_app, list_elem_of_singleton, Hzip. eauto.
           ++ exists z'. rewrite elem_of_app. eauto.
        -- intros (z' & Hz' & Ho & Hpl & <-).
           apply elem_of_app in Hz' as [Hz'|Hz'].
           ++ right. eauto.
           ++ apply list_elem_of_singleton in Hz' as ->. by left.
      * rewrite Ht, Htotal, Hsum. unfold counted at 3. by rewrite Hrec.
    + assert (Hnot : ~ plain_addresses (prototypes w) (records z)).
      { intros H. apply plain_records_addresses in H; [|done]. congruence. }
      destruct (Hthrown Hnot) as [Ht Hy]. split_and!; [| |done|].
      * by rewrite Hy.
      * intros yr. rewrite Hy, Hyears. split.
        -- intros (z' & Hz' & Ho & Hpl & <-). exists z'. rewrite elem_of_app. eauto.
        -- intros (z' & Hz' & Ho & Hpl & <-). apply elem_of_app in Hz' as [Hz'|Hz'].
           ++ eauto.
           ++ apply list_elem_of_singleton in Hz' as ->. congruence.
      * rewrite Ht, Htotal, Hsum. unfold counted at 3. rewrite Hrec. lia.
  - rewrite (Hnone eq_refl). exists w. split_and!; [done|done|done| | |].
    + intros yr. rewrite Hyears. split.
      * intros (z' & Hz' & Ho & Hpl & <-). exists z'. rewrite elem_of_app. eauto.
      * intros (z' & Hz' & Ho & Hpl & <-). apply elem_of_app in Hz' as [Hz'|Hz'].
        -- eauto.
        -- apply list_elem_of_singleton in Hz' as ->. rewrite Hzip in Ho.
           by destruct Ho.
    + intros z' Hz' Ho. apply elem_of_app in Hz' as [Hz'|Hz']; [by apply Hread|].
      apply list_elem_of_singleton in Hz' as ->. rewrite Hzip in Ho. by destruct Ho.
    + rewrite Htotal, Hsum. unfold counted at 3, records, archive_records.
      rewrite Hzip. cbn. lia.
Qed.

(** X14. The whole run. When the archives of the listing have years that
    differ from one another, the run from a fresh state goes to its end
    and writes a master index. For every archive that opened and none of
    whose addresses lower-cases to a property name of [Object.prototype],
    the index holds, for every address, under the year of the archive the
    number of records of the archive with that address, case aside, and
    no entry when that number is zero. An archive that opened and has
    such an address leaves chunks and a manifest that read back, but its
    year has no count in the index. A year of no archive of the first
    kind has no count; and the total of the counters is the number of
    records of the archives of the first kind. The records of an archive
    are those of its raw-data files whose records the loop could add. *)
Theorem processDataForGitHub_index (listing : list string)
    (fs : gmap string artifact) :
  NoDup (map year_of (zip_files listing)) ->
  exists w masterIndex,
    processDataForGitHub localeCompare byteSize now cfg thisYear AdmZip spreads listing
                         (initial_world fs) = Some w
    /\ files w !! "master-address-index.json" = Some (AIndex masterIndex)
    /\ (forall z addr,
          z ∈ zip_files listing -> is_Some (AdmZip z) ->
          plain_records (records z) = true -> addr <> "" ->
          index_count masterIndex addr (year_of z)
          = match length (filter (fun p => toLowerCase (address p) = addr) (records z)) with
            | O => None
            | n => Some n
            end)
    /\ (forall z addr,
          z ∈ zip_files listing -> is_Some (AdmZip z) ->
          plain_records (records z) = false ->
          readable_year (files w) (year_of z)
          /\ year_entries (files w) (year_of z)
             = map compact (sort_by_address localeCompare (records z))
          /\ index_count masterIndex addr (year_of z) = None)
    /\ (forall yr addr,
          (forall z, z ∈ zip_files listing -> is_Some (AdmZip z) ->
                     plain_records (records z) = true -> year_of z <> yr) ->
          index_count masterIndex addr yr = None)
    /\ totalProperties (counters w) = list_sum (map counted (zip_files listing)).
Proof.
  intros Hnd. unfold processDataForGitHub. fold (zip_files listing).
  destruct (process_zips_invariant (zip_files listing) fs Hnd)
    as (w & -> & Hclean & Hnodup & Hyears & Hread & Htotal).
  assert (Hproto : on_prototype (prototypes w) = []) by by rewrite Hclean.
  assert (Hreadable : Forall (readable_year (files w)) (yearsProcessed (counters w))).
  { apply Forall_forall. intros yr Hyr. apply Hyears in Hyr as (z & Hz & Ho & _ & <-).
    by apply Hread. }
  assert (Hcount : forall z addr,
             z ∈ zip_files listing -> is_Some (AdmZip z) ->
             count_address addr (year_entries (files w) (year_of z))
             = length (filter (fun p => toLowerCase (address p) = addr) (records z))).
  { intros z addr Hz Ho. destruct (Hread z Hz Ho) as [_ ->].
    unfold compact, sort_by_address. rewrite count_address_compress.
    symmetry. apply filter_length_perm, Array_sort_perm. }
  assert (Hzero : Forall (fun yr => count_address "__proto__"
                                      (year_entries (files w) yr) = 0%nat)
                         (yearsProcessed (counters w))).
  { apply Forall_forall. intros yr Hyr.
    apply Hyears in Hyr as (z & Hz & Ho & Hpl & <-). rewrite Hcount by done.
    apply length_zero_iff_nil, filter_none.
    unfold plain_records in Hpl. rewrite forallb_forall in Hpl.
    apply Forall_forall. intros p Hp Heq.
    apply list_elem_of_In, Hpl in Hp. by rewrite Heq in Hp. }
  destruct (build_index_counts (files w) _ (prototypes w) Hnodup Hreadable Hproto Hzero)
    as (Hget & Hplain & Hempty & _).
  set (built := build_index (files w) (yearsProcessed (counters w)) (prototypes w))
    in *.
  assert (Hout : forall yr addr,
             (forall z, z ∈ zip_files listing -> is_Some (AdmZip z) ->
                        plain_records (records z) = true -> year_of z <> yr) ->
             index_count (fst built) addr yr = None).
  { intros yr addr Hno.
    assert (Hyr : yr ∉ yearsProcessed (counters w)).
    { intros Hyr. apply Hyears in Hyr as (z & Hz & Ho & Hpl & <-).
      by apply (Hno z). }
    destruct (decide (addr = "")) as [->|Haddr]; [by rewrite Hempty|].
    rewrite Hget by done. rewrite decide_False; [done | tauto]. }
  exists (createOptimizedIndices w), (fst built). split_and!.
  - done.
  - apply lookup_insert_eq.
  - intros z addr Hz Ho Hpl Haddr. rewrite Hget by done.
    rewrite <- Hcount by done.
    destruct (inherited_name addr) eqn:Hname.
    + rewrite decide_False by (intros [_ ?]; done).
      rewrite Hcount by done.
      replace (filter _ (records z)) with ([] : list property); [done|].
      symmetry. apply filter_none.
      unfold plain_records in Hpl. rewrite forallb_forall in Hpl.
      apply Forall_forall. intros p Hp Heq.
      apply list_elem_of_In, Hpl in Hp. rewrite Heq, Hname in Hp. done.
    + rewrite decide_True; [done|]. split; [|done]. apply Hyears. eauto.
  - intros z addr Hz Ho Hpl. destruct (Hread z Hz Ho) as [Hr He].
    split; [by apply readable_year_index|].
    split; [cbn [createOptimizedIndices files]; by rewrite year_entries_index|].
    apply Hout. intros z' Hz' Ho' Hpl' Heq.
    assert (z' = z); [|congruence].
    apply list_elem_of_lookup in Hz' as [i Hi]. apply list_elem_of_lookup in Hz as [j Hj].
    assert (i = j); [|congruence].
    apply (NoDup_lookup _ i j (year_of z) Hnd); rewrite list_lookup_fmap.
    + by rewrite Hi, <- Heq.
    + by rewrite Hj.
  - exact Hout.
  - cbn [createOptimizedIndices counters]. exact Htotal.
Qed.
End PipelineFacts.

Lemma processYearlyZipOptimized_step_witness :
  processYearlyZipOptimized codeunit_compare (fun _ => 0%nat) "2025-08-22T11:24:45.195Z"
                            (make_config no_settings) 2025 source_AdmZip (fun _ => true)
                            "2019-broken.zip" two_years
  = Some two_years
  /\ (exists w',
       processYearlyZipOptimized codeunit_compare (fun _ => 0%nat)
                                 "2025-08-22T11:24:45.195Z" (make_config no_settings)
                                 2025 source_AdmZip (fun _ => true) "2020.zip"
                                 (initial_world ∅)
       = Some w'
       /\ totalProperties (counters w') = 3%nat
       /\ yearsProcessed (counters w') = [2020])
  /\ (exists w',
       processYearlyZipOptimized codeunit_compare (fun _ => 0%nat)
                                 "2025-08-22T11:24:45.195Z" (make_config no_settings)
                                 2025 weekly_AdmZip (fun _ => true) "20200113.zip"
                                 (initial_world ∅)
       = Some w'
       /\ readable_year (files w') 2020
       /\ totalProperties (counters w') = 0%nat
       /\ yearsProcessed (counters w') = []).
Proof.
  destruct (processYearlyZipOptimized_step codeunit_compare (fun _ => 0%nat)
              "2025-08-22T11:24:45.195Z" (make_config no_settings) 2025 source_AdmZip
              (fun _ => true) (make_config_size no_settings) "2019-broken.zip" two_years)
    as [Hnone _].
  destruct (processYearlyZipOptimized_step codeunit_compare (fun _ => 0%nat)
              "2025-08-22T11:24:45.195Z" (make_config no_settings) 2025 source_AdmZip
              (fun _ => true) (make_config_size no_settings) "2020.zip" (initial_world ∅))
    as [_ Hsome].
  destruct (processYearlyZipOptimized_step codeunit_compare (fun _ => 0%nat)
              "2025-08-22T11:24:45.195Z" (make_config no_settings) 2025 weekly_AdmZip
              (fun _ => true) (make_config_size no_settings) "20200113.zip"
              (initial_world ∅))
    as [_ Hthrown].
  split; [exact (Hnone eq_refl)|]. split.
  - destruct (Hsome _ eq_refl) as (w' & Hrun & _ & _ & _ & _ & Hplain & _).
    exists w'. split; [exact Hrun|].
    destruct Hplain as [Htotal Hyears].
    { apply (plain_records_addresses [] _ eq_refl). vm_compute. reflexivity. }
    split.
    + exact (eq_trans Htotal eq_refl).
    + exact (eq_trans Hyears eq_refl).
  - destruct (Hthrown _ eq_refl) as (w' & Hrun & Hread & _ & _ & _ & _ & Hnot).
    exists w'. split; [exact Hrun|]. split; [exact Hread|].
    destruct Hnot as [Htotal Hyears].
    { intros H. apply (plain_records_addresses [] _ eq_refl) in H.
      vm_compute in H. discriminate H. }
    split.
    + exact (eq_trans Htotal eq_refl).
    + exact (eq_trans Hyears eq_refl).
Defined.

Lemma processDataForGitHub_index_witness :
  exists w masterIndex,
    processDataForGitHub codeunit_compare (fun _ => 0%nat) "2025-08-22T11:24:45.195Z"
                         (make_config no_settings) 2025 source_AdmZip (fun _ => true)
                         source_listing (initial_world ∅) = Some w
    /\ files w !! "master-address-index.json" = Some (AIndex masterIndex)
    /\ index_count masterIndex "7 elm st" 2020 = Some 2%nat
    /\ index_count masterIndex "7 elm st" 2021 = Some 1%nat
    /\ index_count masterIndex "7 elm st" 2019 = None
    /\ totalProperties (counters w) = 4%nat.
Proof.
  assert (Hnd : NoDup (map (extractYear 2025) (zip_files source_listing))).
  { apply (bool_decide_unpack _). by vm_compute. }
  destruct (processDataForGitHub_index codeunit_compare (fun _ => 0%nat)
              "2025-08-22T11:24:45.195Z" (make_config no_settings) 2025 source_AdmZip
              (fun _ => true) (make_config_size no_settings) source_listing ∅ Hnd)
    as (w & masterIndex & Hrun & Hidx & Hcount & _ & Hnone & Htotal).
  exists w, masterIndex. split; [exact Hrun|]. split; [exact Hidx|].
  assert (Hin : forall z, z ∈ ["2020.zip"; "sales-2021.ZIP"; "2019-broken.zip"] ->
                          z ∈ zip_files source_listing).
  { intros z Hz. exact Hz. }
  split_and!.
  - refine (eq_trans (Hcount "2020.zip" "7 elm st" (Hin _ _) _ _ _) _).
    + apply list_elem_of_here.
    + by eexists.
    + by vm_compute.
    + discriminate.
    + by vm_compute.
  - refine (eq_trans (Hcount "sales-2021.ZIP" "7 elm st" (Hin _ _) _ _ _) _).
    + apply list_elem_of_further, list_elem_of_here.
    + by eexists.
    + by vm_compute.
    + discriminate.
    + by vm_compute.
  - apply Hnone. intros z Hz Ho.
    apply elem_of_cons in Hz as [->|Hz]; [discriminate|].
    apply elem_of_cons in Hz as [->|Hz]; [discriminate|].
    apply elem_of_cons in Hz as [->|Hz]; [by destruct Ho|].
    by apply not_elem_of_nil in Hz.
  - rewrite Htotal. by vm_compute.
Defined.

(** C6. The index builder on a year with an address that is a property
    name of [Object.prototype]. Two weekly archives of 2020 are processed
    from a fresh state; the second holds two sales whose address is
    [CONSTRUCTOR] and one at [7 ELM ST]. The year is recorded with the
    first archive, the second replaces its chunks, and the chunks of 2020
    then hold two entries of the address [constructor]; yet the master
    index that is written has no entry for that address, while it counts
    the one entry of [7 elm st]: the two entries were counted on the
    member [constructor] that every plain object inherits. *)
Theorem createOptimizedIndices_constructor :
  exists w masterIndex,
    processDataForGitHub codeunit_compare (fun _ => 0%nat) "2025-08-22T11:24:45.195Z"
                         (make_config no_settings) 2025 weekly_AdmZip (fun _ => true)
                         weekly_listing (initial_world ∅) = Some w
    /\ yearsProcessed (counters w) = [2020]
    /\ files w !! "master-address-index.json" = Some (AIndex masterIndex)
    /\ count_address "constructor" (year_entries (files w) 2020) = 2%nat
    /\ obj_get masterIndex "constructor" = None
    /\ index_count masterIndex "constructor" 2020 = None
    /\ index_count masterIndex "7 elm st" 2020 = Some 1%nat
    /\ obj_get (prototypes w) "constructor" = Some [("2020", 2%nat)].
Proof.
  destruct (processDataForGitHub codeunit_compare (fun _ => 0%nat)
              "2025-08-22T11:24:45.195Z" (make_config no_settings) 2025 weekly_AdmZip
              (fun _ => true) weekly_listing (initial_world ∅)) as [w|] eqn:Hrun;
    vm_compute in Hrun; [|discriminate Hrun].
  injection Hrun as <-.
  eexists _, _. split; [reflexivity|].
  split; [reflexivity|]. split; [vm_compute; reflexivity|].
  split_and!; vm_compute; reflexivity.
Qed.

(** *** The read side: the cache and the lookups *)

Section ReaderFacts.
Variable cfg : config.
Variable https_get : string -> http_outcome.
Variable JSON_parse : string -> option artifact.

(** X15. The fetch and its cache. On a cache miss the fetch asks the
    remote once. When the request fails, by a network error, a status
    other than 200 or a body that does not parse, it resolves with [null]
    and stores nothing, so that the next fetch asks the remote again.
    When the body parses, it resolves with the document and has stored
    it, also when the document is [null] or another falsy value: from
    then on the same path resolves with the same document whatever the
    remote answers. No fetch touches the entry of another path or a
    cached result of a search. Here [Return None] is the [null] of a
    failed request and [Return (Some AFalsy)] a falsy document that was
    parsed. (The timers that drop an entry after a delay are outside the
    model.) *)
Theorem fetchGitHubFile_caches (filepath : string) (c : cache) :
  (forall v c',
      fetchGitHubFile cfg https_get JSON_parse filepath c = (Return (Some v), c') ->
      github_ c' !! filepath = Some v
      /\ forall https_get' JSON_parse',
           fetchGitHubFile cfg https_get' JSON_parse' filepath c'
           = (Return (Some v), c'))
  /\ (forall c',
        fetchGitHubFile cfg https_get JSON_parse filepath c = (Return None, c') ->
        c' = c /\ github_ c !! filepath = None
        /\ match https_get (raw_url cfg filepath) with
           | NetworkError => True
           | Response statusCode body => statusCode <> 200%nat \/ JSON_parse body = None
           end)
  /\ (github_ c !! filepath = None ->
      match https_get (raw_url cfg filepath) with
      | NetworkError => fetchGitHubFile cfg https_get JSON_parse filepath c = (Return None, c)
      | Response statusCode body =>
          if decide (statusCode = 200%nat)
          then match JSON_parse body with
               | Some parsed =>
                   exists c',
                     fetchGitHubFile cfg https_get JSON_parse filepath c
                     = (Return (Some parsed), c')
                     /\ github_ c' !! filepath = Some parsed
               | None =>
                   fetchGitHubFile cfg https_get JSON_parse filepath c = (Return None, c)
               end
          else fetchGitHubFile cfg https_get JSON_parse filepath c = (Return None, c)
      end)
  /\ (forall body,
        github_ c !! filepath = None ->
        https_get (raw_url cfg filepath) = Response 200 body ->
        JSON_parse body = Some AFalsy ->
        exists c',
          fetchGitHubFile cfg https_get JSON_parse filepath c
          = (Return (Some AFalsy), c')
          /\ truthy_artifact (Some AFalsy) = false
          /\ github_ c' !! filepath = Some AFalsy
          /\ forall https_get' JSON_parse',
               fetchGitHubFile cfg https_get' JSON_parse' filepath c'
               = (Return (Some AFalsy), c'))
  /\ (forall r c',
        fetchGitHubFile cfg https_get JSON_parse filepath c = (r, c') ->
        (forall other, other <> filepath -> github_ c' !! other = github_ c !! other)
        /\ search_ c' = search_ c /\ property_ c' = property_ c
        /\ price_ c' = price_ c).
Proof.
  unfold fetchGitHubFile. split_and!.
  - intros v c'. destruct (github_ c !! filepath) as [cached|] eqn:Hc.
    + intros [= <- <-]. split; [done|]. intros g p. by rewrite Hc.
    + destruct (https_get _) as [|code body]; [done|].
      destruct (negb _); [done|]. destruct (JSON_parse body) as [parsed|]; [|done].
      intros [= <- <-]. cbn [github_]. rewrite lookup_insert_eq. by split.
  - intros c'. destruct (github_ c !! filepath) as [cached|] eqn:Hc; [done|].
    destruct (https_get _) as [|code body]; [by intros [= <-]|].
    destruct (code =? 200)%nat eqn:Hcode; cbn [negb].
    + destruct (JSON_parse body) as [parsed|]; [done|]. intros [= <-]. tauto.
    + intros [= <-]. apply Nat.eqb_neq in Hcode. tauto.
  - intros ->. destruct (https_get _) as [|code body]; [done|].
    destruct (decide (code = 200%nat)) as [->|Hcode].
    + rewrite Nat.eqb_refl. cbn [negb].
      destruct (JSON_parse body) as [parsed|]; [|done].
      eexists. split; [reflexivity|]. cbn [github_]. apply lookup_insert_eq.
    + apply Nat.eqb_neq in Hcode. by rewrite Hcode.
  - intros body -> -> ->. rewrite Nat.eqb_refl. cbn [negb].
    eexists. split; [reflexivity|]. cbn [github_]. rewrite lookup_insert_eq.
    split; [done|]. split; [done|]. intros g p. done.
  - intros r c'. destruct (github_ c !! filepath) as [cached|] eqn:Hc.
    { by intros [= <- <-]. }
    destruct (https_get _) as [|code body]; [by intros [= <- <-]|].
    destruct (negb _); [by intros [= <- <-]|].
    destruct (JSON_parse body) as [parsed|]; [|by intros [= <- <-]].
    intros [= <- <-]. cbn. split_and!; try done.
    intros other Hne. by apply lookup_insert_ne.
Qed.

Lemma search_addresses_coherent (masterIndex : MasterIndex)
    (addresses : list string) (limit : nat)
    (results : list (gmap string value)) (c : cache) :
  exists r c',
    search_addresses cfg https_get JSON_parse masterIndex addresses limit results c
    = (Return r, c')
    /\ coherent cfg https_get JSON_parse c c'.
Proof.
  revert results c. induction addresses as [|a addresses IH]; intros results c.
  { eexists _, _. split; [reflexivity | apply coherent_refl]. }
  cbn [search_addresses]. unfold bind.
  destruct (search_years_accumulate cfg https_get JSON_parse a
              (slice 0 3 (Object_keys (default [] (obj_get masterIndex a))))
              limit results c) as (c1 & -> & Hc1).
  destruct (_ <=? _)%nat.
  - eexists _, _. split; [reflexivity | done].
  - destruct (IH (accumulate limit
                    (map (lookup_address_year (served cfg https_get JSON_parse c) a)
                         (slice 0 3 (Object_keys (default [] (obj_get masterIndex a)))))
                    results) c1) as (r & c2 & -> & Hc2).
    eexists _, _. split; [reflexivity|]. by eapply coherent_trans.
Qed.

(** X16. The cache of the address search. A search that finds the master
    index stores what it returns under the lowercased query, and a later
    search for the same query, case aside, returns the first [limit]
    records of what is stored without any fetch: never more records than
    the first search returned, whatever limit it is given. A search that
    does not find the index returns nothing and stores nothing. *)
Theorem searchAddressFromGitHub_cached (Date_time : value -> option Z)
    (query : string) (limit : nat) (c : cache) :
  search_ c !! toLowerCase query = None ->
  (forall masterIndex,
      served cfg https_get JSON_parse c "master-address-index.json"
      = Some (AIndex masterIndex) ->
      exists results c',
        searchAddressFromGitHub cfg https_get JSON_parse Date_time query limit c
        = (Return results, c')
        /\ search_ c' !! toLowerCase query = Some results
        /\ forall https_get' JSON_parse' Date_time' query' limit',
             toLowerCase query' = toLowerCase query ->
             searchAddressFromGitHub cfg https_get' JSON_parse' Date_time'
                                     query' limit' c'
             = (Return (take limit' results), c'))
  /\ (truthy_artifact (served cfg https_get JSON_parse c "master-address-index.json")
      = false ->
      exists c',
        searchAddressFromGitHub cfg https_get JSON_parse Date_time query limit c
        = (Return [], c')
        /\ search_ c' !! toLowerCase query = None).
Proof.
  intros Hmiss. unfold searchAddressFromGitHub at 1 3. rewrite Hmiss.
  unfold try_catch, bind.
  destruct (fetchGitHubFile_served cfg https_get JSON_parse
              "master-address-index.json" c) as (c1 & -> & Hc1).
  split.
  - intros masterIndex ->. cbn [truthy_artifact negb].
    destruct (search_addresses_coherent masterIndex
                (matching_addresses masterIndex (toLowerCase query)) limit [] c1)
      as (r & c2 & -> & Hc2).
    cbn [set_search ret]. eexists _, _. split; [reflexivity|].
    cbn [search_]. rewrite lookup_insert_eq. split; [done|].
    intros g p d query' limit' Hq. unfold searchAddressFromGitHub.
    cbn [search_]. rewrite Hq, lookup_insert_eq. by rewrite slice_0.
  - intros Hfalsy. rewrite Hfalsy. cbn [negb throw ret].
    eexists. split; [reflexivity|].
    destruct Hc1 as (_ & -> & _). done.
Qed.

Variable inherits : realm.
Variable spreads : nat -> bool.

Lemma load_years_lookup (address : string) (years : list string)
    (results : list (gmap string value)) (c : cache) :
  exists c',
    coherent cfg https_get JSON_parse c c'
    /\ load_years cfg https_get JSON_parse spreads address years results c
       = (if forallb (fun yr =>
                        spreads (length (lookup_address_year
                                           (served cfg https_get JSON_parse c)
                                           address yr)))
                     years
          then Return (results
                       ++ flat_map (lookup_address_year
                                      (served cfg https_get JSON_parse c) address)
                                   years)
          else Throw "RangeError", c').
Proof.
  revert results c. induction years as [|yr years IH]; intros results c.
  { cbn. rewrite app_nil_r. eexists. split; [apply coherent_refl | reflexivity]. }
  cbn [load_years flat_map forallb]. unfold bind.
  destruct (loadPropertiesForAddressYear_lookup cfg https_get JSON_parse address yr c)
    as (c1 & -> & Hc1).
  destruct (spreads (length _)); cbn [andb]; [|by exists c1].
  destruct (IH (results ++ lookup_address_year (served cfg https_get JSON_parse c)
                                               address yr) c1)
    as (c2 & Hc2 & ->).
  exists c2. split; [by eapply coherent_trans|].
  assert (Hext : forall y,
             lookup_address_year (served cfg https_get JSON_parse c1) address y
             = lookup_address_year (served cfg https_get JSON_parse c) address y).
  { intros y. apply lookup_address_year_ext. by destruct Hc1 as [? _]. }
  assert (Hall : forallb (fun y => spreads (length (lookup_address_year
                                       (served cfg https_get JSON_parse c1) address y)))
                         years
                 = forallb (fun y => spreads (length (lookup_address_year
                                       (served cfg https_get JSON_parse c) address y)))
                           years).
  { clear -Hext. induction years as [|y years IHy]; [done|].
    cbn [forallb]. by rewrite Hext, IHy. }
  rewrite Hall.
  match goal with |- context [forallb ?f years] => destruct (forallb f years) end;
    [|done].
  by rewrite (flat_map_ext _ _ Hext), <- app_assoc.
Qed.

(** X17. The lookup of one address. On a cache miss [getPropertyFromGitHub]
    returns nothing and stores nothing when the master index is not
    found, or when it is found and the value it gives for the lowercased
    address is falsy. Otherwise it takes the keys of that value as the
    years, returns the records that the lookups of these years give, year
    after year in the order of the keys, every record with this very
    address, case aside, stores the result under the lowercased address
    and returns it again without any fetch; when the records of some year
    are too many for one call of [push], it returns nothing and stores
    nothing. The value for an address that is a key of the index is the
    entry of the index. The index being a plain object, the value for an
    address that is no key of it is what the object inherits: with
    nothing put on [Object.prototype], a member of the prototype for a
    property name of it, such as [constructor], whose keys are the
    counters put on that member (none in a process that built no index),
    so that the empty result is stored; and nothing for another
    address. *)
Theorem getPropertyFromGitHub_spec (address : string) (c : cache) :
  property_ c !! toLowerCase address = None ->
  let key := toLowerCase address in
  let fetched := served cfg https_get JSON_parse c in
  let get := getPropertyFromGitHub cfg https_get JSON_parse inherits spreads in
  (fetched "master-address-index.json" = None ->
     exists c', get address c = (Return [], c') /\ property_ c' !! key = None)
  /\ (forall masterIndex,
        fetched "master-address-index.json" = Some (AIndex masterIndex) ->
        (held_years inherits masterIndex key = None ->
           exists c', get address c = (Return [], c') /\ property_ c' !! key = None)
        /\ (forall years,
              held_years inherits masterIndex key = Some years ->
              let found := flat_map (lookup_address_year fetched key) years in
              let fits :=
                forallb (fun yr => spreads (length (lookup_address_year fetched key yr)))
                        years in
              (fits = true ->
                 exists c',
                   get address c = (Return found, c')
                   /\ property_ c' !! key = Some found
                   /\ (forall r, r ∈ found ->
                         exists s, prop_get r "address" = VStr s
                                   /\ toLowerCase s = key)
                   /\ forall https_get' JSON_parse' inherits' spreads' address',
                        toLowerCase address' = key ->
                        getPropertyFromGitHub cfg https_get' JSON_parse' inherits'
                                              spreads' address' c'
                        = (Return found, c'))
              /\ (fits = false ->
                    exists c', get address c = (Return [], c')
                               /\ property_ c' !! key = None))
        /\ (forall byYear,
              obj_get masterIndex key = Some byYear ->
              held_years inherits masterIndex key = Some (Object_keys byYear))
        /\ (obj_get masterIndex key = None -> on_prototype inherits = [] ->
            held_years inherits masterIndex key
            = if inherited_name key
              then Some (Object_keys (default [] (obj_get inherits key)))
              else None)).
Proof.
  intros Hmiss key fetched get.
  unfold get, getPropertyFromGitHub at 1 2 3 5. cbv zeta. rewrite Hmiss. fold key.
  unfold try_catch, bind.
  destruct (fetchGitHubFile_served cfg https_get JSON_parse
              "master-address-index.json" c) as (c1 & -> & Hc1).
  fold fetched.
  assert (Hkeep : property_ c1 !! key = None).
  { destruct Hc1 as (_ & _ & -> & _). done. }
  split.
  { intros ->. cbn [throw ret]. by exists c1. }
  intros masterIndex ->. split_and!.
  - intros ->. cbn [ret]. by exists c1.
  - intros years ->.
    destruct (load_years_lookup key years [] c1) as (c2 & Hc2 & ->).
    assert (Hext : forall y,
               lookup_address_year (served cfg https_get JSON_parse c1) key y
               = lookup_address_year fetched key y).
    { intros y. apply lookup_address_year_ext. by destruct Hc1 as [? _]. }
    assert (Hall : forallb (fun y => spreads (length (lookup_address_year
                                         (served cfg https_get JSON_parse c1) key y)))
                           years
                   = forallb (fun y => spreads (length (lookup_address_year
                                                          fetched key y)))
                             years).
    { clear -Hext. induction years as [|y years IHy]; [done|].
      cbn [forallb]. by rewrite Hext, IHy. }
    assert (Hfound : flat_map (lookup_address_year (served cfg https_get JSON_parse c1)
                                                   key) years
                     = flat_map (lookup_address_year fetched key) years).
    { apply flat_map_ext. exact Hext. }
    rewrite Hall, Hfound. cbn [app]. split.
    + intros ->. cbn [set_property ret]. eexists. split; [reflexivity|].
      cbn [property_]. rewrite lookup_insert_eq. split; [done|]. split.
      * intros r Hr. apply list_elem_of_In, in_flat_map in Hr as (yr & _ & Hr).
        apply list_elem_of_In, lookup_address_year_address in Hr as (s & Hs & Hl).
        exists s. split; [done|]. rewrite Hl. unfold key. apply toLowerCase_idem.
      * intros g p i sp address' Ha. unfold getPropertyFromGitHub. cbn [property_].
        by rewrite Ha, lookup_insert_eq.
    + intros ->. cbn [ret]. exists c2. split; [done|].
      destruct Hc2 as (_ & _ & -> & _). done.
  - intros byYear Hown. unfold held_years. by rewrite Hown.
  - intros Hnone Hclean. unfold held_years. rewrite Hnone.
    rewrite inherit_clean by done. by destruct (inherited_name key).
Qed.
End ReaderFacts.

Lemma searchAddressFromGitHub_cached_witness :
  exists results c',
    searchAddressFromGitHub rawson_cfg rawson_https_get rawson_JSON_parse
                            fixture_Date_time "Rawson" 2 empty_cache
    = (Return results, c')
    /\ searchAddressFromGitHub rawson_cfg (fun _ => NetworkError) (fun _ => None)
                               fixture_Date_time "RAWSON" 10 c'
       = (Return (take 10 results), c').
Proof.
  destruct (proj1 (searchAddressFromGitHub_cached rawson_cfg rawson_https_get
                     rawson_JSON_parse fixture_Date_time "Rawson" 2 empty_cache
                     eq_refl) rawson_index eq_refl)
    as (results & c' & Hrun & _ & Hagain).
  exists results, c'. split; [exact Hrun|].
  exact (Hagain (fun _ => NetworkError) (fun _ => None) fixture_Date_time
                "RAWSON" 10%nat eq_refl).
Defined.

Lemma getPropertyFromGitHub_spec_witness :
  (exists results c',
      getPropertyFromGitHub rawson_cfg rawson_https_get rawson_JSON_parse []
                            (fun _ => true) "1 Rawson St" empty_cache
      = (Return results, c')
      /\ length results = 4%nat
      /\ getPropertyFromGitHub rawson_cfg (fun _ => NetworkError) (fun _ => None) []
                               (fun _ => true) "1 RAWSON ST" c'
         = (Return results, c'))
  /\ (exists c',
        getPropertyFromGitHub rawson_cfg rawson_https_get rawson_JSON_parse []
                              (fun _ => true) "Constructor" empty_cache
        = (Return [], c')
        /\ property_ c' !! "constructor" = Some []).
Proof.
  split.
  - destruct (getPropertyFromGitHub_spec rawson_cfg rawson_https_get rawson_JSON_parse
                [] (fun _ => true) "1 Rawson St" empty_cache eq_refl)
      as (_ & Hindex).
    destruct (Hindex rawson_index eq_refl) as (_ & Hheld & _).
    destruct (Hheld _ eq_refl) as [Hfits _].
    destruct (Hfits eq_refl) as (c' & Hrun & _ & _ & Hagain).
    eexists _, c'. split; [exact Hrun|]. split; [by vm_compute|].
    exact (Hagain (fun _ => NetworkError) (fun _ => None) [] (fun _ => true)
                  "1 RAWSON ST" eq_refl).
  - destruct (getPropertyFromGitHub_spec rawson_cfg rawson_https_get rawson_JSON_parse
                [] (fun _ => true) "Constructor" empty_cache eq_refl)
      as (_ & Hindex).
    destruct (Hindex rawson_index eq_refl) as (_ & Hheld & _).
    destruct (Hheld [] eq_refl) as [Hfits _].
    destruct (Hfits eq_refl) as (c' & Hrun & Hstored & _).
    exists c'. split; [exact Hrun | exact Hstored].
Defined.

Lemma fetchGitHubFile_caches_witness :
  (exists c',
      fetchGitHubFile rawson_cfg (fun _ => Response 200 "null") (fun _ => Some AFalsy)
                      "master-address-index.json" empty_cache
      = (Return (Some AFalsy), c')
      /\ fetchGitHubFile rawson_cfg (fun _ => NetworkError) (fun _ => None)
                         "master-address-index.json" c'
         = (Return (Some AFalsy), c'))
  /\ fetchGitHubFile rawson_cfg (fun _ => Response 404 "404: Not Found")
                     (fun _ => None) "master-address-index.json" empty_cache
     = (Return None, empty_cache).
Proof.
  split.
  - destruct (fetchGitHubFile_caches rawson_cfg (fun _ => Response 200 "null")
                (fun _ => Some AFalsy) "master-address-index.json" empty_cache)
      as (_ & _ & _ & Hfalsy & _).
    destruct (Hfalsy "null" eq_refl eq_refl eq_refl) as (c' & Hrun & _ & _ & Hagain).
    exists c'. split; [exact Hrun|].
    exact (Hagain (fun _ => NetworkError) (fun _ => None)).
  - destruct (fetchGitHubFile_caches rawson_cfg (fun _ => Response 404 "404: Not Found")
                (fun _ => None) "master-address-index.json" empty_cache)
      as (_ & _ & Hmiss & _).
    exact (Hmiss eq_refl).
Defined.

(** *** The years and the price search *)




Section YearsFacts.
Variable cfg : config.
Variable https_get : string -> http_outcome.
Variable JSON_parse : string -> option artifact.

End YearsFacts.

(** *** The price search *)

Section PriceFacts.
Variable cfg : config.
Variable https_get : string -> http_outcome.
Variable JSON_parse : string -> option artifact.
Variable StringToNumber : string -> number.







End PriceFacts.



(** *** A year that is written and then read *)

Lemma address_path_inj (yr : Z) (a b : string) :
  address_path (pretty yr) a = address_path (pretty yr) b ->
  hashAddress a = hashAddress b.
Proof.
  rewrite !address_path_year. intros H. apply year_path_inj in H as [_ H].
  apply (inj (String.app _)) in H. by apply string_app_inv_tail in H.
Qed.

Lemma records_at_perm (addr : string) (l l' : list property) :
  Permutation l l' -> length (records_at addr l) = length (records_at addr l').
Proof. intros Hperm. unfold records_at. by rewrite Hperm. Qed.

(** The groups of the writer of the address files, by what the last
    group with a given path is. *)
Lemma last_group_cases (yr : Z) (sorted : list property) (path : string) :
  match last (filter (fun kg => (1 < length (snd kg))%nat
                                /\ address_path (pretty yr) (fst kg) = path)
                     (Object_entries (own_groups sorted))) with
  | Some kg =>
      snd kg = records_at (fst kg) sorted
      /\ (1 < length (snd kg))%nat
      /\ address_path (pretty yr) (fst kg) = path
  | None =>
      forall key, address_path (pretty yr) key = path ->
                  (length (records_at key sorted) <= 1)%nat
  end.
Proof.
  destruct (last _) as [[key ps]|] eqn:Hlast.
  - apply last_Some_elem_of, list_elem_of_filter in Hlast as [[Hlen Hpath] Hin].
    apply own_groups_entries in Hin as [-> _]. done.
  - apply last_None in Hlast. intros key Hpath.
    destruct (decide (1 < length (records_at key sorted))%nat) as [Hlen|]; [|lia].
    assert (Hin : (key, records_at key sorted)
                  ∈ filter (fun kg => (1 < length (snd kg))%nat
                                      /\ address_path (pretty yr) (fst kg) = path)
                           (Object_entries (own_groups sorted))).
    { apply list_elem_of_filter. split; [done|].
      apply own_groups_entries. split; [done|].
      intros Hnil. rewrite Hnil in Hlen. cbn in Hlen. lia. }
    rewrite Hlast in Hin. by apply elem_of_nil in Hin.
Qed.

(** The matches of an address among compact records. *)
Lemma address_matches_compact (addr : string) (l : list property) :
  address_matches addr (map (fun p => json_object (compressProperty p)) l)
  = Some (map (fun p => json_object (compressProperty p))
              (records_at (toLowerCase addr) l)).
Proof.
  unfold address_matches.
  replace (forallb _ _) with true.
  - f_equal. unfold records_at. induction l as [|p l IH]; [done|].
    cbn [map]. rewrite !filter_cons, entry_address_compress.
    destruct (decide (toLowerCase (address p) = toLowerCase addr)) as [He|Hne].
    + rewrite decide_True by congruence. cbn [map]. by rewrite IH.
    + rewrite decide_False by congruence. done.
  - symmetry. apply forallb_forall. intros e He. apply in_map_iff in He as (p & <- & _).
    apply bool_decide_eq_true_2. rewrite entry_address_compress. by eexists.
Qed.

Lemma take_drop_subset {A : Type} (i n m : nat) (l : list A) (x : A) :
  (i + n <= m)%nat -> x ∈ take n (drop i l) -> x ∈ take m l.
Proof.
  intros Hm Hx.
  assert (Hin : x ∈ take (i + n) l).
  { rewrite <- (take_drop i (take (i + n) l)), elem_of_app. right.
    rewrite <- (take_take_drop l i n) in *.
    rewrite drop_app_length'; [done|]. rewrite length_take.
    destruct (decide (i <= length l)%nat); [lia|].
    rewrite drop_ge in Hx by lia. rewrite take_nil in Hx.
    by apply not_elem_of_nil in Hx. }
  rewrite <- (take_drop (i + n) (take m l)), take_take, elem_of_app. left.
  by replace (Nat.min (i + n) m) with (i + n)%nat by lia.
Qed.

Lemma records_at_idem (a : string) (l : list property) :
  records_at a (records_at a l) = records_at a l.
Proof.
  unfold records_at. induction l as [|p l IH]; [done|].
  rewrite filter_cons. destruct (decide _) as [He|Hne]; [|done].
  rewrite filter_cons, decide_True by done. by rewrite IH.
Qed.

Lemma records_at_other (a key : string) (l : list property) :
  key <> a -> records_at a (records_at key l) = [].
Proof.
  intros Hne. unfold records_at. induction l as [|p l IH]; [done|].
  rewrite filter_cons. destruct (decide _) as [He|Hnk]; [|done].
  rewrite filter_cons, decide_False by congruence. done.
Qed.

Lemma lookup_chunks_none (fetched : string -> option artifact) (yr addr : string)
    (chunks : list chunkInfo) :
  Forall (fun chunk =>
            exists chunkData l,
              fetched (path_join yr (info_filename chunk)) = Some (AChunk chunkData)
              /\ chunk_properties chunkData
                 = map (fun p => json_object (compressProperty p)) l
              /\ records_at (toLowerCase addr) l = [])
         chunks ->
  lookup_chunks fetched yr addr chunks = Some [].
Proof.
  induction 1 as [|chunk chunks (cd & l & Hf & Hp & Hnone) _ IH]; [done|].
  cbn [lookup_chunks]. rewrite Hf.
  cbn [truthy_artifact negb entries_of mbind option_bind].
  by rewrite Hp, address_matches_compact, Hnone.
Qed.

Lemma records_at_nil_subset (a : string) (l l' : list property) :
  (forall p, p ∈ l -> p ∈ l') -> records_at a l' = [] -> records_at a l = [].
Proof.
  unfold records_at. intros Hsub Hnil.
  induction l as [|p l IH]; [done|]. rewrite filter_cons.
  destruct (decide _) as [Hp|_].
  - assert (Hin : p ∈ filter (fun q => toLowerCase (address q) = a) l').
    { apply list_elem_of_filter. split; [done|]. apply Hsub. left. }
    rewrite Hnil in Hin. by apply not_elem_of_nil in Hin.
  - apply IH. intros q Hq. apply Hsub. by right.
Qed.

Section ReadBack.
Variable localeCompare : string -> string -> Z.
Variable byteSize : chunkData -> nat.
Variable now : string.
Variable cfg : config.
Hypothesis size_pos : (1 <= recordsPerChunk cfg)%nat.

Let compact := fun p : property => json_object (compressProperty p).

(** X20. Read after write, by the address file. Once a year is written
    from records none of whose lowercased addresses is a name under which
    a plain object inherits a truthy value, so that the writer returns,
    and the year is served as it is, the lookup of an address that has
    more than one record in the year, and whose hash no other such
    address shares, returns the expansions of the compact forms of
    exactly the records of that address, in the order in which the writer
    sorted them. *)
Theorem repeat_sales_read_back (yr : Z) (properties : list property) (w : world)
    (addr : string) :
  let sorted := sort_by_address localeCompare properties in
  let a := toLowerCase addr in
  plain_addresses (prototypes w) properties ->
  (1 < length (records_at a properties))%nat ->
  (forall key, key <> a -> hashAddress key = hashAddress a ->
               (length (records_at key properties) <= 1)%nat) ->
  exists w',
    createOptimizedChunks localeCompare byteSize now cfg yr properties w
    = Some (Return sorted, w')
    /\ forall reader https_get JSON_parse c,
         (forall path, served reader https_get JSON_parse c path = files w' !! path) ->
         exists c',
           loadPropertiesForAddressYear reader https_get JSON_parse a (pretty yr) c
           = (Return (map (fun p => decompressProperty (compact p))
                          (records_at a sorted)), c').
Proof.
  intros sorted a Hplain Hlen Hfree.
  assert (Hperm : Permutation properties sorted) by apply Array_sort_perm.
  pose proof (written_year localeCompare byteSize now cfg size_pos yr properties w)
    as Hwritten.
  cbv zeta in Hwritten. fold sorted in Hwritten.
  destruct Hwritten as (r & w' & Hrun & _ & _ & _ & _ & _ & Hret & _).
  destruct (Hret Hplain) as [-> Hfile].
  exists w'. split; [exact Hrun|].
  intros reader https_get JSON_parse c Hserved.
  destruct (loadPropertiesForAddressYear_lookup reader https_get JSON_parse
              a (pretty yr) c) as (c' & Hload & _).
  exists c'. rewrite Hload. do 2 f_equal.
  rewrite (lookup_address_year_ext _ _ _ _ Hserved).
  unfold lookup_address_year. rewrite Hfile.
  pose proof (last_group_cases yr sorted (address_path (pretty yr) a)) as Hcases.
  destruct (last _) as [[key ps]|]; cbn [fst snd] in Hcases.
  - destruct Hcases as (-> & Hk & Hpath).
    assert (key = a) as ->.
    { destruct (decide (key = a)) as [|Hne]; [done|].
      apply address_path_inj in Hpath. specialize (Hfree key Hne Hpath).
      rewrite (records_at_perm key _ _ Hperm) in Hfree. lia. }
    cbn [snd truthy_artifact entries_of mbind option_bind address_file file_properties].
    rewrite address_matches_compact. cbn [fmap option_fmap option_map default].
    unfold a. rewrite toLowerCase_idem. fold a.
    by rewrite records_at_idem, map_map.
  - specialize (Hcases a eq_refl).
    rewrite (records_at_perm a _ _ Hperm) in Hlen. lia.
Qed.

(** X21. A shared hash hides an address. When two addresses with more than
    one record each in a year have the same hash, the year is written
    from records none of whose lowercased addresses is a name under which
    a plain object inherits a truthy value, and it is served as it is,
    the lookup of one of the two returns nothing, though its records are
    in the chunks and the index counts them. *)
Theorem shared_hash_hides (yr : Z) (properties : list property) (w : world)
    (addr1 addr2 : string) :
  let sorted := sort_by_address localeCompare properties in
  let a1 := toLowerCase addr1 in
  let a2 := toLowerCase addr2 in
  plain_addresses (prototypes w) properties ->
  a1 <> a2 ->
  hashAddress a1 = hashAddress a2 ->
  (1 < length (records_at a1 properties))%nat ->
  (1 < length (records_at a2 properties))%nat ->
  exists w',
    createOptimizedChunks localeCompare byteSize now cfg yr properties w
    = Some (Return sorted, w')
    /\ count_address a1 (year_entries (files w') yr)
       = length (records_at a1 properties)
    /\ count_address a2 (year_entries (files w') yr)
       = length (records_at a2 properties)
    /\ forall reader https_get JSON_parse c,
         (forall path, served reader https_get JSON_parse c path = files w' !! path) ->
         (exists c',
             loadPropertiesForAddressYear reader https_get JSON_parse a1 (pretty yr) c
             = (Return [], c'))
         \/ (exists c',
                loadPropertiesForAddressYear reader https_get JSON_parse a2 (pretty yr) c
                = (Return [], c')).
Proof.
  intros sorted a1 a2 Hplain Hne Hhash Hlen1 Hlen2.
  pose proof (written_year localeCompare byteSize now cfg size_pos yr properties w)
    as Hwritten.
  cbv zeta in Hwritten. fold sorted in Hwritten.
  destruct Hwritten as (r & w' & Hrun & _ & _ & _ & _ & _ & Hret & _).
  destruct (written_year_reads_back localeCompare byteSize now cfg size_pos
              yr properties w)
    as (r' & w'' & Hrun' & _ & _ & _ & _ & Hcount & _).
  rewrite Hrun in Hrun'. injection Hrun' as <- <-.
  destruct (Hret Hplain) as [-> Hfile].
  exists w'. split; [exact Hrun|].
  split; [apply Hcount|]. split; [apply Hcount|].
  intros reader https_get JSON_parse c Hserved.
  assert (Hpath : address_path (pretty yr) a1 = address_path (pretty yr) a2).
  { unfold address_path. by rewrite Hhash. }
  assert (Hperm : Permutation properties sorted) by apply Array_sort_perm.
  assert (Hheld : exists key,
             (1 < length (records_at key sorted))%nat
             /\ files w' !! address_path (pretty yr) a1
                = Some (AAddressFile (address_file (records_at key sorted)))).
  { rewrite Hfile.
    pose proof (last_group_cases yr sorted (address_path (pretty yr) a1)) as Hcases.
    destruct (last _) as [[key ps]|]; cbn [fst snd] in Hcases.
    - destruct Hcases as (-> & Hk & _). by exists key.
    - specialize (Hcases a1 eq_refl).
      rewrite (records_at_perm a1 _ _ Hperm) in Hlen1. lia. }
  destruct Hheld as (key & Hklen & Hheld).
  assert (Hhidden : forall a, a = a1 \/ a = a2 -> toLowerCase a = a -> key <> a ->
             exists c',
               loadPropertiesForAddressYear reader https_get JSON_parse a (pretty yr) c
               = (Return [], c')).
  { intros a Ha Hlow Hka.
    destruct (loadPropertiesForAddressYear_lookup reader https_get JSON_parse
                a (pretty yr) c) as (c' & Hload & _).
    exists c'. rewrite Hload. do 2 f_equal.
    rewrite (lookup_address_year_ext _ _ _ _ Hserved). unfold lookup_address_year.
    replace (address_path (pretty yr) a) with (address_path (pretty yr) a1)
      by (by destruct Ha as [->| ->]).
    rewrite Hheld.
    cbn [truthy_artifact entries_of mbind option_bind address_file file_properties].
    rewrite address_matches_compact. cbn [fmap option_fmap option_map default].
    rewrite Hlow.
    by rewrite records_at_other. }
  destruct (decide (key = a1)) as [->|Hk1].
  - right. apply Hhidden; [by right | apply toLowerCase_idem | done].
  - left. apply Hhidden; [by left | apply toLowerCase_idem | done].
Qed.

(** X22. The fallback stops after three chunks. Once a year is written to
    a directory that held no file under the name of the address file,
    whether the writer returned or threw after the manifest, and is
    served as it is, the lookup of an address with at most one record in
    the year returns nothing when none of the first three chunks, the
    first [3 * recordsPerChunk] records in the order of the writer,
    holds the address: a record of the address in a later chunk is never
    found. *)
Theorem beyond_three_chunks (yr : Z) (properties : list property) (w : world)
    (addr : string) :
  let sorted := sort_by_address localeCompare properties in
  let a := toLowerCase addr in
  (length (records_at a properties) <= 1)%nat ->
  files w !! address_path (pretty yr) a = None ->
  records_at a (take (3 * recordsPerChunk cfg) sorted) = [] ->
  exists r w',
    createOptimizedChunks localeCompare byteSize now cfg yr properties w
    = Some (r, w')
    /\ forall reader https_get JSON_parse c,
         (forall path, served reader https_get JSON_parse c path = files w' !! path) ->
         exists c',
           loadPropertiesForAddressYear reader https_get JSON_parse a (pretty yr) c
           = (Return [], c').
Proof.
  intros sorted a Hlen Hfresh Hfirst.
  assert (Hperm : Permutation properties sorted) by apply Array_sort_perm.
  pose proof (written_year localeCompare byteSize now cfg size_pos yr properties w)
    as Hwritten.
  cbv zeta in Hwritten. fold sorted in Hwritten.
  destruct Hwritten as (r & w' & Hrun & Hmanifest & Hchunk & _ & _ & _ & Hret & Hthrow).
  set (pages := spec_pages (recordsPerChunk cfg) sorted) in *.
  exists r, w'. split; [exact Hrun|].
  intros reader https_get JSON_parse c Hserved.
  assert (Hheld : files w' !! address_path (pretty yr) a = None
                  \/ exists key,
                       key <> a
                       /\ files w' !! address_path (pretty yr) a
                          = Some (AAddressFile (address_file (records_at key sorted)))).
  { destruct (Forall_dec (fun p => truthy_inherited (prototypes w)
                                     (toLowerCase (address p)) = false)
                         properties) as [Hyes|Hnot].
    - destruct (Hret Hyes) as [_ Hfile]. rewrite Hfile.
      pose proof (last_group_cases yr sorted (address_path (pretty yr) a)) as Hcases.
      destruct (last _) as [[key ps]|]; cbn [fst snd] in Hcases.
      + right. destruct Hcases as (-> & Hk & _). exists key. split; [|done].
        intros ->. rewrite <- (records_at_perm a _ _ Hperm) in Hk. lia.
      + by left.
    - destruct (Hthrow Hnot) as [_ Hfile]. left. by rewrite Hfile. }
  destruct (loadPropertiesForAddressYear_lookup reader https_get JSON_parse
              a (pretty yr) c) as (c' & Hload & _).
  exists c'. rewrite Hload. do 2 f_equal.
  rewrite (lookup_address_year_ext _ _ _ _ Hserved). unfold lookup_address_year.
  destruct Hheld as [Hnone|(key & Hkey & Hfile)].
  - rewrite Hnone. cbn [truthy_artifact].
    rewrite Hmanifest. cbn [truthy_artifact negb make_manifest manifest_chunks].
    rewrite slice_0, <- fmap_take. rewrite lookup_chunks_none; [done|].
    apply Forall_fmap, Forall_lookup. intros i pg Hi.
    assert (Hi3 : (i < 3)%nat).
    { apply lookup_lt_Some in Hi. rewrite length_take in Hi. lia. }
    rewrite lookup_take_lt in Hi by done.
    assert (Hpg : pg ∈ pages) by by eapply list_elem_of_lookup_2.
    apply spec_pages_lookup in Hi as [-> _].
    eexists _, _. split; [by apply Hchunk|]. cbn [make_chunk chunk_properties snd].
    split; [reflexivity|].
    unfold a. rewrite toLowerCase_idem. fold a.
    apply (records_at_nil_subset a _ (take (3 * recordsPerChunk cfg) sorted));
      [|done].
    intros p Hp. unfold slice in Hp.
    eapply take_drop_subset; [|exact Hp].
    replace (i * recordsPerChunk cfg + recordsPerChunk cfg - i * recordsPerChunk cfg)%nat
      with (recordsPerChunk cfg) by lia.
    nia.
  - rewrite Hfile.
    cbn [truthy_artifact entries_of mbind option_bind address_file file_properties].
    rewrite address_matches_compact. cbn [fmap option_fmap option_map default].
    unfold a. rewrite toLowerCase_idem. fold a.
    by rewrite records_at_other.
Qed.
End ReadBack.

Lemma records_at_length (key : string) (l : list property) :
  length (records_at key l)
  = length (filter (fun a => a = key) (map (fun p => toLowerCase (address p)) l)).
Proof.
  unfold records_at. induction l as [|p l IH]; [done|].
  cbn [map]. rewrite !filter_cons. destruct (decide _); cbn [length]; by rewrite IH.
Qed.

Lemma repeat_sales_read_back_witness :
  exists w' c',
    createOptimizedChunks codeunit_compare (fun _ => 0%nat) "2025-08-22T11:24:45.195Z"
                          (make_config no_settings) 2020 three_sales empty_world
    = Some (Return (sort_by_address codeunit_compare three_sales), w')
    /\ loadPropertiesForAddressYear rawson_cfg (published_get rawson_cfg (files w'))
                                    (published_parse (files w')) "7 elm st" "2020"
                                    empty_cache
       = (Return (map (fun p => decompressProperty (json_object (compressProperty p)))
                      (records_at "7 elm st"
                                  (sort_by_address codeunit_compare three_sales))), c').
Proof.
  destruct (repeat_sales_read_back codeunit_compare (fun _ => 0%nat)
              "2025-08-22T11:24:45.195Z" (make_config no_settings)
              (make_config_size no_settings) 2020 three_sales empty_world "7 Elm St")
    as (w' & Hrun & Hload).
  - vm_compute. repeat constructor.
  - vm_compute. lia.
  - intros key Hkey _. rewrite records_at_length.
    change (map (fun p => toLowerCase (address p)) three_sales)
      with ["7 elm st"; "103 rawson st"; "7 elm st"].
    rewrite !filter_cons, filter_nil.
    rewrite !(decide_False (P := "7 elm st" = key)) by (intros <-; by apply Hkey).
    destruct (decide ("103 rawson st" = key)); cbn; lia.
  - destruct (Hload rawson_cfg (published_get rawson_cfg (files w'))
                    (published_parse (files w')) empty_cache
                    (served_published rawson_cfg (files w'))) as (c' & Hc').
    exists w', c'. split; [exact Hrun | exact Hc'].
Defined.

Lemma shared_hash_hides_witness :
  exists w',
    createOptimizedChunks codeunit_compare (fun _ => 0%nat) "2025-08-22T11:24:45.195Z"
                          (make_config no_settings) 2020 rawson_twins empty_world
    = Some (Return (sort_by_address codeunit_compare rawson_twins), w')
    /\ count_address "103 rawson st" (year_entries (files w') 2020) = 2%nat
    /\ count_address "103 rawson rd" (year_entries (files w') 2020) = 2%nat
    /\ ((exists c',
            loadPropertiesForAddressYear rawson_cfg
              (published_get rawson_cfg (files w')) (published_parse (files w'))
              "103 rawson st" "2020" empty_cache
            = (Return [], c'))
        \/ (exists c',
               loadPropertiesForAddressYear rawson_cfg
                 (published_get rawson_cfg (files w')) (published_parse (files w'))
                 "103 rawson rd" "2020" empty_cache
               = (Return [], c'))).
Proof.
  destruct (shared_hash_hides codeunit_compare (fun _ => 0%nat)
              "2025-08-22T11:24:45.195Z" (make_config no_settings)
              (make_config_size no_settings) 2020 rawson_twins empty_world
              "103 Rawson St" "103 Rawson Rd")
    as (w' & Hrun & Hc1 & Hc2 & Hload).
  - vm_compute. repeat constructor.
  - discriminate.
  - reflexivity.
  - vm_compute. lia.
  - vm_compute. lia.
  - exists w'. split; [exact Hrun|].
    split; [exact (eq_trans Hc1 eq_refl)|]. split; [exact (eq_trans Hc2 eq_refl)|].
    exact (Hload rawson_cfg (published_get rawson_cfg (files w'))
                 (published_parse (files w')) empty_cache
                 (served_published rawson_cfg (files w'))).
Defined.

Lemma beyond_three_chunks_witness :
  length (records_at "4 dove st" four_streets) = 1%nat
  /\ exists r w' c',
       createOptimizedChunks codeunit_compare (fun _ => 0%nat)
                             "2025-08-22T11:24:45.195Z" one_per_chunk 2020
                             four_streets empty_world
       = Some (r, w')
       /\ loadPropertiesForAddressYear rawson_cfg
            (published_get rawson_cfg (files w')) (published_parse (files w'))
            "4 dove st" "2020" empty_cache
          = (Return [], c').
Proof.
  split; [by vm_compute|].
  destruct (beyond_three_chunks codeunit_compare (fun _ => 0%nat)
              "2025-08-22T11:24:45.195Z" one_per_chunk (le_n 1) 2020 four_streets
              empty_world "4 Dove St")
    as (r & w' & Hrun & Hload).
  - vm_compute. lia.
  - reflexivity.
  - by vm_compute.
  - destruct (Hload rawson_cfg (published_get rawson_cfg (files w'))
                    (published_parse (files w')) empty_cache
                    (served_published rawson_cfg (files w'))) as (c' & Hc').
    exists r, w', c'. split; [exact Hrun | exact Hc'].
Defined.

